(** * language-table: the translation table editor

    A shallow embedding of [language-table.js] (the revision with the
    Quill modal, the DOM-based attribute preservation and pagination) and
    the properties of its view derivation (search, key enumeration, sort,
    pagination, column rendering), of its markup reconciler
    ([extractHTMLAttributes] / [reapplyHTMLAttributes]) and of its edit
    session ([handleModalSave] and the handlers that close the modal).

    Conventions of the embedding.
    - A JavaScript string is a [string]: one character per UTF-16 code
      unit, so the strings of the model are those whose code units are
      below 256 (Latin-1).  [toLowerCase], [trim], the relational operator
      [<] and the case folding of regular expressions are written out for
      these code units.
    - A JavaScript object used as a dictionary is the association list of
      its own properties in the order [Object.keys] enumerates them (array
      indices first, ascending, then the other names in insertion order).
      Its values are strings.  A read [o[k]] goes on to [Object.prototype]
      when [o] has no property [k] of its own ([JS.read]), and so does an
      assignment to [__proto__] ([JS.assign]).
    - The trees are those that the HTML parser builds from markup: HTML
      elements, with attribute names in ASCII lower case, which
      [setAttribute] leaves as they are.
    - [undefined] is [None]; an uncaught [TypeError] is an explicit result.
    - The handlers mutate the global [state] and [modifiedDataSource]; here
      they are functions from [State] to [State], and what [renderTable]
      paints is a function of the state. *)

From Stdlib Require Import String Ascii List ZArith NArith Lia Bool.
From Stdlib Require Import Permutation Sorted OrderedTypeEx.
Import ListNotations.
Local Open Scope string_scope.

(** ** JavaScript built-ins used by the program *)

Module JS.

(** *** Strings *)

(** [WhiteSpace] and [LineTerminator] code units below 256: TAB, LF, VT,
    FF, CR, SP and NBSP. *)
Definition isWhiteSpace (c : ascii) : bool :=
  let n := N_of_ascii c in
  (((9 <=? n) && (n <=? 13)) || (n =? 32) || (n =? 160))%N.

Fixpoint trimStart (s : string) : string :=
  match s with
  | EmptyString => EmptyString
  | String c s' => if isWhiteSpace c then trimStart s' else s
  end.

Fixpoint trimEnd (s : string) : string :=
  match s with
  | EmptyString => EmptyString
  | String c s' =>
      match trimEnd s' with
      | EmptyString => if isWhiteSpace c then EmptyString else String c EmptyString
      | t => String c t
      end
  end.

(** [String.prototype.trim] *)
Definition trim (s : string) : string := trimEnd (trimStart s).

(** [String.prototype.toLowerCase] on one code unit: A-Z, and the
    Latin-1 capitals U+00C0-U+00DE except the multiplication sign. *)
Definition lowerChar (c : ascii) : ascii :=
  let n := N_of_ascii c in
  if (((65 <=? n) && (n <=? 90))
      || ((192 <=? n) && (n <=? 222) && negb (n =? 215)))%N
  then ascii_of_N (n + 32) else c.

Fixpoint toLowerCase (s : string) : string :=
  match s with
  | EmptyString => EmptyString
  | String c s' => String (lowerChar c) (toLowerCase s')
  end.

(** [s.startsWith(p)] *)
Definition startsWith (p s : string) : bool := String.prefix p s.

(** The relational operator [a < b] on two strings: code units compared
    lexicographically. *)
Definition lt (a b : string) : bool := String.ltb a b.

(** [ToBoolean] of a string. *)
Definition truthy (s : string) : bool := negb (s =? "").

(** The line feed, [\n]. *)
Definition lineFeed : string := String (ascii_of_N 10) "".

(** [v || d] where [v] is a string or [undefined]. *)
Definition orElse (v : option string) (d : string) : string :=
  match v with
  | Some s => if truthy s then s else d
  | None => d
  end.

(** *** Numbers: the results of [Math.ceil(totalRows / rowsPerPage)] *)

Inductive number := Num (z : Z) | Infinity | NaN.

(** [Math.ceil(a / b)] for a count [a] and an integer [b]. *)
Definition ceilDiv (a : nat) (b : Z) : number :=
  if (b =? 0)%Z then (if Nat.eqb a 0 then NaN else Infinity)
  else Num (- ((- Z.of_nat a) / b))%Z.

(** [p > n] for an integer [p]: false when [n] is [NaN] or [Infinity]. *)
Definition gt (p : Z) (n : number) : bool :=
  match n with Num z => (z <? p)%Z | Infinity => false | NaN => false end.

(** *** Arrays *)

(** [Array.prototype.slice(start, end)] with integer arguments. *)
Definition slice {A} (l : list A) (start stop : Z) : list A :=
  let len := Z.of_nat (List.length l) in
  let k := if (start <? 0)%Z then Z.max (len + start) 0 else Z.min start len in
  let final := if (stop <? 0)%Z then Z.max (len + stop) 0 else Z.min stop len in
  firstn (Z.to_nat (Z.max (final - k) 0)) (skipn (Z.to_nat k) l).

(** [Array.prototype.sort(comparefn)].  The sort is stable, and with a
    consistent comparator (as the one of [applySortingToKeys] is) every
    conforming engine returns the same array: the one where [a] comes
    before [b] when [comparefn(a, b) < 0], and elements that compare
    equal keep their order.  It is written here as a stable insertion. *)
Section Sort.
Context {A : Type} (comparefn : A -> A -> Z).

Fixpoint insert (x : A) (l : list A) : list A :=
  match l with
  | [] => [x]
  | y :: l' => if (comparefn x y <=? 0)%Z then x :: l else y :: insert x l'
  end.

Fixpoint sort (l : list A) : list A :=
  match l with
  | [] => []
  | x :: l' => insert x (sort l')
  end.
End Sort.

(** [a[i] = f(a[i])] for an index within the array. *)
Fixpoint updateNth {A} (i : nat) (f : A -> A) (l : list A) : list A :=
  match l, i with
  | [], _ => []
  | x :: l', O => f x :: l'
  | x :: l', S i' => x :: updateNth i' f l'
  end.

(** [array.forEach((x, i) => ...)] and [map] with the index. *)
Definition indexed {A} (l : list A) : list (nat * A) :=
  combine (seq 0 (List.length l)) l.

(** *** Objects used as dictionaries *)

Definition Obj (V : Type) := list (string * V).

Fixpoint get {V} (o : Obj V) (k : string) : option V :=
  match o with
  | [] => None
  | (k', v) :: o' => if k =? k' then Some v else get o' k
  end.

(** [Object.keys(o)] *)
Definition keys {V} (o : Obj V) : list string := map fst o.

Definition isDigit (c : ascii) : bool :=
  let n := N_of_ascii c in ((48 <=? n) && (n <=? 57))%N.

Fixpoint digitsValue (acc : N) (s : string) : option N :=
  match s with
  | EmptyString => Some acc
  | String c s' =>
      if isDigit c then digitsValue (acc * 10 + (N_of_ascii c - 48))%N s' else None
  end.

(** An array index: the canonical decimal form of an integer in
    [0, 2^32 - 2].  Such property names are enumerated first. *)
Definition arrayIndex (k : string) : option N :=
  match k with
  | EmptyString => None
  | String c rest =>
      if (c =? "0")%char && negb (rest =? "") then None
      else match digitsValue 0 k with
           | Some n => if (n <=? 4294967294)%N then Some n else None
           | None => None
           end
  end.

Fixpoint replace {V} (o : Obj V) (k : string) (v : V) : option (Obj V) :=
  match o with
  | [] => None
  | (k', v') :: o' =>
      if k =? k' then Some ((k', v) :: o')
      else option_map (cons (k', v')) (replace o' k v)
  end.

Fixpoint insertIndex {V} (n : N) (k : string) (v : V) (o : Obj V) : Obj V :=
  match o with
  | [] => [(k, v)]
  | (k', v') :: o' =>
      match arrayIndex k' with
      | Some m => if (m <? n)%N then (k', v') :: insertIndex n k v o' else (k, v) :: o
      | None => (k, v) :: o
      end
  end.

(** [o[k] = v]: an existing property keeps its place, a new one is
    enumerated after the others (among the array indices, in numeric
    order). *)
Definition set {V} (o : Obj V) (k : string) (v : V) : Obj V :=
  match replace o k v with
  | Some o' => o'
  | None =>
      match arrayIndex k with
      | Some n => insertIndex n k v o
      | None => (o ++ [(k, v)])%list
      end
  end.

(** *** The prototype chain

    The dictionaries of the program are plain objects (they come out of
    [JSON.parse] or of an object literal): a property that the object does
    not have itself is looked up in [Object.prototype]. *)

(** The property names of [Object.prototype] (ECMAScript with its annex
    for browsers). *)
Definition objectPrototypeNames : list string :=
  ["constructor"; "__defineGetter__"; "__defineSetter__"; "hasOwnProperty";
   "__lookupGetter__"; "__lookupSetter__"; "isPrototypeOf"; "propertyIsEnumerable";
   "toString"; "valueOf"; "__proto__"; "toLocaleString"].

(** What [o[k]] evaluates to on a dictionary of strings, when it is not
    [undefined]: a string of the object itself, or the property [name] of
    [Object.prototype], which is a function and, for [__proto__], the
    prototype itself. *)
Inductive Value :=
| VString (s : string)
| VInherited (name : string).

(** [o[k]] *)
Definition read (o : Obj string) (k : string) : option Value :=
  match get o k with
  | Some s => Some (VString s)
  | None =>
      if existsb (String.eqb k) objectPrototypeNames then Some (VInherited k) else None
  end.

(** [v || ''] where [v] is the result of [o[k]]: an object is truthy. *)
Definition orEmpty (v : option Value) : Value :=
  match v with
  | Some (VString s) => if truthy s then VString s else VString ""
  | Some (VInherited name) => VInherited name
  | None => VString ""
  end.

(** [o[k] = v] for a string [v].  An object without a property
    [__proto__] of its own inherits the accessor of [Object.prototype],
    whose setter ignores a value that is not an object: the assignment
    adds nothing.  Any other inherited name is a writable data property,
    and the assignment makes a property of the object as usual. *)
Definition assign (o : Obj string) (k v : string) : Obj string :=
  match get o k with
  | Some _ => set o k v
  | None => if k =? "__proto__" then o else set o k v
  end.

(** [new Set()] filled with [add], then [Array.from]: insertion order,
    no repeats. *)
Definition setAdd (s : list string) (k : string) : list string :=
  if existsb (String.eqb k) s then s else (s ++ [k])%list.

End JS.

(** ** Regular expressions: [new RegExp(pattern, 'gi')] and [test]

    The model covers the patterns made of pattern characters and of
    identity escapes of syntax characters, which is where every pattern
    that [getSearchResults] builds lies ([escaped_compiles] below).
    A pattern that ends in a lone backslash is a [SyntaxError] here as in
    the engine; any other pattern outside this fragment is refused too. *)

Module RegExp.

(** [SyntaxCharacter]: [^ $ \ . * + ? ( ) [ ] { } |] *)
Definition isSyntaxCharacter (c : ascii) : bool :=
  existsb (Ascii.eqb c)
    ["^"; "$"; "\"; "."; "*"; "+"; "?"; "("; ")"; "["; "]"; "{"; "}"; "|"]%char.

(** A compiled pattern: the characters to match in sequence. *)
Definition t := list ascii.

Fixpoint compile (pattern : string) : option t :=
  match pattern with
  | EmptyString => Some []
  | String c rest =>
      if (c =? "\")%char then
        match rest with
        | EmptyString => None
        | String d rest' =>
            if isSyntaxCharacter d then option_map (cons d) (compile rest') else None
        end
      else if isSyntaxCharacter c then None
      else option_map (cons c) (compile rest)
  end.

(** [Canonicalize] with the [i] flag and without the [u] flag: the code
    unit of [toUpperCase] when that is a single code unit (and does not
    turn a non-ASCII unit into an ASCII one).  The micro sign and y with
    diaeresis leave Latin-1; sharp s has a two-unit upper case and stays. *)
Definition canonicalize (c : ascii) : N :=
  let n := N_of_ascii c in
  if (((97 <=? n) && (n <=? 122))
      || ((224 <=? n) && (n <=? 254) && negb (n =? 247)))%N then (n - 32)%N
  else if (n =? 181)%N then 924%N
  else if (n =? 255)%N then 376%N
  else n.

(** The pattern matches at the start of [s]. *)
Fixpoint matchesAt (re : t) (s : string) : bool :=
  match re, s with
  | [], _ => true
  | _ :: _, EmptyString => false
  | r :: re', String c s' => (canonicalize r =? canonicalize c)%N && matchesAt re' s'
  end.

(** [regex.lastIndex = 0; regex.test(s)]: a match somewhere in [s]. *)
Fixpoint test (re : t) (s : string) : bool :=
  matchesAt re s ||
  match s with
  | EmptyString => false
  | String _ s' => test re s'
  end.

End RegExp.

(** ** The DOM trees that the HTML parser produces *)

#[local] Set Warnings "-register-all".

Module Dom.

Inductive Node :=
| Element (tagName : string) (attributes : list (string * string)) (childNodes : list Node)
| Text (data : string)
| Comment (data : string).

(** [element.textContent]: the data of the text nodes below, in tree
    order. *)
Fixpoint textContent (n : Node) : string :=
  match n with
  | Element _ _ cs => fold_right (fun c acc => textContent c ++ acc) "" cs
  | Text d => d
  | Comment _ => ""
  end.

(** The [textContent] of an element whose children are [cs] (of
    [doc.body], of the temporary [div]). *)
Definition textOfChildren (cs : list Node) : string :=
  fold_right (fun c acc => textContent c ++ acc) "" cs.

(** [element.tagName.toLowerCase()] *)
Definition tagNameLower (n : Node) : string :=
  match n with
  | Element t _ _ => JS.toLowerCase t
  | _ => ""
  end.

Definition attributesOf (n : Node) : list (string * string) :=
  match n with
  | Element _ a _ => a
  | _ => []
  end.

Definition childNodesOf (n : Node) : list Node :=
  match n with
  | Element _ _ cs => cs
  | _ => []
  end.

Definition isElement (n : Node) : bool :=
  match n with
  | Element _ _ _ => true
  | _ => false
  end.

(** [element.setAttribute(name, value)]: an attribute that is present
    keeps its place. *)
Fixpoint setAttribute (name value : string) (attrs : list (string * string))
  : list (string * string) :=
  match attrs with
  | [] => [(name, value)]
  | (n, v) :: rest =>
      if name =? n then (n, value) :: rest
      else (n, v) :: setAttribute name value rest
  end.

(** A node is referred to by its path: the child indices from the body
    down to it. *)
Definition Path := list nat.

Definition under (i : nat) (e : Path * Node) : Path * Node := (i :: fst e, snd e).

(** The elements of a subtree in tree order (preorder, depth first), which
    is the order of [querySelectorAll]. *)
Fixpoint elementsOf (n : Node) : list (Path * Node) :=
  match n with
  | Element _ _ cs =>
      ([], n) ::
      (fix below (i : nat) (cs : list Node) : list (Path * Node) :=
         match cs with
         | [] => []
         | c :: cs' => (map (under i) (elementsOf c) ++ below (S i) cs')%list
         end) 0%nat cs
  | _ => []
  end.

Fixpoint elementsFrom (i : nat) (cs : list Node) : list (Path * Node) :=
  match cs with
  | [] => []
  | c :: cs' => (map (under i) (elementsOf c) ++ elementsFrom (S i) cs')%list
  end.

(** [body.querySelectorAll('*')] for the body whose children are [cs]. *)
Definition elementsIn (cs : list Node) : list (Path * Node) := elementsFrom 0 cs.

(** [body.querySelectorAll('t1, t2, ...')] *)
Definition querySelectorAll (tags : list string) (cs : list Node) : list (Path * Node) :=
  filter (fun e => existsb (String.eqb (tagNameLower (snd e))) tags) (elementsIn cs).

(** The node at path [p] below [n] becomes [f] of itself. *)
Fixpoint updateBelow (p : Path) (f : Node -> Node) (n : Node) : Node :=
  match p with
  | [] => f n
  | i :: p' =>
      match n with
      | Element t a cs => Element t a (JS.updateNth i (updateBelow p' f) cs)
      | _ => n
      end
  end.

Definition updateAt (p : Path) (f : Node -> Node) (cs : list Node) : list Node :=
  match p with
  | [] => cs
  | i :: p' => JS.updateNth i (updateBelow p' f) cs
  end.

Fixpoint nodeBelow (p : Path) (n : Node) : option Node :=
  match p with
  | [] => Some n
  | i :: p' =>
      match nth_error (childNodesOf n) i with
      | Some c => nodeBelow p' c
      | None => None
      end
  end.

Definition nodeAt (p : Path) (cs : list Node) : option Node :=
  match p with
  | [] => None
  | i :: p' =>
      match nth_error cs i with
      | Some c => nodeBelow p' c
      | None => None
      end
  end.



End Dom.

(** The browser: its two HTML parsers (the [innerHTML] setter of a [div]
    and [DOMParser.parseFromString(_, 'text/html').body]), its serializer
    (the [innerHTML] getter) and the text it gives for a built-in
    function. *)
Record Browser := {
  parseFragment : string -> list Dom.Node;
  parseBody : string -> list Dom.Node;
  serialize : list Dom.Node -> string;
  (* [String(Object.prototype[name])] for a name whose value is a function:
     the source text of a built-in function, which the engine chooses *)
  functionText : string -> string
}.

(** [String(v)], which is what the [innerHTML] setter makes of a value
    that is not a string. *)
Definition toText (browser : Browser) (v : JS.Value) : string :=
  match v with
  | JS.VString s => s
  | JS.VInherited name =>
      if name =? "__proto__" then "[object Object]" else functionText browser name
  end.

(** ** Data model *)

Record LanguageEntry := {
  LanguageTwoLetter : string;
  Translations : JS.Obj string
}.

Definition DataSource := list LanguageEntry.

Inductive SortDirection := asc | desc.

Record Pagination := {
  currentPage : Z;
  rowsPerPage : Z
}.

(** An entry of the structure that [extractHTMLAttributes] records.
    [parentTextContent] is present on the inline entries only. *)
Record Descriptor := {
  originalTag : string;
  attrs : JS.Obj string;
  textContent : string;
  parentTextContent : option string
}.

(** [{ blockElements, inlineElements }]; a block entry may be the [null]
    placeholder. *)
Record Structure := {
  blockElements : list (option Descriptor);
  inlineElements : list Descriptor
}.

(** [state.currentEditContext] *)
Record EditContext := {
  key : string;
  langIndex : nat;
  originalValue : string;
  originalAttributes : Structure;
  originalText : string;
  codeViewInitialHTML : option string
}.

(** The globals: [originalDataSource], [modifiedDataSource] and [state]. *)
Record State := {
  originalDataSource : DataSource;
  modifiedDataSource : DataSource;
  hasUnsavedChanges : bool;
  searchQuery : string;
  sortState : list (nat * SortDirection);
  collapsedColumns : list nat;
  isSearchActive : bool;
  pagination : Pagination;
  currentEditContext : option EditContext;
  isCodeViewActive : bool
}.

(** What [renderTableBody] paints: a row per key of the page, a cell per
    language column. *)
Record Cell := {
  cellKey : string;          (* dataset.key *)
  cellLangIndex : nat;       (* dataset.langIndex *)
  cellCollapsed : bool;      (* the class collapsed-cell *)
  cellValue : string         (* innerHTML *)
}.

Record Row := {
  rowKey : string;
  rowCells : list Cell
}.

(** What [renderTable] paints: the body, and the two numbers that
    [renderPagination] shows. *)
Record View := {
  viewRows : list Row;
  totalRows : nat;
  totalPages : JS.number
}.

(** ** Search *)

(** The characters of the class in [/[.*+?^${}()|[\]\\]/g]. *)
Definition escapedCharacters : list ascii :=
  ["."; "*"; "+"; "?"; "^"; "$"; "{"; "}"; "("; ")"; "|"; "["; "]"; "\"]%char.

(** [query.replace(/[.*+?^${}()|[\]\\]/g, '\\$&')] *)
Fixpoint escapeRegExp (query : string) : string :=
  match query with
  | EmptyString => EmptyString
  | String c rest =>
      if existsb (Ascii.eqb c) escapedCharacters
      then String "\" (String c (escapeRegExp rest))
      else String c (escapeRegExp rest)
  end.

(** The body of [Object.keys(lang.Translations).forEach(key => ...)] in
    [getSearchResults]. *)
Definition filterStep (regex : RegExp.t) (translations : JS.Obj string)
    (filteredTranslations : JS.Obj string) (key : string) : JS.Obj string :=
  match JS.get translations key with
  | Some value =>
      let keyMatch := RegExp.test regex key in
      let valueMatch := RegExp.test regex value in
      if keyMatch || valueMatch then JS.assign filteredTranslations key value
      else filteredTranslations
  | None => filteredTranslations
  end.

Definition filterTranslations (regex : RegExp.t) (translations : JS.Obj string)
  : JS.Obj string :=
  fold_left (filterStep regex translations) (JS.keys translations) [].

(** The [try] block of [getSearchResults] from [new RegExp(escapedQuery,
    'gi')] on, with its [catch]: a pattern that does not compile is a
    [SyntaxError], caught. *)
Definition searchWithPattern (escapedQuery : string) (data : DataSource) : DataSource :=
  match RegExp.compile escapedQuery with
  | Some regex =>
      map (fun lang =>
             {| LanguageTwoLetter := LanguageTwoLetter lang;
                Translations := filterTranslations regex (Translations lang) |})
          data
  | None => data      (* catch (e) *)
  end.

Definition getSearchResults (st : State) : DataSource :=
  if negb (JS.truthy (JS.trim (searchQuery st))) then modifiedDataSource st
  else searchWithPattern (escapeRegExp (searchQuery st)) (modifiedDataSource st).

(** [state.isSearchActive ? getSearchResults() : modifiedDataSource] *)
Definition dataToRender (st : State) : DataSource :=
  if isSearchActive st then getSearchResults st else modifiedDataSource st.

(** ** Key enumeration, sort, pagination and the table body *)

Definition getAllKeys (data : DataSource) : list string :=
  fold_left (fun keysSet lang => fold_left JS.setAdd (JS.keys (Translations lang)) keysSet)
            data [].

Section View.

Variable browser : Browser.

(** [temp.innerHTML = html; temp.textContent || temp.innerText || ''].
    The temporary [div] is not rendered, and then [innerText] is the
    [textContent]. *)
Definition getTextFromHTML (html : string) : string :=
  let temp := parseFragment browser html in
  let innerText := Dom.textOfChildren temp in
  JS.orElse (Some (Dom.textOfChildren temp)) (JS.orElse (Some innerText) "").

(** The text that the comparator of [applySortingToKeys] computes for a
    key. *)
Definition sortText (lang : LanguageEntry) (k : string) : string :=
  let value := JS.orEmpty (JS.read (Translations lang) k) in
  JS.toLowerCase (getTextFromHTML (toText browser value)).

(** The comparator passed to [sort]. *)
Definition compareKeys (lang : LanguageEntry) (sortDirection : SortDirection)
    (keyA keyB : string) : Z :=
  let textA := sortText lang keyA in
  let textB := sortText lang keyB in
  if JS.lt textA textB then (match sortDirection with asc => -1 | desc => 1 end)
  else if JS.lt textB textA then (match sortDirection with asc => 1 | desc => -1 end)
  else 0.

(** [None] is the [TypeError] of [modifiedDataSource[columnIndex].Translations]
    when the column does not exist; the comparator runs when there are
    two keys or more. *)
Definition applySortingToKeys (st : State) (keys : list string) : option (list string) :=
  match sortState st with
  | [] => Some keys
  | (columnIndex, sortDirection) :: _ =>
      match nth_error (modifiedDataSource st) columnIndex with
      | Some lang => Some (JS.sort (compareKeys lang sortDirection) keys)
      | None =>
          match keys with
          | _ :: _ :: _ => None
          | _ => Some keys
          end
      end
  end.

Definition renderCell (st : State) (k : string) (e : nat * LanguageEntry) : Cell :=
  let (langIndex, lang) := e in
  {| cellKey := k;
     cellLangIndex := langIndex;
     cellCollapsed := existsb (Nat.eqb langIndex) (collapsedColumns st);
     cellValue := toText browser (JS.orEmpty (JS.read (Translations lang) k)) |}.

Definition renderRow (st : State) (k : string) : Row :=
  {| rowKey := k;
     rowCells := map (renderCell st k) (JS.indexed (modifiedDataSource st)) |}.

(** The rows painted and the [totalRows] returned. *)
Definition renderTableBody (st : State) (data : DataSource) : option (list Row * nat) :=
  match data with
  | [] => Some ([], 0%nat)
  | _ =>
      let allKeys := getAllKeys data in
      let totalRows := List.length allKeys in
      match applySortingToKeys st allKeys with
      | None => None
      | Some allKeys' =>
          let startIndex := ((currentPage (pagination st) - 1) * rowsPerPage (pagination st))%Z in
          let endIndex := (startIndex + rowsPerPage (pagination st))%Z in
          let paginatedKeys := JS.slice allKeys' startIndex endIndex in
          Some (map (renderRow st) paginatedKeys, totalRows)
      end
  end.

Definition renderTable (st : State) : option View :=
  match renderTableBody st (dataToRender st) with
  | Some (body, totalRows) =>
      Some {| viewRows := body;
              totalRows := totalRows;
              totalPages := JS.ceilDiv totalRows (rowsPerPage (pagination st)) |}
  | None => None
  end.

End View.

(** ** The markup reconciler *)

(** Block-level tags that Quill turns into [p]. *)
Definition blockTags : list string :=
  ["p"; "div"; "section"; "article"; "header"; "footer"; "main";
   "aside"; "nav"; "figure"; "figcaption"; "address"; "details";
   "summary"; "blockquote"; "pre"; "h1"; "h2"; "h3"; "h4"; "h5"; "h6"].

(** Inline tags that Quill may strip or convert. *)
Definition inlineTags : list string :=
  ["span"; "a"; "abbr"; "cite"; "code"; "mark"; "time"].

Definition hasTag (tags : list string) (element : Dom.Node) : bool :=
  Dom.isElement element && existsb (String.eqb (Dom.tagNameLower element)) tags.

(** [id], [class] and the [data-*] attributes of an element. *)
Definition getPreservableAttrs (element : Dom.Node) : JS.Obj string :=
  let attributes := Dom.attributesOf element in
  let attrs0 : JS.Obj string := [] in
  let attrs1 :=
    match JS.get attributes "id" with
    | Some v => JS.set attrs0 "id" v
    | None => attrs0
    end in
  let attrs2 :=
    match JS.get attributes "class" with
    | Some v => JS.set attrs1 "class" v
    | None => attrs1
    end in
  fold_left (fun attrs attr =>
               if JS.startsWith "data-" (fst attr)
               then JS.set attrs (fst attr) (snd attr) else attrs)
            attributes attrs2.

Definition isEmptyObj {V} (o : JS.Obj V) : bool :=
  match o with [] => true | _ => false end.

(** What the loop over [doc.body.children] pushes for one child. *)
Definition extractBlock (element : Dom.Node) : list (option Descriptor) :=
  if hasTag blockTags element then
    let tagName := Dom.tagNameLower element in
    let attrs := getPreservableAttrs element in
    let hasAttrsToPreserve := negb (isEmptyObj attrs) in
    let isNonDefaultTag := negb (tagName =? "p") in
    if hasAttrsToPreserve || isNonDefaultTag then
      [Some {| originalTag := tagName;
               attrs := attrs;
               textContent := JS.trim (Dom.textContent element);
               parentTextContent := None |}]
    else [None]
  else [].

(** [element.parentElement.textContent] for the element at path [p]; the
    parent of a top-level element is the body. *)
Definition parentText (body : list Dom.Node) (p : Dom.Path) : string :=
  match removelast p with
  | [] => Dom.textOfChildren body
  | q =>
      match Dom.nodeAt q body with
      | Some parent => Dom.textContent parent
      | None => ""
      end
  end.

(** What the loop over [doc.body.querySelectorAll('*')] pushes for one
    element. *)
Definition extractInline (body : list Dom.Node) (e : Dom.Path * Dom.Node) : list Descriptor :=
  let element := snd e in
  if hasTag inlineTags element then
    let tagName := Dom.tagNameLower element in
    let attrs := getPreservableAttrs element in
    if negb (isEmptyObj attrs) || negb (tagName =? "span") then
      [{| originalTag := tagName;
          attrs := attrs;
          textContent := JS.trim (Dom.textContent element);
          parentTextContent := Some (JS.trim (parentText body (fst e))) |}]
    else []
  else [].

Definition emptyStructure : Structure :=
  {| blockElements := []; inlineElements := [] |}.

Definition extractHTMLAttributes (browser : Browser) (html : string) : Structure :=
  if negb (JS.truthy html) || (JS.trim html =? "") then emptyStructure
  else
    let body := parseBody browser html in
    {| blockElements := flat_map extractBlock (filter Dom.isElement body);
       inlineElements := flat_map (extractInline body) (Dom.elementsIn body) |}.

(** [Array.from(element.attributes).forEach(attr =>
    newElement.setAttribute(attr.name, attr.value))] on a new element. *)
Definition copyAttributes (attributes : list (string * string)) : list (string * string) :=
  fold_left (fun acc attr => Dom.setAttribute (fst attr) (snd attr) acc) attributes [].

(** [Object.keys(original.attrs).forEach(attrName =>
    target.setAttribute(attrName, original.attrs[attrName]))] *)
Definition applyAttrs (attrs : JS.Obj string) (attributes : list (string * string))
  : list (string * string) :=
  fold_left (fun acc attrName =>
               match JS.get attrs attrName with
               | Some v => Dom.setAttribute attrName v acc
               | None => acc
               end)
            (JS.keys attrs) attributes.

(** The element that stands where [element] stood once the entry
    [original] is restored on it: a new element of the original tag with
    the attributes and the children of [element] when the tags differ, and
    the recorded attributes set in both cases.  The block loop and the
    inline loop do this with the same statements.  The tags recorded by
    [extractHTMLAttributes] are lower-case names, which is how
    [createElement] names the element. *)
Definition restoreElement (original : Descriptor) (element : Dom.Node) : Dom.Node :=
  match element with
  | Dom.Element t a cs =>
      if negb (originalTag original =? JS.toLowerCase t)
      then Dom.Element (originalTag original) (applyAttrs (attrs original) (copyAttributes a)) cs
      else Dom.Element t (applyAttrs (attrs original) a) cs
  | _ => element
  end.

(** The block loop: the [i]-th element child of the body meets the
    [i]-th entry. *)
Fixpoint restoreBlocks (blockElements : list (option Descriptor)) (body : list Dom.Node)
  : list Dom.Node :=
  match body with
  | [] => []
  | n :: rest =>
      if Dom.isElement n then
        match blockElements with
        | [] => body
        | None :: blockElements' => n :: restoreBlocks blockElements' rest
        | Some original :: blockElements' =>
            restoreElement original n :: restoreBlocks blockElements' rest
        end
      else n :: restoreBlocks blockElements rest
  end.

(** The test of the inline loop on one candidate. *)
Definition inlineMatches (originalInline : Descriptor) (c : Dom.Path * Dom.Node) : bool :=
  JS.trim (Dom.textContent (snd c)) =? textContent originalInline.

(** One turn of [inlineElements.forEach]: the candidates are looked up
    afresh, and the loop over them stops at the first match. *)
Definition restoreInline (body : list Dom.Node) (originalInline : Descriptor) : list Dom.Node :=
  let candidates := Dom.querySelectorAll inlineTags body in
  match find (inlineMatches originalInline) candidates with
  | Some (p, candidate) =>
      Dom.updateAt p (fun _ => restoreElement originalInline candidate) body
  | None => body
  end.

Definition restoreInlines (inlineElements : list Descriptor) (body : list Dom.Node)
  : list Dom.Node :=
  fold_left restoreInline inlineElements body.

Definition isSome {A} (o : option A) : bool :=
  match o with Some _ => true | None => false end.

Definition reapplyHTMLAttributes (browser : Browser) (html : string)
    (originalStructure : option Structure) : string :=
  if negb (JS.truthy html) then html
  else
    match originalStructure with
    | None => html
    | Some s =>
        let hasBlockChanges := existsb isSome (blockElements s) in
        let hasInlineChanges := negb (Nat.eqb (List.length (inlineElements s)) 0) in
        if negb hasBlockChanges && negb hasInlineChanges then html
        else
          let body := parseBody browser html in
          let body1 := if hasBlockChanges then restoreBlocks (blockElements s) body else body in
          let body2 := if hasInlineChanges then restoreInlines (inlineElements s) body1 else body1 in
          serialize browser body2
    end.

Definition hasPreservableStructure (structure : option Structure) : bool :=
  match structure with
  | None => false
  | Some s =>
      existsb isSome (blockElements s)
      || negb (Nat.eqb (List.length (inlineElements s)) 0)
  end.

(** ** The edit session *)

(** An op of the Quill delta: what it inserts (text, or an embed such as
    an image) and its attributes, if any. *)
Inductive Insert :=
| InsertText (text : string)
| InsertEmbed (embed : JS.Obj string).

Record Op := {
  insert : Insert;
  attributes : option (JS.Obj string)
}.

(** The filter of [deltaHasFormatting]: not [id], [class] or [data-*]. *)
Definition isFormattingAttr (attr : string) : bool :=
  negb (existsb (String.eqb attr) ["id"; "class"]) && negb (JS.startsWith "data-" attr).

Definition opHasFormatting (op : Op) : bool :=
  (match attributes op with
   | Some a =>
       negb (Nat.eqb (List.length (JS.keys a)) 0)
       && negb (Nat.eqb (List.length (filter isFormattingAttr (JS.keys a))) 0)
   | None => false
   end)
  || (match insert op with
      | InsertText _ => false
      | InsertEmbed _ => true
      end).

(** [None] is a delta that is missing or has no [ops]. *)
Definition deltaHasFormatting (delta : option (list Op)) : bool :=
  match delta with
  | None => false
  | Some ops => existsb opHasFormatting ops
  end.

Definition isAsciiLetter (c : ascii) : bool :=
  let n := N_of_ascii c in
  (((97 <=? n) && (n <=? 122)) || ((65 <=? n) && (n <=? 90)))%N.

Fixpoint skipWhile (p : ascii -> bool) (s : string) : string :=
  match s with
  | EmptyString => EmptyString
  | String c s' => if p c then skipWhile p s' else s
  end.

Fixpoint containsChar (c : ascii) (s : string) : bool :=
  match s with
  | EmptyString => false
  | String d s' => (c =? d)%char || containsChar c s'
  end.

(** The rest of the tag pattern after the first letter of the name: more
    letters or digits; then, optionally, a white space followed by any
    characters other than the closing bracket; then an optional slash and
    the closing bracket. *)
Definition tagTail (s : string) : bool :=
  match skipWhile (fun c => isAsciiLetter c || JS.isDigit c) s with
  | EmptyString => false
  | String c r =>
      if (c =? ">")%char then true
      else if (c =? "/")%char then
        match r with
        | String d _ => (d =? ">")%char
        | EmptyString => false
        end
      else JS.isWhiteSpace c && containsChar ">" r
  end.

(** The test of the tag pattern of [htmlContainsTags] (an opening bracket,
    a letter, then the rest as above; the [i] flag) against [s]. *)
Fixpoint tagSomewhere (s : string) : bool :=
  match s with
  | EmptyString => false
  | String c s' =>
      ((c =? "<")%char &&
       match s' with
       | String l s'' => isAsciiLetter l && tagTail s''
       | EmptyString => false
       end)
      || tagSomewhere s'
  end.

Definition htmlContainsTags (str : string) : bool :=
  JS.truthy str && tagSomewhere str.

(** [currentText.replace(/\n$/, '')] *)
Fixpoint dropFinalNewline (s : string) : string :=
  match s with
  | EmptyString => EmptyString
  | String c s' =>
      match s' with
      | EmptyString => if (N_of_ascii c =? 10)%N then EmptyString else s
      | _ => String c (dropFinalNewline s')
      end
  end.

(** What the editing surface holds when a handler reads it: the Quill
    editor ([getContents().ops], [getText()], [getSemanticHTML()]) and the
    textarea of the code view. *)
Record Editor := {
  getContents : list Op;
  getText : string;
  getSemanticHTML : string;
  codeViewTextarea : string
}.

(** The result of a handler that may stop on an uncaught [TypeError]; the
    state is the one reached by then. *)
Inductive Outcome :=
| Done (st : State)
| Thrown (st : State).

Definition outcomeState (o : Outcome) : State :=
  match o with Done st => st | Thrown st => st end.

Definition setEditContext (c : option EditContext) (st : State) : State :=
  {| originalDataSource := originalDataSource st;
     modifiedDataSource := modifiedDataSource st;
     hasUnsavedChanges := hasUnsavedChanges st;
     searchQuery := searchQuery st;
     sortState := sortState st;
     collapsedColumns := collapsedColumns st;
     isSearchActive := isSearchActive st;
     pagination := pagination st;
     currentEditContext := c;
     isCodeViewActive := isCodeViewActive st |}.

Definition setCodeViewActive (b : bool) (st : State) : State :=
  {| originalDataSource := originalDataSource st;
     modifiedDataSource := modifiedDataSource st;
     hasUnsavedChanges := hasUnsavedChanges st;
     searchQuery := searchQuery st;
     sortState := sortState st;
     collapsedColumns := collapsedColumns st;
     isSearchActive := isSearchActive st;
     pagination := pagination st;
     currentEditContext := currentEditContext st;
     isCodeViewActive := b |}.

Definition setModified (d : DataSource) (unsaved : bool) (st : State) : State :=
  {| originalDataSource := originalDataSource st;
     modifiedDataSource := d;
     hasUnsavedChanges := unsaved;
     searchQuery := searchQuery st;
     sortState := sortState st;
     collapsedColumns := collapsedColumns st;
     isSearchActive := isSearchActive st;
     pagination := pagination st;
     currentEditContext := currentEditContext st;
     isCodeViewActive := isCodeViewActive st |}.

Definition setSearch (query : string) (active : bool) (st : State) : State :=
  {| originalDataSource := originalDataSource st;
     modifiedDataSource := modifiedDataSource st;
     hasUnsavedChanges := hasUnsavedChanges st;
     searchQuery := query;
     sortState := sortState st;
     collapsedColumns := collapsedColumns st;
     isSearchActive := active;
     pagination := pagination st;
     currentEditContext := currentEditContext st;
     isCodeViewActive := isCodeViewActive st |}.

Definition setSortState (s : list (nat * SortDirection)) (st : State) : State :=
  {| originalDataSource := originalDataSource st;
     modifiedDataSource := modifiedDataSource st;
     hasUnsavedChanges := hasUnsavedChanges st;
     searchQuery := searchQuery st;
     sortState := s;
     collapsedColumns := collapsedColumns st;
     isSearchActive := isSearchActive st;
     pagination := pagination st;
     currentEditContext := currentEditContext st;
     isCodeViewActive := isCodeViewActive st |}.

Definition setCollapsed (c : list nat) (st : State) : State :=
  {| originalDataSource := originalDataSource st;
     modifiedDataSource := modifiedDataSource st;
     hasUnsavedChanges := hasUnsavedChanges st;
     searchQuery := searchQuery st;
     sortState := sortState st;
     collapsedColumns := c;
     isSearchActive := isSearchActive st;
     pagination := pagination st;
     currentEditContext := currentEditContext st;
     isCodeViewActive := isCodeViewActive st |}.

Definition setPagination (p : Pagination) (st : State) : State :=
  {| originalDataSource := originalDataSource st;
     modifiedDataSource := modifiedDataSource st;
     hasUnsavedChanges := hasUnsavedChanges st;
     searchQuery := searchQuery st;
     sortState := sortState st;
     collapsedColumns := collapsedColumns st;
     isSearchActive := isSearchActive st;
     pagination := p;
     currentEditContext := currentEditContext st;
     isCodeViewActive := isCodeViewActive st |}.

Definition setCurrentPage (page : Z) (st : State) : State :=
  setPagination {| currentPage := page; rowsPerPage := rowsPerPage (pagination st) |} st.

(** [closeEditModal]: the context is dropped and the design view is
    restored (the modal is hidden and the editor emptied). *)
Definition closeEditModal (st : State) : State :=
  setCodeViewActive false (setEditContext None st).

(** [if (state.currentEditContext) { closeEditModal(); }] *)
Definition closeModalIfOpen (st : State) : State :=
  if isSome (currentEditContext st) then closeEditModal st else st.

Definition handleModalCancel (st : State) : State := closeEditModal st.

Definition setOriginalAttributes (s : Structure) (c : EditContext) : EditContext :=
  {| key := key c;
     langIndex := langIndex c;
     originalValue := originalValue c;
     originalAttributes := s;
     originalText := originalText c;
     codeViewInitialHTML := codeViewInitialHTML c |}.

Section Session.

Variable browser : Browser.

(** The text that Quill reports once the editor has been emptied and
    [value] loaded into it ([getText()] in [openEditModal]). *)
Variable loadedText : string -> string.

Definition openEditModal (k : string) (i : nat) (currentValue : string) (st : State)
  : State :=
  let originalValue := JS.orElse (Some currentValue) "" in
  let originalAttributes := extractHTMLAttributes browser originalValue in
  setEditContext
    (Some {| key := k;
             langIndex := i;
             originalValue := originalValue;
             originalAttributes := originalAttributes;
             originalText := loadedText currentValue;
             codeViewInitialHTML := None |})
    st.

Definition handleCellClick (k : string) (i : nat) (currentValue : string) (st : State)
  : State :=
  if isSome (currentEditContext st) then st
  else openEditModal k i currentValue st.

(** The value that [handleModalSave] persists, and the edit context as
    the code-view branch may have updated it. *)
Definition valueToSave (editor : Editor) (st : State) (c : EditContext)
  : string * EditContext :=
  if isCodeViewActive st then
    let codeViewHTML := codeViewTextarea editor in
    let codeViewBaseline := JS.orElse (codeViewInitialHTML c) (originalValue c) in
    if codeViewHTML =? codeViewBaseline then (originalValue c, c)
    else if negb (htmlContainsTags codeViewHTML) then (codeViewHTML, c)
    else (codeViewHTML,
          setOriginalAttributes (extractHTMLAttributes browser codeViewHTML) c)
  else
    let currentDelta := Some (getContents editor) in
    let currentText := getText editor in
    let hasFormatting := deltaHasFormatting currentDelta in
    if hasFormatting then
      let newValue := getSemanticHTML editor in
      if hasPreservableStructure (Some (originalAttributes c))
      then (reapplyHTMLAttributes browser newValue (Some (originalAttributes c)), c)
      else (newValue, c)
    else if currentText =? originalText c then (originalValue c, c)
    else (dropFinalNewline currentText, c).

(** [modifiedDataSource[langIndex].Translations[key] = newValue].  The
    key of an edit that reaches the save is one whose cell held a string:
    a property of the language itself, or a name that nothing defines; the
    assignment replaces or adds the property. *)
Definition writeValue (i : nat) (k newValue : string) (d : DataSource) : DataSource :=
  JS.updateNth i
    (fun lang => {| LanguageTwoLetter := LanguageTwoLetter lang;
                    Translations := JS.set (Translations lang) k newValue |})
    d.

Definition handleModalSave (editor : Editor) (st : State) : Outcome :=
  match currentEditContext st with
  | None => Done st
  | Some c =>
      let (newValue, c') := valueToSave editor st c in
      let st1 := setEditContext (Some c') st in
      match nth_error (modifiedDataSource st1) (langIndex c) with
      | None => Thrown st1
      | Some _ =>
          let st2 :=
            setModified (writeValue (langIndex c) (key c) newValue (modifiedDataSource st1))
                        true st1 in
          Done (closeEditModal st2)
      end
  end.

End Session.

(** ** The handlers that change the view *)

Definition performSearch (query : string) (st : State) : State :=
  let st1 := closeModalIfOpen st in
  let active := negb (JS.trim query =? "") in
  let st2 := setSearch query active st1 in
  let st3 := if active then setSortState [] st2 else st2 in
  setCurrentPage 1 st3.

Definition lookupSort (columnIndex : nat) (s : list (nat * SortDirection))
  : option SortDirection :=
  option_map snd (find (fun e => Nat.eqb (fst e) columnIndex) s).

(** The cycle: none, ascending, descending, none. *)
Definition cycleSortState (columnIndex : nat) (st : State) : State :=
  match lookupSort columnIndex (sortState st) with
  | None => setSortState [(columnIndex, asc)] st
  | Some asc => setSortState [(columnIndex, desc)] st
  | Some desc => setSortState [] st
  end.

Definition toggleColumnCollapse (columnIndex : nat) (st : State) : State :=
  if existsb (Nat.eqb columnIndex) (collapsedColumns st)
  then setCollapsed (filter (fun i => negb (Nat.eqb columnIndex i)) (collapsedColumns st)) st
  else setCollapsed (collapsedColumns st ++ [columnIndex])%list st.

(** [modifiedDataSource = JSON.parse(JSON.stringify(originalDataSource))]:
    a copy with the same content. *)
Definition handleDiscardChanges (st : State) : State :=
  let st1 := setModified (originalDataSource st) false st in
  closeModalIfOpen st1.

(** [Math.ceil(totalRows / rowsPerPage)] as [goToPage] computes it. *)
Definition pageCount (st : State) : JS.number :=
  let totalRows := List.length (getAllKeys (dataToRender st)) in
  JS.ceilDiv totalRows (rowsPerPage (pagination st)).

Definition goToPage (page : Z) (st : State) : State :=
  let totalPages := pageCount st in
  if (page <? 1)%Z || JS.gt page totalPages then st
  else
    let st1 := closeModalIfOpen st in
    setCurrentPage page st1.

Definition handleRowsPerPageChange (newRowsPerPage : Z) (st : State) : State :=
  let st1 := closeModalIfOpen st in
  setPagination {| currentPage := 1; rowsPerPage := newRowsPerPage |} st1.

(** ** The page as a transition system *)

(** [initializeData] on a data source that is not empty, before any event. *)
Definition initialState (data : DataSource) : State :=
  {| originalDataSource := data;
     modifiedDataSource := data;
     hasUnsavedChanges := false;
     searchQuery := "";
     sortState := [];
     collapsedColumns := [];
     isSearchActive := false;
     pagination := {| currentPage := 1; rowsPerPage := 25 |};
     currentEditContext := None;
     isCodeViewActive := false |}.

(** What the user can do.  The clicks carry what the element clicked was
    rendered with: a header has the index of a column, a cell its key and
    the index of its column. *)
Inductive Event :=
| SearchFires (query : string)
| SortClick (columnIndex : nat)
| CollapseClick (columnIndex : nat)
| PageClick (page : Z)
| RowsPerPageSelect (newRowsPerPage : Z)
| CellClick (k : string) (i : nat)
| SaveClick (editor : Editor)
| CancelClick
| DiscardClick.

Section Page.

Variable browser : Browser.
Variable loadedText : string -> string.

(** The handler of an event.  A header or a cell exists for the columns
    of the working matrix only, and a cell was rendered with the value it
    shows.  A cell whose key its language only inherits from
    [Object.prototype] holds an object, not a string: [openEditModal]
    records the edit context and then stops on the [TypeError] of
    [currentValue.trim()], before the modal is shown.  That context blocks
    the other cells until a search, a page change, a discard or the Escape
    key clears it, and nothing reads its value or its text meanwhile (the
    save button and the toolbar are in the modal); the model records it as
    the context of an empty cell. *)
Definition handle (ev : Event) (st : State) : State :=
  match ev with
  | SearchFires query => performSearch query st
  | SortClick columnIndex =>
      if (columnIndex <? List.length (modifiedDataSource st))%nat
      then cycleSortState columnIndex st else st
  | CollapseClick columnIndex =>
      if (columnIndex <? List.length (modifiedDataSource st))%nat
      then toggleColumnCollapse columnIndex st else st
  | PageClick page => goToPage page st
  | RowsPerPageSelect newRowsPerPage => handleRowsPerPageChange newRowsPerPage st
  | CellClick k i =>
      match nth_error (modifiedDataSource st) i with
      | Some lang =>
          handleCellClick browser loadedText k i (JS.orElse (JS.get (Translations lang) k) "") st
      | None => st
      end
  | SaveClick editor => outcomeState (handleModalSave browser editor st)
  | CancelClick => handleModalCancel st
  | DiscardClick => handleDiscardChanges st
  end.

(** The states that the page goes through. *)
Inductive reachable : State -> Prop :=
| reachable_initial data : reachable (initialState data)
| reachable_step ev st : reachable st -> reachable (handle ev st).

End Page.

(** The sort directive, if there is one, is on a column of the working
    matrix (as it is when it was set by a click on a column header). *)
Definition sortColumnExists (st : State) : Prop :=
  match sortState st with
  | [] => True
  | (columnIndex, _) :: _ => (columnIndex < List.length (modifiedDataSource st))%nat
  end.

(** What holds of every state of the page: the two matrices have the same
    number of language entries, the sort directive is on a column that
    exists, and so is the edit that is open. *)
Definition consistent (st : State) : Prop :=
  List.length (modifiedDataSource st) = List.length (originalDataSource st) /\
  sortColumnExists st /\
  (forall c, currentEditContext st = Some c ->
             (langIndex c < List.length (modifiedDataSource st))%nat).

(** ** The vocabulary of the properties *)

(** Two characters that the [i] flag identifies. *)
Definition sameLetter (a b : ascii) : Prop :=
  RegExp.canonicalize a = RegExp.canonicalize b.

(** The term occurs in [s] as written, letter case aside. *)
Definition occursIn (term s : string) : Prop :=
  exists pre mid post,
    s = pre ++ mid ++ post /\
    Forall2 sameLetter (list_ascii_of_string term) (list_ascii_of_string mid).

(** What the search keeps of one language entry: its code, and the pairs
    in whose key or value the term occurs, a pair whose key is [__proto__]
    apart. *)
Definition filteredBy (term : string) (lang result : LanguageEntry) : Prop :=
  LanguageTwoLetter result = LanguageTwoLetter lang /\
  forall k v,
    JS.get (Translations result) k = Some v <->
    (JS.get (Translations lang) k = Some v /\ k <> "__proto__" /\
     (occursIn term k \/ occursIn term v)).

(** [a] does not come after [b]. *)
Definition strLe (a b : string) : Prop := JS.lt b a = false.

(** The rendered text of a markup string: the text of the tree that the
    browser parses it to, the tags left out. *)
Definition renderedText (browser : Browser) (html : string) : string :=
  Dom.textOfChildren (parseFragment browser html).

(** The order that a sort directive asks for, on the texts compared. *)
Definition inOrder (sortDirection : SortDirection) (textA textB : string) : Prop :=
  match sortDirection with
  | asc => strLe textA textB
  | desc => strLe textB textA
  end.

(** The value that the working matrix has in the cell of an edit context;
    the outer [None] is a column that does not exist, the inner one a key
    that the language does not have. *)
Definition cellOf (c : EditContext) (d : DataSource) : option (option string) :=
  option_map (fun lang => JS.get (Translations lang) (key c)) (nth_error d (langIndex c)).

(** The page request is let through by [goToPage]. *)
Definition pageProceeds (page : Z) (st : State) : Prop :=
  (1 <= page)%Z /\ JS.gt page (pageCount st) = false.

(** An op that [deltaHasFormatting] lets pass: it inserts text, and its
    attributes, if any, are among [id], [class] and [data-*]. *)
Definition plainOp (op : Op) : Prop :=
  (exists text, insert op = InsertText text) /\
  forall a name,
    attributes op = Some a -> In name (JS.keys a) ->
    name = "id" \/ name = "class" \/ JS.startsWith "data-" name = true.

(** A save is an identity save when it persists the original value:
    nothing edited in the code view, or no formatting and the same text in
    the design view. *)
Definition identitySave (editor : Editor) (st : State) (c : EditContext) : Prop :=
  (isCodeViewActive st = true /\
   codeViewTextarea editor = JS.orElse (codeViewInitialHTML c) (originalValue c))
  \/
  (isCodeViewActive st = false /\
   Forall plainOp (getContents editor) /\ getText editor = originalText c).



(** A structure with nothing to restore: every block entry is the
    placeholder and there is no inline entry. *)
Definition trivialStructure (s : Structure) : Prop :=
  Forall (fun b => b = None) (blockElements s) /\ inlineElements s = [].

(** An element that [extractHTMLAttributes] has nothing to record for: no
    [id], [class] or [data-*] attribute, and the default tag ([p], [span])
    if its tag is one of the block tags or of the inline tags. *)
Definition plainElement (e : Dom.Node) : Prop :=
  getPreservableAttrs e = [] /\
  (hasTag blockTags e = true -> Dom.tagNameLower e = "p") /\
  (hasTag inlineTags e = true -> Dom.tagNameLower e = "span").

(** ** Sample data for the examples *)

Module Sample.

Definition LF : string := JS.lineFeed.
Definition quote : string := String (ascii_of_N 34) "".

Definition divHi : string := "<div id=" ++ quote ++ "x" ++ quote ++ ">hi</div>".

(** The trees of the few markup strings that the examples use, as an
    HTML parser builds them; a string without markup is one text node. *)
Definition parse (html : string) : list Dom.Node :=
  if html =? "" then []
  else if html =? "<b>Banana</b>" then [Dom.Element "b" [] [Dom.Text "Banana"]]
  else if html =? "<p>hi</p>" then [Dom.Element "p" [] [Dom.Text "hi"]]
  else if html =? divHi then [Dom.Element "div" [("id", "x")] [Dom.Text "hi"]]
  else if html =? "<p>hello</p>" then [Dom.Element "p" [] [Dom.Text "hello"]]
  else if html =? "<p><span>x</span> and <span>x</span></p>" then
    [Dom.Element "p" []
       [Dom.Element "span" [] [Dom.Text "x"]; Dom.Text " and ";
        Dom.Element "span" [] [Dom.Text "x"]]]
  else [Dom.Text html].

Definition attribute (a : string * string) : string :=
  " " ++ fst a ++ "=" ++ quote ++ snd a ++ quote.

(** The serialization of a tree (no character of the examples needs an
    escape). *)
Fixpoint outerHTML (n : Dom.Node) : string :=
  match n with
  | Dom.Element t a cs =>
      "<" ++ t ++ String.concat "" (map attribute a) ++ ">"
      ++ String.concat "" (map outerHTML cs) ++ "</" ++ t ++ ">"
  | Dom.Text d => d
  | Dom.Comment d => "<!--" ++ d ++ "-->"
  end.

(** The text of a built-in function, as most engines print it. *)
Definition nativeText (name : string) : string :=
  "function " ++ (if name =? "constructor" then "Object" else name) ++ "() { [native code] }".

Definition browser : Browser :=
  {| parseFragment := parse;
     parseBody := parse;
     serialize := fun cs => String.concat "" (map outerHTML cs);
     functionText := nativeText |}.

(** Quill reports the text of the value followed by a line feed. *)
Definition loadedText (value : string) : string :=
  Dom.textOfChildren (parse value) ++ LF.

Definition en : LanguageEntry :=
  {| LanguageTwoLetter := "en";
     Translations := [("greet", "hi"); ("k1", "<b>Banana</b>"); ("k2", "apple")] |}.

Definition hr : LanguageEntry :=
  {| LanguageTwoLetter := "hr";
     Translations := [("greet", "bok")] |}.

(** The state after loading [[en; hr]]. *)
Definition loaded : State :=
  {| originalDataSource := [en; hr];
     modifiedDataSource := [en; hr];
     hasUnsavedChanges := false;
     searchQuery := "";
     sortState := [];
     collapsedColumns := [];
     isSearchActive := false;
     pagination := {| currentPage := 1; rowsPerPage := 25 |};
     currentEditContext := None;
     isCodeViewActive := false |}.

(** The user searches for [hi], then sorts the first column. *)
Definition searching : State := performSearch "hi" loaded.
Definition sorted : State := cycleSortState 0 loaded.

(** The user opens the cell [greet] of [en]. *)
Definition editing : State := handleCellClick browser loadedText "greet" 0 "hi" loaded.

(** The editor as it is right after the cell was opened. *)
Definition untouched : Editor :=
  {| getContents := [{| insert := InsertText (loadedText "hi"); attributes := None |}];
     getText := loadedText "hi";
     getSemanticHTML := "<p>hi</p>";
     codeViewTextarea := "" |}.

(** The editor after the user has typed [hello] over [hi]. *)
Definition retyped : Editor :=
  {| getContents := [{| insert := InsertText ("hello" ++ LF); attributes := None |}];
     getText := "hello" ++ LF;
     getSemanticHTML := "<p>hello</p>";
     codeViewTextarea := "" |}.

(** The user saves [hello] in that cell, then opens the cell again. *)
Definition saved : State := outcomeState (handleModalSave browser retyped editing).
Definition reopened : State := handleCellClick browser loadedText "greet" 0 "hello" saved.

(** A paragraph with the same text in two spans, and an entry recorded
    for a link with that text. *)
Definition twoSpans : string := "<p><span>x</span> and <span>x</span></p>".

Definition link : Descriptor :=
  {| originalTag := "a";
     attrs := [("id", "k")];
     textContent := "x";
     parentTextContent := Some "x and x" |}.

End Sample.

(** ** The pagination controls *)

(** An item of the page list: a page button or the ellipsis. *)
Inductive PageItem :=
| PageNumber (n : Z)
| Ellipsis.

(** The values that [i] takes in [for (let i = first; i <= last; i++)]. *)
Definition countUp (first last : Z) : list Z :=
  map (fun k => (first + Z.of_nat k)%Z) (seq 0 (Z.to_nat (last - first + 1))).

(** [getPageNumbers(currentPage, totalPages)] on integers (the page count
    is an integer when the page size is not zero). *)
Definition getPageNumbers (currentPage totalPages : Z) : list PageItem :=
  let windowSize := 2%Z in
  if (totalPages <=? 7)%Z then map PageNumber (countUp 1 totalPages)
  else
    let windowStart := Z.max 2 (currentPage - windowSize) in
    let windowEnd := Z.min (totalPages - 1) (currentPage + windowSize) in
    let windowEnd :=
      if (currentPage <=? windowSize + 2)%Z
      then Z.min (totalPages - 1) (windowSize * 2 + 3) else windowEnd in
    let windowStart :=
      if (totalPages - windowSize - 1 <=? currentPage)%Z
      then Z.max 2 (totalPages - windowSize * 2 - 2) else windowStart in
    ([PageNumber 1]
     ++ (if (2 <? windowStart)%Z then [Ellipsis] else [])
     ++ map PageNumber (countUp windowStart windowEnd)
     ++ (if (windowEnd <? totalPages - 1)%Z then [Ellipsis] else [])
     ++ [PageNumber totalPages])%list.

(** What [renderPaginationInfo] writes. *)
Inductive PaginationInfo :=
| NoEntries                                  (* No entries to display *)
| Showing (startRow endRow totalRows : Z).   (* Showing s-e of t entries *)

Definition renderPaginationInfo (st : State) (totalRows : nat) : PaginationInfo :=
  if Nat.eqb totalRows 0 then NoEntries
  else
    let startRow := ((currentPage (pagination st) - 1) * rowsPerPage (pagination st) + 1)%Z in
    let endRow :=
      Z.min (currentPage (pagination st) * rowsPerPage (pagination st)) (Z.of_nat totalRows) in
    Showing startRow endRow (Z.of_nat totalRows).

(** [p >= n] and [n <= 1] for a page count [n]; a comparison with [NaN]
    is false. *)
Definition geNumber (p : Z) (n : JS.number) : bool :=
  match n with JS.Num z => (z <=? p)%Z | JS.Infinity => false | JS.NaN => false end.

Definition leOne (n : JS.number) : bool :=
  match n with JS.Num z => (z <=? 1)%Z | JS.Infinity => false | JS.NaN => false end.

(** [updatePaginationButtons]: the [disabled] flags of the previous and
    next buttons. *)
Definition prevDisabled (st : State) : bool := (currentPage (pagination st) <=? 1)%Z.

Definition nextDisabled (st : State) (totalPages : JS.number) : bool :=
  geNumber (currentPage (pagination st)) totalPages || leOne totalPages.

(** The listeners of the two buttons. *)
Definition clickPrevious (st : State) : State := goToPage (currentPage (pagination st) - 1) st.
Definition clickNext (st : State) : State := goToPage (currentPage (pagination st) + 1) st.

(** The page list is well formed after the page [a]: a page button shows
    the next number, and an ellipsis stands for at least one page left
    out and is followed by a page button. *)
Inductive follows : Z -> list PageItem -> Prop :=
| follows_end a : follows a []
| follows_next a r : follows (a + 1) r -> follows a (PageNumber (a + 1) :: r)
| follows_gap a b r : (a + 1 < b)%Z -> follows b r -> follows a (Ellipsis :: PageNumber b :: r).

(** The keys of the rows that [renderTable] paints when the current page
    is [page] (none when no view is produced). *)
Definition pageRowKeys (browser : Browser) (st : State) (page : Z) : list string :=
  match renderTable browser (setCurrentPage page st) with
  | Some v => map rowKey (viewRows v)
  | None => []
  end.

(** What the handlers keep of the view state and of the two matrices. *)
Definition settled (st : State) : Prop :=
  map LanguageTwoLetter (modifiedDataSource st)
  = map LanguageTwoLetter (originalDataSource st) /\
  (hasUnsavedChanges st = false -> modifiedDataSource st = originalDataSource st) /\
  (List.length (sortState st) <= 1)%nat /\
  isSearchActive st = negb (JS.trim (searchQuery st) =? "") /\
  (1 <= currentPage (pagination st))%Z.

(** ** The page buttons *)

(** What [renderPaginationControls] puts in the container for an item of
    the page list: a button, with the [active] class on the current page,
    or the ellipsis. *)
Inductive PageControl :=
| PageButton (page : Z) (active : bool)
| EllipsisSpan.

Definition pageControl (currentPage : Z) (item : PageItem) : PageControl :=
  match item with
  | PageNumber n => PageButton n (n =? currentPage)%Z
  | Ellipsis => EllipsisSpan
  end.

(** [renderPaginationControls(totalPages)], on an integer page count as
    [getPageNumbers].  The listener of the button of [page] is
    [goToPage(page)]. *)
Definition renderPaginationControls (st : State) (totalPages : Z) : list PageControl :=
  if (totalPages <=? 1)%Z then []
  else map (pageControl (currentPage (pagination st)))
           (getPageNumbers (currentPage (pagination st)) totalPages).

Definition isActive (c : PageControl) : bool :=
  match c with
  | PageButton _ active => active
  | EllipsisSpan => false
  end.

(** ** The clear button and the code view *)

(** The clear button empties the search input and searches for the empty
    string. *)
Definition handleClearSearch (st : State) : State := performSearch "" st.

Definition setCodeViewInitialHTML (h : option string) (c : EditContext) : EditContext :=
  {| key := key c;
     langIndex := langIndex c;
     originalValue := originalValue c;
     originalAttributes := originalAttributes c;
     originalText := originalText c;
     codeViewInitialHTML := h |}.

Section CodeView.

Variable browser : Browser.

(** [decodeHTMLEntities]: what a [textarea] holds as its [value] once [html]
    has been assigned to its [innerHTML]. *)
Variable decodeHTMLEntities : string -> string.

(** The toolbar button of the code view.  The result is the state and the
    value that the textarea of the code view holds afterwards.  On the way
    back to the design view the content of the textarea is loaded into
    Quill, whose readings are those of the [Editor] handed to the next
    handler. *)
Definition toggleCodeView (editor : Editor) (st : State) : State * string :=
  if negb (isCodeViewActive st) then
    let htmlContent := getSemanticHTML editor in
    let htmlContent :=
      match currentEditContext st with
      | Some c =>
          if hasPreservableStructure (Some (originalAttributes c))
          then reapplyHTMLAttributes browser htmlContent (Some (originalAttributes c))
          else htmlContent
      | None => htmlContent
      end in
    let decodedHTML := decodeHTMLEntities htmlContent in
    let st1 :=
      match currentEditContext st with
      | Some c => setEditContext (Some (setCodeViewInitialHTML (Some decodedHTML) c)) st
      | None => st
      end in
    (setCodeViewActive true st1, decodedHTML)
  else
    let editedHTML := codeViewTextarea editor in
    let st1 :=
      match currentEditContext st with
      | Some c =>
          if htmlContainsTags editedHTML
          then setEditContext
                 (Some (setOriginalAttributes (extractHTMLAttributes browser editedHTML) c)) st
          else st
      | None => st
      end in
    (setCodeViewActive false st1, editedHTML).

End CodeView.

(** ** The page with the code view *)

Section Visits.

Variable browser : Browser.
Variable loadedText : string -> string.
Variable decodeHTMLEntities : string -> string.

(** The states that the page goes through when the button of the code
    view is clicked too, whatever the editor holds at the click. *)
Inductive visited : State -> Prop :=
| visited_initial data : visited (initialState data)
| visited_event ev st : visited st -> visited (handle browser loadedText ev st)
| visited_codeView editor st :
    visited st -> visited (fst (toggleCodeView browser decodeHTMLEntities editor st)).

End Visits.

(** ** What the reconciler leaves of a tree *)

(** A tree without the names and the attributes of its elements: the
    nesting, the order, the text and the comments. *)
Fixpoint skeleton (n : Dom.Node) : Dom.Node :=
  match n with
  | Dom.Element _ _ cs => Dom.Element "" [] (map skeleton cs)
  | _ => n
  end.

(** The entry that the block loop of [reapplyHTMLAttributes] applies to
    the [i]-th element child of the body, if any. *)
Definition blockEntry (blockElements : list (option Descriptor)) (i : nat)
  : option Descriptor :=
  match nth_error blockElements i with
  | Some (Some original) => Some original
  | _ => None
  end.


(** ** Sample edit sessions *)

Module Edits.

(** The samples have no character reference to decode. *)
Definition decode (html : string) : string := html.

(** The context of the edit of the cell [greet] of [en]. *)
Definition context : EditContext :=
  {| key := "greet";
     langIndex := 0;
     originalValue := "hi";
     originalAttributes := extractHTMLAttributes Sample.browser "hi";
     originalText := Sample.loadedText "hi";
     codeViewInitialHTML := None |}.

(** The editor after the user has made [hi] bold. *)
Definition bold : Editor :=
  {| getContents := [{| insert := InsertText "hi"; attributes := Some [("bold", "true")] |};
                     {| insert := InsertText Sample.LF; attributes := None |}];
     getText := Sample.loadedText "hi";
     getSemanticHTML := "<p><strong>hi</strong></p>";
     codeViewTextarea := "" |}.

(** The user opens the code view on that cell; the textarea shows the
    paragraph that Quill made of [hi]. *)
Definition codeView : State :=
  fst (toggleCodeView Sample.browser decode Sample.untouched Sample.editing).

Definition contextInCodeView : EditContext :=
  setCodeViewInitialHTML (Some "<p>hi</p>") context.

(** The textarea as the code view opened it, and after the user has
    rewritten it. *)
Definition unchanged : Editor :=
  {| getContents := getContents Sample.untouched;
     getText := getText Sample.untouched;
     getSemanticHTML := getSemanticHTML Sample.untouched;
     codeViewTextarea := "<p>hi</p>" |}.

Definition rewritten : Editor :=
  {| getContents := getContents Sample.untouched;
     getText := getText Sample.untouched;
     getSemanticHTML := getSemanticHTML Sample.untouched;
     codeViewTextarea := "<i>hi</i>" |}.


(** An element with an [id], a [title] and a [data-*] attribute. *)
Definition tagged : Dom.Node :=
  Dom.Element "DIV" [("id", "x"); ("title", "t"); ("data-k", "v")] [].

End Edits.

(** ** The inline loop, entry by entry *)


(** ** Sample data with the names of [Object.prototype] *)

Module Inherited.

(** [en] has keys named [toString] and [b]; [hr] has [b] only. *)
Definition en : LanguageEntry :=
  {| LanguageTwoLetter := "en";
     Translations := [("toString", "text"); ("b", "beta")] |}.

Definition hr : LanguageEntry :=
  {| LanguageTwoLetter := "hr";
     Translations := [("b", "a")] |}.

Definition loaded : State := initialState [en; hr].

(** The user sorts the column of [hr], ascending. *)
Definition sorted : State := cycleSortState 1 loaded.

(** A language entry with a key named [__proto__] of its own, as
    [JSON.parse] makes it, and a search for [hi]. *)
Definition proto : LanguageEntry :=
  {| LanguageTwoLetter := "en";
     Translations := [("__proto__", "hi"); ("greet", "hi")] |}.

Definition searching : State := performSearch "hi" (initialState [proto]).

End Inherited.

(** * Properties *)

(** ** Dictionaries *)

Lemma get_replace {V} (o o' : JS.Obj V) k v k' :
  JS.replace o k v = Some o' ->
  JS.get o' k' = if k' =? k then Some v else JS.get o k'.
Proof.
  revert o'. induction o as [|[k0 v0] o IH]; intros o' H; simpl in H; [discriminate|].
  destruct (String.eqb_spec k k0) as [->|Hne].
  - injection H as <-. simpl. destruct (k' =? k0); reflexivity.
  - destruct (JS.replace o k v) as [o1|] eqn:E; [|discriminate].
    injection H as <-. simpl. rewrite (IH o1 eq_refl).
    destruct (String.eqb_spec k' k0) as [->|]; [|reflexivity].
    destruct (String.eqb_spec k0 k); congruence.
Qed.

Lemma replace_None {V} (o : JS.Obj V) k v :
  JS.replace o k v = None -> JS.get o k = None.
Proof.
  induction o as [|[k0 v0] o IH]; simpl; [reflexivity|].
  destruct (k =? k0); [discriminate|].
  destruct (JS.replace o k v); [discriminate|auto].
Qed.

Lemma get_insertIndex {V} n (o : JS.Obj V) k v k' :
  JS.get o k = None ->
  JS.get (JS.insertIndex n k v o) k' = if k' =? k then Some v else JS.get o k'.
Proof.
  induction o as [|[k0 v0] o IH]; intros H; simpl in *.
  - destruct (k' =? k); reflexivity.
  - destruct (String.eqb_spec k k0) as [->|Hne]; [discriminate|].
    assert (Hins : JS.get ((k, v) :: (k0, v0) :: o) k'
                   = if k' =? k then Some v else JS.get ((k0, v0) :: o) k') by reflexivity.
    destruct (JS.arrayIndex k0) as [m|]; [destruct (m <? n)%N|]; try exact Hins.
    simpl. rewrite (IH H).
    destruct (String.eqb_spec k' k0) as [->|]; [|reflexivity].
    destruct (String.eqb_spec k0 k); congruence.
Qed.

Lemma get_app_single {V} (o : JS.Obj V) k v k' :
  JS.get o k = None ->
  JS.get (o ++ [(k, v)])%list k' = if k' =? k then Some v else JS.get o k'.
Proof.
  induction o as [|[k0 v0] o IH]; intros H; simpl in *.
  - destruct (k' =? k); reflexivity.
  - destruct (String.eqb_spec k k0) as [->|Hne]; [discriminate|].
    rewrite (IH H).
    destruct (String.eqb_spec k' k0) as [->|]; [|reflexivity].
    destruct (String.eqb_spec k0 k); congruence.
Qed.

(** Reading a dictionary after a write. *)
Lemma get_set {V} (o : JS.Obj V) k v k' :
  JS.get (JS.set o k v) k' = if k' =? k then Some v else JS.get o k'.
Proof.
  unfold JS.set. destruct (JS.replace o k v) as [o'|] eqn:E.
  - eapply get_replace; eassumption.
  - apply replace_None in E.
    destruct (JS.arrayIndex k); [apply get_insertIndex | apply get_app_single]; assumption.
Qed.

Lemma get_In_keys {V} (o : JS.Obj V) k v :
  JS.get o k = Some v -> In k (JS.keys o).
Proof.
  induction o as [|[k0 v0] o IH]; simpl; [discriminate|].
  destruct (String.eqb_spec k k0) as [->|]; auto.
Qed.

(** A write of the value already stored leaves the dictionary as it is. *)
Lemma set_same {V} (o : JS.Obj V) k v :
  JS.get o k = Some v -> JS.set o k v = o.
Proof.
  intros H. unfold JS.set.
  assert (E : JS.replace o k v = Some o); [|now rewrite E].
  induction o as [|[k0 v0] o IH]; simpl in *; [discriminate|].
  revert H. destruct (String.eqb_spec k k0) as [->|Hne]; intros H.
  - injection H as ->. reflexivity.
  - now rewrite (IH H).
Qed.

Lemma orElse_empty (v : option string) :
  JS.orElse v "" = match v with Some s => s | None => "" end.
Proof.
  destruct v as [s|]; [|reflexivity]. unfold JS.orElse, JS.truthy.
  destruct (String.eqb_spec s ""); simpl; congruence.
Qed.

(** ** Search *)

Lemma escaped_are_syntax (c : ascii) :
  existsb (Ascii.eqb c) escapedCharacters = RegExp.isSyntaxCharacter c.
Proof.
  destruct c as [[] [] [] [] [] [] [] []]; reflexivity.
Qed.

Lemma backslash_or_not (c : ascii) :
  (c =? "\")%char = true -> RegExp.isSyntaxCharacter c = true.
Proof.
  intros H. apply Ascii.eqb_eq in H. subst. reflexivity.
Qed.

(** The pattern built from a search term always compiles, to the
    characters of the term. *)
Lemma escaped_compiles (q : string) :
  RegExp.compile (escapeRegExp q) = Some (list_ascii_of_string q).
Proof.
  induction q as [|c q IH]; [reflexivity|].
  cbn [escapeRegExp]. rewrite escaped_are_syntax.
  destruct (RegExp.isSyntaxCharacter c) eqn:Hs.
  - cbn [RegExp.compile]. rewrite Ascii.eqb_refl, Hs, IH. reflexivity.
  - cbn [RegExp.compile]. destruct (c =? "\")%char eqn:Hb.
    + apply backslash_or_not in Hb. congruence.
    + rewrite Hs, IH. reflexivity.
Qed.

Lemma matchesAt_spec (re : RegExp.t) (s : string) :
  RegExp.matchesAt re s = true <->
  exists mid post, s = mid ++ post /\ Forall2 sameLetter re (list_ascii_of_string mid).
Proof.
  revert s. induction re as [|r re IH]; intros s.
  - split; [intros _; exists "", s; split; [reflexivity|constructor] | reflexivity].
  - destruct s as [|c s]; simpl.
    + split; [discriminate|]. intros (mid & post & E & F).
      destruct mid; simpl in *; [inversion F|discriminate].
    + rewrite andb_true_iff, N.eqb_eq, IH. split.
      * intros (Hc & mid & post & -> & F). exists (String c mid), post.
        split; [reflexivity|]. simpl. constructor; assumption.
      * intros (mid & post & E & F). destruct mid as [|c' mid]; simpl in *; [inversion F|].
        injection E as <- ->. inversion F; subst. split; [assumption|eauto].
Qed.

Lemma test_spec (re : RegExp.t) (s : string) :
  RegExp.test re s = true <->
  exists pre mid post,
    s = pre ++ mid ++ post /\ Forall2 sameLetter re (list_ascii_of_string mid).
Proof.
  induction s as [|c s IH]; simpl; rewrite orb_true_iff, matchesAt_spec.
  - split.
    + intros [(mid & post & E & F)|H]; [|discriminate]. exists "", mid, post. auto.
    + intros (pre & mid & post & E & F). left.
      destruct pre; simpl in E; [|discriminate]. eauto.
  - rewrite IH. split.
    + intros [(mid & post & E & F)|(pre & mid & post & E & F)].
      * exists "", mid, post. auto.
      * exists (String c pre), mid, post. subst. auto.
    + intros (pre & mid & post & E & F). destruct pre as [|c' pre]; simpl in E.
      * left. eauto.
      * injection E as <- ->. right. eauto.
Qed.

(** A read after an assignment: the assignment is seen, unless it was to
    [__proto__] on an object that has no such property of its own. *)
Lemma get_assign (o : JS.Obj string) (k v k' : string) :
  JS.get (JS.assign o k v) k'
  = if k' =? k
    then (if k =? "__proto__"
          then match JS.get o k with Some _ => Some v | None => None end
          else Some v)
    else JS.get o k'.
Proof.
  unfold JS.assign. destruct (JS.get o k) as [v0|] eqn:E.
  - rewrite get_set. destruct (k' =? k); [|reflexivity]. now destruct (k =? "__proto__").
  - destruct (String.eqb_spec k "__proto__") as [->|Hk].
    + destruct (String.eqb_spec k' "__proto__") as [->|_]; [exact E|reflexivity].
    + apply get_set.
Qed.

Lemma filter_fold (regex : RegExp.t) (translations : JS.Obj string) ks :
  forall acc,
    (forall k v, JS.get acc k = Some v ->
                 JS.get translations k = Some v /\ k <> "__proto__") ->
    forall k v,
      JS.get (fold_left (filterStep regex translations) ks acc) k = Some v <->
      (JS.get acc k = Some v \/
       (In k ks /\ k <> "__proto__" /\ JS.get translations k = Some v /\
        RegExp.test regex k || RegExp.test regex v = true)).
Proof.
  induction ks as [|k0 ks IH]; intros acc Hacc k v; simpl.
  - tauto.
  - assert (Hstep : forall k v, JS.get (filterStep regex translations acc k0) k = Some v <->
                      (JS.get acc k = Some v \/
                       (k0 = k /\ k <> "__proto__" /\ JS.get translations k = Some v /\
                        RegExp.test regex k || RegExp.test regex v = true))).
    { clear k v. intros k v. unfold filterStep.
      destruct (JS.get translations k0) as [v0|] eqn:E0.
      - destruct (RegExp.test regex k0 || RegExp.test regex v0) eqn:Em.
        + rewrite get_assign. destruct (String.eqb_spec k k0) as [->|Hne].
          * destruct (String.eqb_spec k0 "__proto__") as [->|Hp].
            -- destruct (JS.get acc "__proto__") as [w|] eqn:Ew.
               ++ apply Hacc in Ew. tauto.
               ++ split; [discriminate|]. intros [H|(_ & H & _)]; [discriminate|tauto].
            -- split.
               ++ intros [= <-]. right. auto.
               ++ intros [H|(_ & _ & H & _)]; [apply Hacc in H; destruct H as [H _]|];
                    congruence.
          * split; [auto|]. intros [H|(H & _)]; [assumption|congruence].
        + split; [auto|]. intros [H|(<- & _ & H & Hm)]; [assumption|].
          rewrite E0 in H. injection H as <-. congruence.
      - split; [auto|]. intros [H|(<- & _ & H & _)]; [assumption|congruence]. }
    rewrite IH.
    + rewrite Hstep. tauto.
    + intros k1 v1 H1. apply Hstep in H1. destruct H1 as [H1|(_ & Hp & H1 & _)]; auto.
Qed.

(** The filtered dictionary of a language holds the pairs whose key or
    value the pattern matches, the key [__proto__] apart, and no other. *)
Lemma filterTranslations_spec (regex : RegExp.t) (translations : JS.Obj string) k v :
  JS.get (filterTranslations regex translations) k = Some v <->
  (JS.get translations k = Some v /\ k <> "__proto__" /\
   (RegExp.test regex k = true \/ RegExp.test regex v = true)).
Proof.
  unfold filterTranslations. rewrite filter_fold by (simpl; discriminate).
  rewrite orb_true_iff. simpl. split.
  - intros [H|(_ & Hp & H & Hm)]; [discriminate|auto].
  - intros (H & Hp & Hm). right. eauto using get_In_keys.
Qed.

(** What [getSearchResults] returns: with a blank term the working
    matrix; with any other term the language entries of the working
    matrix, as many and in the same order, each filtered by the term.  The
    pattern built from the escaped term always compiles. *)
Lemma getSearchResults_filtered (st : State) :
  (JS.trim (searchQuery st) = "" -> getSearchResults st = modifiedDataSource st) /\
  (JS.trim (searchQuery st) <> "" ->
     List.length (getSearchResults st) = List.length (modifiedDataSource st) /\
     Forall2 (filteredBy (searchQuery st)) (modifiedDataSource st) (getSearchResults st)).
Proof.
  split; [|split].
  - intros H. unfold getSearchResults. rewrite H. reflexivity.
  - unfold getSearchResults, searchWithPattern. destruct (negb _); [reflexivity|].
    rewrite escaped_compiles. apply length_map.
  - unfold getSearchResults, searchWithPattern, JS.truthy.
    destruct (String.eqb_spec (JS.trim (searchQuery st)) "") as [E|_]; [contradiction|].
    simpl. rewrite escaped_compiles.
    induction (modifiedDataSource st) as [|lang d IH]; simpl; constructor; [|exact IH].
    split; [reflexivity|]. intros k v. simpl.
    rewrite filterTranslations_spec, !test_spec. reflexivity.
Qed.

(** ** Key enumeration *)

Lemma setAdd_In (s : list string) (x k : string) :
  In k (JS.setAdd s x) <-> In k s \/ k = x.
Proof.
  unfold JS.setAdd. destruct (existsb (String.eqb x) s) eqn:E.
  - split; [auto|]. intros [H| ->]; [assumption|].
    apply existsb_exists in E. destruct E as (y & Hy & Exy).
    apply String.eqb_eq in Exy. now subst.
  - rewrite in_app_iff. simpl. intuition.
Qed.

Lemma setAdd_NoDup (s : list string) (x : string) :
  NoDup s -> NoDup (JS.setAdd s x).
Proof.
  intros H. unfold JS.setAdd. destruct (existsb (String.eqb x) s) eqn:E; [assumption|].
  apply NoDup_app; [assumption|repeat constructor; simpl; tauto|].
  intros y Hy [Hxy|[]]. subst y.
  assert (existsb (String.eqb x) s = true); [|congruence].
  apply existsb_exists. exists x. split; [assumption|apply String.eqb_refl].
Qed.

Lemma fold_setAdd_In (ks s : list string) (k : string) :
  In k (fold_left JS.setAdd ks s) <-> In k s \/ In k ks.
Proof.
  revert s. induction ks as [|x ks IH]; intros s; simpl; [tauto|].
  rewrite IH, setAdd_In. intuition.
Qed.

Lemma fold_setAdd_NoDup (ks s : list string) :
  NoDup s -> NoDup (fold_left JS.setAdd ks s).
Proof.
  revert s. induction ks as [|x ks IH]; intros s H; simpl; [assumption|].
  apply IH, setAdd_NoDup, H.
Qed.

Lemma getAllKeys_fold_In (data : DataSource) (s : list string) (k : string) :
  In k (fold_left (fun keysSet lang =>
                     fold_left JS.setAdd (JS.keys (Translations lang)) keysSet) data s)
  <-> In k s \/ exists lang, In lang data /\ In k (JS.keys (Translations lang)).
Proof.
  revert s. induction data as [|l data IH]; intros s; simpl.
  - split; [auto|]. intros [H|(lang & Hf & _)]; [assumption|destruct Hf].
  - rewrite IH, fold_setAdd_In. split.
    + intros [[H|H]|(lang & H1 & H2)]; eauto.
    + intros [H|(lang & [<-|H1] & H2)]; eauto.
Qed.

Lemma getAllKeys_fold_NoDup (data : DataSource) (s : list string) :
  NoDup s ->
  NoDup (fold_left (fun keysSet lang =>
                      fold_left JS.setAdd (JS.keys (Translations lang)) keysSet) data s).
Proof.
  revert s. induction data as [|l data IH]; intros s H; simpl; [assumption|].
  apply IH, fold_setAdd_NoDup, H.
Qed.

(** The keys of a projection: those of its language entries, once each. *)
Lemma getAllKeys_In (data : DataSource) (k : string) :
  In k (getAllKeys data) <->
  exists lang, In lang data /\ In k (JS.keys (Translations lang)).
Proof.
  unfold getAllKeys. rewrite getAllKeys_fold_In. simpl. tauto.
Qed.

Lemma getAllKeys_NoDup (data : DataSource) : NoDup (getAllKeys data).
Proof. apply getAllKeys_fold_NoDup. constructor. Qed.

(** ** Arrays *)

Lemma indexed_from_nth {A} (l : list A) (s i : nat) :
  nth_error (combine (seq s (List.length l)) l) i
  = option_map (fun x => ((s + i)%nat, x)) (nth_error l i).
Proof.
  revert s i. induction l as [|x l IH]; intros s i; simpl.
  - destruct i; reflexivity.
  - destruct i as [|i]; simpl.
    + now rewrite Nat.add_0_r.
    + rewrite IH. now rewrite Nat.add_succ_r.
Qed.

Lemma indexed_nth {A} (l : list A) (i : nat) :
  nth_error (JS.indexed l) i = option_map (fun x => (i, x)) (nth_error l i).
Proof. apply indexed_from_nth. Qed.

Lemma indexed_fst {A} (l : list A) :
  map fst (JS.indexed l) = seq 0 (List.length l).
Proof.
  unfold JS.indexed. generalize 0%nat.
  induction l as [|x l IH]; intros s; simpl; [reflexivity|]. now rewrite IH.
Qed.

Lemma indexed_length {A} (l : list A) :
  List.length (JS.indexed l) = List.length l.
Proof.
  unfold JS.indexed. rewrite length_combine, length_seq. apply Nat.min_id.
Qed.

Lemma slice_incl {A} (l : list A) (start stop : Z) (x : A) :
  In x (JS.slice l start stop) -> In x l.
Proof.
  unfold JS.slice. intros H.
  set (k := Z.to_nat _) in H. set (n := Z.to_nat _) in H.
  rewrite <- (firstn_skipn n l). apply in_or_app. right.
  rewrite <- (firstn_skipn k (skipn n l)). apply in_or_app. now left.
Qed.

(** ** The order of strings *)

Lemma lt_iff (a b : string) : JS.lt a b = true <-> String_as_OT.lt a b.
Proof.
  unfold JS.lt, String.ltb. rewrite <- String_as_OT.cmp_lt. unfold String_as_OT.cmp.
  destruct (String.compare a b); split; easy.
Qed.

Lemma lt_asym (a b : string) : JS.lt a b = true -> JS.lt b a = false.
Proof.
  unfold JS.lt, String.ltb. rewrite (String.compare_antisym b a).
  destruct (String.compare a b); simpl; congruence.
Qed.

Lemma lt_irrefl (a : string) : JS.lt a a = false.
Proof.
  destruct (JS.lt a a) eqn:E; [|reflexivity]. now rewrite (lt_asym _ _ E) in E.
Qed.

Lemma strLe_total (a b : string) : ~ strLe a b -> strLe b a.
Proof.
  unfold strLe. intros H. destruct (JS.lt b a) eqn:E; [|tauto]. now apply lt_asym.
Qed.

Lemma not_lt_cases (a b : string) :
  JS.lt b a = false -> a = b \/ JS.lt a b = true.
Proof.
  unfold JS.lt, String.ltb. rewrite (String.compare_antisym a b).
  destruct (String.compare b a) eqn:E; simpl; try discriminate; auto.
  apply String.compare_eq_iff in E. auto.
Qed.

Lemma strLe_trans (a b c : string) : strLe a b -> strLe b c -> strLe a c.
Proof.
  unfold strLe. intros Hab Hbc.
  destruct (JS.lt c a) eqn:Hca; [|reflexivity].
  destruct (not_lt_cases _ _ Hab) as [->|Hlt]; [congruence|].
  apply lt_iff in Hca, Hlt.
  assert (H : JS.lt c b = true) by (apply lt_iff; eapply String_as_OT.lt_trans; eassumption).
  congruence.
Qed.

(** ** Sorting *)

Section SortFacts.

Context {A : Type} (comparefn : A -> A -> Z).

Lemma insert_perm (x : A) (l : list A) : Permutation (x :: l) (JS.insert comparefn x l).
Proof.
  induction l as [|y l IH]; simpl; [reflexivity|].
  destruct (comparefn x y <=? 0)%Z; [reflexivity|].
  rewrite perm_swap. now constructor.
Qed.

Lemma sort_perm (l : list A) : Permutation l (JS.sort comparefn l).
Proof.
  induction l as [|x l IH]; simpl; [constructor|].
  rewrite <- insert_perm. now constructor.
Qed.

(** The comparator decides an order [le] that is total and transitive. *)
Variable le : A -> A -> Prop.
Hypothesis compare_le : forall x y, (comparefn x y <=? 0)%Z = true <-> le x y.
Hypothesis le_total : forall x y, ~ le x y -> le y x.
Hypothesis le_trans : forall x y z, le x y -> le y z -> le x z.

Lemma insert_sorted (x : A) (l : list A) :
  StronglySorted le l -> StronglySorted le (JS.insert comparefn x l).
Proof.
  induction 1 as [|y l Hs IH Hy]; simpl; [repeat constructor|].
  destruct (comparefn x y <=? 0)%Z eqn:E.
  - apply compare_le in E. constructor; [now constructor|].
    constructor; [assumption|].
    eapply Forall_impl; [|exact Hy]. intros z Hz. eapply le_trans; eassumption.
  - assert (Hyx : le y x).
    { apply le_total. intros H. apply compare_le in H. congruence. }
    constructor; [assumption|].
    eapply Permutation_Forall; [apply insert_perm|]. now constructor.
Qed.

Lemma sort_sorted (l : list A) : StronglySorted le (JS.sort comparefn l).
Proof.
  induction l as [|x l IH]; simpl; [constructor|]. now apply insert_sorted.
Qed.

(** Elements that the comparator separates are not in a same class. *)
Variable class : A -> bool.
Hypothesis class_le : forall x y, class x = true -> class y = true -> le x y.

Lemma insert_filter (x : A) (l : list A) :
  filter class (JS.insert comparefn x l) = filter class (x :: l).
Proof.
  induction l as [|y l IH]; [reflexivity|].
  cbn [JS.insert]. destruct (comparefn x y <=? 0)%Z eqn:E; [reflexivity|].
  cbn [filter] in *. rewrite IH.
  destruct (class x) eqn:Hx, (class y) eqn:Hy; try reflexivity.
  apply (class_le x y Hx) in Hy. apply compare_le in Hy. congruence.
Qed.

Lemma sort_filter (l : list A) :
  filter class (JS.sort comparefn l) = filter class l.
Proof.
  induction l as [|x l IH]; [reflexivity|].
  cbn [JS.sort]. rewrite insert_filter. cbn [filter]. now rewrite IH.
Qed.

End SortFacts.

(** ** The view *)

Section ViewFacts.

Variable browser : Browser.

Lemma getTextFromHTML_renderedText (html : string) :
  getTextFromHTML browser html = renderedText browser html.
Proof.
  unfold getTextFromHTML, renderedText, JS.orElse, JS.truthy.
  destruct (String.eqb_spec (Dom.textOfChildren (parseFragment browser html)) "") as [E|E];
    simpl; [now rewrite E|reflexivity].
Qed.

Lemma compareKeys_le lang sortDirection (x y : string) :
  (compareKeys browser lang sortDirection x y <=? 0)%Z = true <->
  inOrder sortDirection (sortText browser lang x) (sortText browser lang y).
Proof.
  unfold compareKeys, inOrder, strLe.
  destruct (JS.lt (sortText browser lang x) (sortText browser lang y)) eqn:Exy.
  - rewrite (lt_asym _ _ Exy). destruct sortDirection; simpl; split; easy.
  - destruct (JS.lt (sortText browser lang y) (sortText browser lang x)) eqn:Eyx;
      destruct sortDirection; simpl; split; easy.
Qed.

Lemma inOrder_total sortDirection (a b : string) :
  ~ inOrder sortDirection a b -> inOrder sortDirection b a.
Proof. destruct sortDirection; apply strLe_total. Qed.

Lemma inOrder_trans sortDirection (a b c : string) :
  inOrder sortDirection a b -> inOrder sortDirection b c -> inOrder sortDirection a c.
Proof. destruct sortDirection; simpl; eauto using strLe_trans. Qed.

Lemma inOrder_refl sortDirection (a : string) : inOrder sortDirection a a.
Proof. destruct sortDirection; apply lt_irrefl. Qed.

Lemma applySortingToKeys_pagination (st : State) (p : Pagination) keys :
  applySortingToKeys browser (setPagination p st) keys = applySortingToKeys browser st keys.
Proof. reflexivity. Qed.

(** What [o[k] || ''] is: the string of the object itself; the inherited
    property for a name of [Object.prototype] that the object does not
    define; the empty string otherwise. *)
Lemma orEmpty_read (o : JS.Obj string) (k : string) :
  JS.orEmpty (JS.read o k)
  = match JS.get o k with
    | Some value => JS.VString value
    | None =>
        if existsb (String.eqb k) JS.objectPrototypeNames
        then JS.VInherited k else JS.VString ""
    end.
Proof.
  unfold JS.read. destruct (JS.get o k) as [value|].
  - cbn [JS.orEmpty]. unfold JS.truthy.
    destruct (String.eqb_spec value "") as [->|_]; reflexivity.
  - destruct (existsb _ _); reflexivity.
Qed.

Lemma inherited_name (k : string) :
  existsb (String.eqb k) JS.objectPrototypeNames = true <-> In k JS.objectPrototypeNames.
Proof.
  rewrite existsb_exists. split.
  - intros (x & Hx & E). apply String.eqb_eq in E. now subst.
  - intros H. exists k. split; [assumption|apply String.eqb_refl].
Qed.

(** Sort correctness.  With a sort directive on a column of the working
    matrix, [applySortingToKeys] returns the keys reordered (a permutation)
    so that the texts compared never decrease, or never increase for a
    descending sort, along the list; keys with the same text keep their
    relative order.  The text compared for a key is the lower-cased
    rendered text of the value that the working matrix has for that key in
    that column.  For a key that the column does not have it is the empty
    string, unless the key is the name of a property of [Object.prototype]:
    then it is the lower-cased rendered text of what the browser prints for
    the inherited property.  The search term and the projection play no
    part: the column is looked up in [modifiedDataSource]. *)
Theorem sort_correctness (st : State) (columnIndex : nat) (sortDirection : SortDirection)
    (others : list (nat * SortDirection)) (lang : LanguageEntry) (keys : list string) :
  sortState st = (columnIndex, sortDirection) :: others ->
  nth_error (modifiedDataSource st) columnIndex = Some lang ->
  parseFragment browser "" = [] ->
  exists sorted,
    applySortingToKeys browser st keys = Some sorted /\
    Permutation keys sorted /\
    StronglySorted
      (fun a b => inOrder sortDirection (sortText browser lang a) (sortText browser lang b))
      sorted /\
    (forall t,
       filter (fun k => sortText browser lang k =? t) sorted
       = filter (fun k => sortText browser lang k =? t) keys) /\
    (forall k v, JS.get (Translations lang) k = Some v ->
                 sortText browser lang k = JS.toLowerCase (renderedText browser v)) /\
    (forall k, JS.get (Translations lang) k = None ->
               ~ In k JS.objectPrototypeNames ->
               sortText browser lang k = "") /\
    (forall k, JS.get (Translations lang) k = None ->
               In k JS.objectPrototypeNames ->
               sortText browser lang k
               = JS.toLowerCase (renderedText browser (toText browser (JS.VInherited k)))).
Proof.
  intros Hsort Hlang Hempty.
  exists (JS.sort (compareKeys browser lang sortDirection) keys).
  unfold applySortingToKeys. rewrite Hsort, Hlang.
  split; [reflexivity|]. split; [apply sort_perm|]. split; [|split; [|split; [|split]]].
  - apply sort_sorted.
    + intros x y. apply compareKeys_le.
    + intros x y. apply inOrder_total.
    + intros x y z. apply inOrder_trans.
  - intros t.
    apply sort_filter
      with (le := fun a b =>
                    inOrder sortDirection (sortText browser lang a) (sortText browser lang b)).
    + intros x y. apply compareKeys_le.
    + intros x y Hx Hy. apply String.eqb_eq in Hx, Hy. rewrite Hx, Hy.
      apply inOrder_refl.
  - intros k v H. unfold sortText. rewrite orEmpty_read, H, getTextFromHTML_renderedText.
    reflexivity.
  - intros k H Hn. unfold sortText. rewrite orEmpty_read, H, getTextFromHTML_renderedText.
    destruct (existsb _ _) eqn:E; [apply inherited_name in E; contradiction|].
    unfold renderedText. cbn [toText]. rewrite Hempty. reflexivity.
  - intros k H Hn. unfold sortText. rewrite orEmpty_read, H, getTextFromHTML_renderedText.
    apply inherited_name in Hn. now rewrite Hn.
Qed.

Lemma renderTableBody_total (st : State) (data : DataSource) rows n :
  renderTableBody browser st data = Some (rows, n) ->
  n = List.length (getAllKeys data).
Proof.
  unfold renderTableBody. destruct data as [|l data].
  - intros [= <- <-]. reflexivity.
  - destruct (applySortingToKeys browser st (getAllKeys (l :: data))); [|discriminate].
    now intros [= <- <-].
Qed.

Lemma renderTableBody_pagination (st : State) (p : Pagination) (data : DataSource) :
  option_map snd (renderTableBody browser (setPagination p st) data)
  = option_map snd (renderTableBody browser st data).
Proof.
  unfold renderTableBody. destruct data as [|l data]; [reflexivity|].
  rewrite applySortingToKeys_pagination.
  destruct (applySortingToKeys browser st (getAllKeys (l :: data))); reflexivity.
Qed.

(** With no sort directive, or one on a column that exists, the view is
    produced. *)
Lemma renderTable_defined (st : State) :
  sortColumnExists st -> exists v, renderTable browser st = Some v.
Proof.
  unfold sortColumnExists, renderTable, renderTableBody, applySortingToKeys.
  intros H. destruct (dataToRender st) as [|l data]; [eauto|].
  destruct (sortState st) as [|[c d] others]; [eauto|].
  apply nth_error_Some in H. destruct (nth_error (modifiedDataSource st) c); [eauto|congruence].
Qed.

(** C8. Total row count: the view is produced when the sort directive, if
    any, is on a column that exists; the [totalRows] of a view is the
    number of keys that [getAllKeys] finds in the projection (each key of a
    language entry of the projection, once), counted before the page is
    sliced; and with any other page number and page size the view is
    produced as well and has the same [totalRows]. *)
Theorem total_rows_before_slicing (st : State) :
  (sortColumnExists st -> exists v, renderTable browser st = Some v) /\
  forall v : View,
    renderTable browser st = Some v ->
    totalRows v = List.length (getAllKeys (dataToRender st)) /\
    NoDup (getAllKeys (dataToRender st)) /\
    (forall k, In k (getAllKeys (dataToRender st)) <->
               exists lang, In lang (dataToRender st) /\ In k (JS.keys (Translations lang))) /\
    (forall p : Pagination,
        exists v', renderTable browser (setPagination p st) = Some v' /\
                   totalRows v' = totalRows v).
Proof.
  split; [apply renderTable_defined|].
  unfold renderTable. intros v H.
  destruct (renderTableBody browser st (dataToRender st)) as [[rows n]|] eqn:E; [|discriminate].
  injection H as <-. simpl.
  split; [eapply renderTableBody_total; eassumption|].
  split; [apply getAllKeys_NoDup|]. split; [intros k; apply getAllKeys_In|].
  intros p. pose proof (renderTableBody_pagination st p (dataToRender st)) as Hp.
  rewrite E in Hp. simpl in Hp.
  change (dataToRender (setPagination p st)) with (dataToRender st).
  destruct (renderTableBody browser (setPagination p st) (dataToRender st)) as [[rows' n']|];
    [|discriminate].
  injection Hp as ->. eexists. split; reflexivity.
Qed.

Lemma renderRow_cells (st : State) (k : string) (i : nat) (lang : LanguageEntry) :
  nth_error (modifiedDataSource st) i = Some lang ->
  nth_error (rowCells (renderRow browser st k)) i
  = Some {| cellKey := k;
            cellLangIndex := i;
            cellCollapsed := existsb (Nat.eqb i) (collapsedColumns st);
            cellValue := match JS.get (Translations lang) k with
                         | Some value => value
                         | None =>
                             if existsb (String.eqb k) JS.objectPrototypeNames
                             then toText browser (JS.VInherited k) else ""
                         end |}.
Proof.
  intros H. unfold renderRow. cbn [rowCells].
  rewrite nth_error_map, indexed_nth, H. cbn [option_map renderCell]. rewrite orEmpty_read.
  destruct (JS.get (Translations lang) k); [reflexivity|].
  now destruct (existsb (String.eqb k) JS.objectPrototypeNames).
Qed.

Lemma renderTable_rows (st : State) (v : View) (row : Row) :
  renderTable browser st = Some v -> In row (viewRows v) ->
  exists k, In k (getAllKeys (dataToRender st)) /\ row = renderRow browser st k.
Proof.
  unfold renderTable, renderTableBody. intros H Hrow.
  destruct (dataToRender st) as [|l data] eqn:Ed.
  - injection H as <-. destruct Hrow.
  - destruct (applySortingToKeys browser st (getAllKeys (l :: data))) as [sorted|] eqn:Es;
      [|discriminate].
    injection H as <-. cbn [viewRows] in Hrow. apply in_map_iff in Hrow.
    destruct Hrow as (k & <- & Hk). exists k. split; [|reflexivity].
    apply slice_incl in Hk. revert Es Hk. unfold applySortingToKeys.
    destruct (sortState st) as [|[c d] others].
    + now intros [= <-].
    + destruct (nth_error (modifiedDataSource st) c).
      * intros [= <-] Hk. eapply Permutation_in; [symmetry; apply sort_perm|eassumption].
      * destruct (getAllKeys (l :: data)) as [|k1 [|k2 ks]]; try discriminate;
          now intros [= <-].
Qed.

(** Column stability.  The view is produced when the sort directive, if
    any, is on a column that exists; and in every view that [renderTable]
    produces, whatever the search term, the sort directive and the page,
    each row has one cell per language entry of the working matrix, in the
    order of the working matrix; the cell at index [i] carries the index
    [i], the key of its row, the collapsed flag of column [i] and the value
    that [modifiedDataSource[i]] has for that key.  When it has none the
    cell is empty, unless the key is the name of a property of
    [Object.prototype]: then the cell holds what the browser prints for the
    inherited property.  The projection plays no part in the cells. *)
Theorem column_stability (st : State) :
  (sortColumnExists st -> exists v, renderTable browser st = Some v) /\
  forall (v : View) (row : Row),
    renderTable browser st = Some v ->
    In row (viewRows v) ->
    List.length (rowCells row) = List.length (modifiedDataSource st) /\
    map cellLangIndex (rowCells row) = seq 0 (List.length (modifiedDataSource st)) /\
    forall i lang,
      nth_error (modifiedDataSource st) i = Some lang ->
      nth_error (rowCells row) i
      = Some {| cellKey := rowKey row;
                cellLangIndex := i;
                cellCollapsed := existsb (Nat.eqb i) (collapsedColumns st);
                cellValue := match JS.get (Translations lang) (rowKey row) with
                             | Some value => value
                             | None =>
                                 if existsb (String.eqb (rowKey row)) JS.objectPrototypeNames
                                 then toText browser (JS.VInherited (rowKey row)) else ""
                             end |}.
Proof.
  split; [apply renderTable_defined|].
  intros v row Hv Hrow. destruct (renderTable_rows st v row Hv Hrow) as (k & _ & ->).
  split; [|split].
  - unfold renderRow. cbn [rowCells]. now rewrite length_map, indexed_length.
  - unfold renderRow. cbn [rowCells]. rewrite map_map.
    rewrite <- indexed_fst. apply map_ext. now intros [i lang].
  - intros i lang H. now apply renderRow_cells.
Qed.

End ViewFacts.

(** ** The handlers *)

(** Opening a cell leaves the working matrix as it is. *)
Lemma openEditModal_modified browser loadedText k i v (st : State) :
  modifiedDataSource (handleCellClick browser loadedText k i v st) = modifiedDataSource st.
Proof. unfold handleCellClick. destruct (isSome _); reflexivity. Qed.

(** C9. Out-of-range pagination: a page number below 1, or above the
    number of pages that [goToPage] computes from the keys of the current
    projection and the page size, leaves the whole state as it is: the page
    number (not clamped), the edit context, the working matrix and the rest
    of the view state. *)
Theorem out_of_range_page_is_noop (st : State) (page : Z) :
  (page < 1)%Z \/ (exists n, pageCount st = JS.Num n /\ (n < page)%Z) ->
  goToPage page st = st.
Proof.
  intros H. unfold goToPage.
  destruct H as [H|(n & E & H)].
  - apply Z.ltb_lt in H. now rewrite H.
  - rewrite E. simpl. apply Z.ltb_lt in H. rewrite H. now rewrite orb_true_r.
Qed.

(** The number of pages, when the page size is positive: the least [n]
    with [n * size >= rows]. *)
Lemma pageCount_ceiling (st : State) :
  (0 < rowsPerPage (pagination st))%Z ->
  exists n, pageCount st = JS.Num n /\
    let rows := Z.of_nat (List.length (getAllKeys (dataToRender st))) in
    let size := rowsPerPage (pagination st) in
    ((n - 1) * size < rows <= n * size)%Z.
Proof.
  intros Hs. unfold pageCount, JS.ceilDiv.
  destruct (Z.eqb_spec (rowsPerPage (pagination st)) 0) as [E|_]; [lia|].
  eexists. split; [reflexivity|]. cbv zeta.
  set (rows := Z.of_nat _). set (size := rowsPerPage _) in *.
  pose proof (Z.div_mod (- rows) size ltac:(lia)) as Hd.
  pose proof (Z.mod_pos_bound (- rows) size Hs) as Hm.
  nia.
Qed.

(** C7, as amended.  With an edit open, a search, a page change that
    proceeds and a page-size change clear the edit context and leave the
    working matrix as it is, so the cell being edited keeps the value it
    had when the edit opened (opening a cell does not change the working
    matrix either); discard-all clears the edit context and makes the
    working matrix the original one, so the cell takes its original value.
    None of the four reads the editor: nothing of the edit in flight is
    written. *)
Theorem competing_transitions_cancel_edit (st : State) (c : EditContext) :
  currentEditContext st = Some c ->
  (forall query,
      currentEditContext (performSearch query st) = None /\
      modifiedDataSource (performSearch query st) = modifiedDataSource st) /\
  (forall page, pageProceeds page st ->
      currentEditContext (goToPage page st) = None /\
      modifiedDataSource (goToPage page st) = modifiedDataSource st /\
      currentPage (pagination (goToPage page st)) = page) /\
  (forall size,
      currentEditContext (handleRowsPerPageChange size st) = None /\
      modifiedDataSource (handleRowsPerPageChange size st) = modifiedDataSource st) /\
  (currentEditContext (handleDiscardChanges st) = None /\
   modifiedDataSource (handleDiscardChanges st) = originalDataSource st /\
   hasUnsavedChanges (handleDiscardChanges st) = false) /\
  (forall browser loadedText k i value st0,
      modifiedDataSource (handleCellClick browser loadedText k i value st0)
      = modifiedDataSource st0).
Proof.
  intros Hc. repeat split; try apply openEditModal_modified.
  - unfold performSearch, closeModalIfOpen. rewrite Hc. simpl.
    destruct (negb _); reflexivity.
  - unfold performSearch, closeModalIfOpen. rewrite Hc. simpl.
    destruct (negb _); reflexivity.
  - destruct H as [H1 H2]. unfold goToPage. rewrite H2.
    destruct (Z.ltb_spec page 1); [lia|]. simpl.
    unfold closeModalIfOpen. now rewrite Hc.
  - destruct H as [H1 H2]. unfold goToPage. rewrite H2.
    destruct (Z.ltb_spec page 1); [lia|]. simpl.
    unfold closeModalIfOpen. now rewrite Hc.
  - destruct H as [H1 H2]. unfold goToPage. rewrite H2.
    destruct (Z.ltb_spec page 1); [lia|]. reflexivity.
  - unfold handleRowsPerPageChange, closeModalIfOpen. now rewrite Hc.
  - unfold handleRowsPerPageChange, closeModalIfOpen. now rewrite Hc.
  - unfold handleDiscardChanges, closeModalIfOpen. simpl. now rewrite Hc.
  - unfold handleDiscardChanges, closeModalIfOpen. simpl. now rewrite Hc.
  - unfold handleDiscardChanges, closeModalIfOpen. simpl. now rewrite Hc.
Qed.

(** ** Saving *)

Lemma nth_updateNth {A} (f : A -> A) (l : list A) (i : nat) :
  nth_error (JS.updateNth i f l) i = option_map f (nth_error l i).
Proof.
  revert i. induction l as [|x l IH]; intros [|i]; simpl; auto.
Qed.

Lemma updateNth_id {A} (f : A -> A) (l : list A) (i : nat) (x : A) :
  nth_error l i = Some x -> f x = x -> JS.updateNth i f l = l.
Proof.
  revert i. induction l as [|y l IH]; intros [|i]; simpl; try discriminate.
  - intros [= ->] ->. reflexivity.
  - intros H Hf. now rewrite (IH i H Hf).
Qed.

Lemma cellOf_writeValue (c : EditContext) (v : string) (d : DataSource) (lang : LanguageEntry) :
  nth_error d (langIndex c) = Some lang ->
  cellOf c (writeValue (langIndex c) (key c) v d) = Some (Some v).
Proof.
  intros H. unfold cellOf, writeValue. rewrite nth_updateNth, H. simpl.
  now rewrite get_set, String.eqb_refl.
Qed.

Lemma writeValue_same (i : nat) (k v : string) (d : DataSource) (lang : LanguageEntry) :
  nth_error d i = Some lang ->
  JS.get (Translations lang) k = Some v ->
  writeValue i k v d = d.
Proof.
  intros H Hg. unfold writeValue. eapply updateNth_id; [eassumption|].
  rewrite (set_same _ _ _ Hg). now destruct lang.
Qed.

Lemma isFormattingAttr_false (name : string) :
  isFormattingAttr name = false <->
  name = "id" \/ name = "class" \/ JS.startsWith "data-" name = true.
Proof.
  unfold isFormattingAttr. simpl.
  destruct (String.eqb_spec name "id") as [->|H1]; simpl; [tauto|].
  destruct (String.eqb_spec name "class") as [->|H2]; simpl; [tauto|].
  destruct (JS.startsWith "data-" name); simpl; intuition congruence.
Qed.

Lemma filter_nil_iff {A} (f : A -> bool) (l : list A) :
  List.length (filter f l) = 0%nat <-> forall x, In x l -> f x = false.
Proof.
  induction l as [|y l IH]; simpl; [tauto|].
  destruct (f y) eqn:E; simpl.
  - split; [discriminate|]. intros H. specialize (H y (or_introl eq_refl)). congruence.
  - rewrite IH. split; [intros H x [<-|Hx]; auto|auto].
Qed.

Lemma opHasFormatting_false (op : Op) :
  opHasFormatting op = false <-> plainOp op.
Proof.
  unfold opHasFormatting, plainOp. rewrite orb_false_iff. split.
  - intros [Ha Hi]. split.
    + destruct (insert op); [eauto|discriminate].
    + intros a name Ea Hin. rewrite Ea in Ha.
      apply isFormattingAttr_false.
      destruct (Nat.eqb_spec (List.length (filter isFormattingAttr (JS.keys a))) 0) as [E|E].
      * now apply (proj1 (filter_nil_iff _ _) E).
      * destruct (JS.keys a); [destruct Hin|simpl in Ha; discriminate].
  - intros [(text & Hi) Ha]. rewrite Hi. split; [|reflexivity].
    destruct (attributes op) as [a|]; [|reflexivity].
    assert (E : List.length (filter isFormattingAttr (JS.keys a)) = 0%nat).
    { apply filter_nil_iff. intros x Hx. apply isFormattingAttr_false. eauto. }
    rewrite E. apply andb_false_r.
Qed.

Lemma deltaHasFormatting_false (ops : list Op) :
  deltaHasFormatting (Some ops) = false <-> Forall plainOp ops.
Proof.
  simpl. induction ops as [|op ops IH]; simpl.
  - split; [constructor|reflexivity].
  - rewrite orb_false_iff, IH, opHasFormatting_false. split.
    + intros [H1 H2]. now constructor.
    + intros H. inversion H. auto.
Qed.

Lemma dropFinalNewline_LF (t : string) : dropFinalNewline (t ++ JS.lineFeed) = t.
Proof.
  induction t as [|c t IH]; [reflexivity|].
  cbn [append dropFinalNewline]. rewrite IH.
  destruct t; reflexivity.
Qed.

Section SaveFacts.

Variable browser : Browser.

Lemma handleModalSave_done (editor : Editor) (st : State) (c : EditContext)
    (lang : LanguageEntry) :
  currentEditContext st = Some c ->
  nth_error (modifiedDataSource st) (langIndex c) = Some lang ->
  handleModalSave browser editor st
  = Done (closeEditModal
            (setModified
               (writeValue (langIndex c) (key c) (fst (valueToSave browser editor st c))
                           (modifiedDataSource st))
               true
               (setEditContext (Some (snd (valueToSave browser editor st c))) st))).
Proof.
  intros Hc Hl. unfold handleModalSave. rewrite Hc.
  destruct (valueToSave browser editor st c) as [v c']. simpl. now rewrite Hl.
Qed.

Lemma valueToSave_rich_plain (editor : Editor) (st : State) (c : EditContext) :
  isCodeViewActive st = false ->
  Forall plainOp (getContents editor) ->
  fst (valueToSave browser editor st c)
  = if getText editor =? originalText c then originalValue c
    else dropFinalNewline (getText editor).
Proof.
  intros Hv Hp. unfold valueToSave. rewrite Hv.
  rewrite (proj2 (deltaHasFormatting_false _) Hp).
  destruct (getText editor =? originalText c); reflexivity.
Qed.

(** C4, as amended.  A save in the design view whose delta has no
    formatting attribute and no embed completes (the column of the edit
    exists) and leaves in the cell: the original value, when the text of
    the editor is the text captured at open; otherwise the text of the
    editor without its final line feed, with no markup around it. *)
Theorem rich_save_without_formatting (editor : Editor) (st : State) (c : EditContext)
    (lang : LanguageEntry) :
  currentEditContext st = Some c ->
  isCodeViewActive st = false ->
  Forall plainOp (getContents editor) ->
  nth_error (modifiedDataSource st) (langIndex c) = Some lang ->
  exists st',
    handleModalSave browser editor st = Done st' /\
    (getText editor = originalText c ->
     cellOf c (modifiedDataSource st') = Some (Some (originalValue c))) /\
    (getText editor <> originalText c ->
     cellOf c (modifiedDataSource st') = Some (Some (dropFinalNewline (getText editor)))) /\
    (forall text, getText editor = text ++ JS.lineFeed ->
                  dropFinalNewline (getText editor) = text).
Proof.
  intros Hc Hv Hp Hl. eexists. split; [exact (handleModalSave_done editor st c lang Hc Hl)|].
  simpl. rewrite (valueToSave_rich_plain _ _ _ Hv Hp).
  split; [|split].
  - intros E. rewrite E, String.eqb_refl. now apply cellOf_writeValue with (lang := lang).
  - intros E. apply String.eqb_neq in E. rewrite E.
    now apply cellOf_writeValue with (lang := lang).
  - intros text ->. apply dropFinalNewline_LF.
Qed.

Lemma valueToSave_identity (editor : Editor) (st : State) (c : EditContext) :
  identitySave editor st c -> fst (valueToSave browser editor st c) = originalValue c.
Proof.
  intros [[Hv E]|(Hv & Hp & E)].
  - unfold valueToSave. rewrite Hv, E, String.eqb_refl. reflexivity.
  - rewrite (valueToSave_rich_plain _ _ _ Hv Hp), E, String.eqb_refl. reflexivity.
Qed.

End SaveFacts.

(** C10. A save that completes sets [hasUnsavedChanges], whatever it
    writes; an identity save of a cell whose value is the original value of
    the edit completes, leaves the working matrix as it was and sets the
    flag all the same; so a state is reached (open the cell [greet] of
    [en] on freshly loaded data, save without touching the editor) where
    the flag is set and the working matrix is the original one. *)
Theorem save_sets_unsaved_flag :
  (forall browser editor st st',
      currentEditContext st <> None ->
      handleModalSave browser editor st = Done st' ->
      hasUnsavedChanges st' = true) /\
  (forall browser editor st c lang,
      currentEditContext st = Some c ->
      identitySave editor st c ->
      nth_error (modifiedDataSource st) (langIndex c) = Some lang ->
      JS.get (Translations lang) (key c) = Some (originalValue c) ->
      exists st',
        handleModalSave browser editor st = Done st' /\
        modifiedDataSource st' = modifiedDataSource st /\
        hasUnsavedChanges st' = true) /\
  (exists st',
      handleModalSave Sample.browser Sample.untouched Sample.editing = Done st' /\
      hasUnsavedChanges Sample.loaded = false /\
      hasUnsavedChanges st' = true /\
      modifiedDataSource st' = originalDataSource st').
Proof.
  split; [|split].
  - intros browser editor st st' Hc. unfold handleModalSave.
    destruct (currentEditContext st) as [c|]; [|congruence].
    destruct (valueToSave browser editor st c) as [v c'].
    destruct (nth_error _ _); [|discriminate].
    now intros [= <-].
  - intros browser editor st c lang Hc Hid Hl Hg. eexists.
    split; [exact (handleModalSave_done browser editor st c lang Hc Hl)|].
    simpl. rewrite (valueToSave_identity _ _ _ _ Hid).
    split; [|reflexivity]. now apply writeValue_same with (lang := lang).
  - eexists. split; [reflexivity|]. repeat split.
Qed.

(** ** The states of the page *)

Lemma length_updateNth {A} (f : A -> A) (l : list A) (i : nat) :
  List.length (JS.updateNth i f l) = List.length l.
Proof.
  revert i. induction l as [|x l IH]; intros [|i]; simpl; auto.
Qed.

Lemma closeModalIfOpen_consistent (st : State) :
  consistent st -> consistent (closeModalIfOpen st).
Proof.
  intros Hst. pose proof Hst as (Hlen & Hsort & Hctx). unfold closeModalIfOpen.
  destruct (isSome (currentEditContext st)); [|exact Hst].
  repeat split; [exact Hlen|exact Hsort|discriminate].
Qed.

Lemma valueToSave_langIndex browser editor (st : State) (c : EditContext) :
  langIndex (snd (valueToSave browser editor st c)) = langIndex c.
Proof.
  unfold valueToSave.
  repeat match goal with |- context [if ?b then _ else _] => destruct b end; reflexivity.
Qed.

Lemma handleModalSave_consistent browser editor (st : State) :
  consistent st -> consistent (outcomeState (handleModalSave browser editor st)).
Proof.
  intros Hst. pose proof Hst as (Hlen & Hsort & Hctx). unfold handleModalSave.
  destruct (currentEditContext st) as [c|] eqn:Ec; [|exact Hst].
  pose proof (valueToSave_langIndex browser editor st c) as Hi.
  destruct (valueToSave browser editor st c) as [v c']. simpl in Hi.
  cbn [setEditContext modifiedDataSource].
  destruct (nth_error (modifiedDataSource st) (langIndex c)); cbn [outcomeState].
  - unfold consistent, sortColumnExists, writeValue in *. simpl. rewrite length_updateNth.
    repeat split; [exact Hlen|exact Hsort|discriminate].
  - repeat split; [exact Hlen|exact Hsort|].
    simpl. intros c0 [= <-]. rewrite Hi. now apply Hctx.
Qed.

(** Every handler keeps the state consistent. *)
Lemma handle_consistent browser loadedText (ev : Event) (st : State) :
  consistent st -> consistent (handle browser loadedText ev st).
Proof.
  intros Hst. destruct ev as [q|col|col|page|n|k i|editor| |]; cbn [handle].
  - apply closeModalIfOpen_consistent in Hst. destruct Hst as (Hlen & Hsort & Hctx).
    unfold performSearch. destruct (negb (JS.trim q =? ""));
      (split; [exact Hlen|split; [first [exact Hsort|exact I]|exact Hctx]]).
  - pose proof Hst as (Hlen & Hsort & Hctx).
    destruct (Nat.ltb_spec col (List.length (modifiedDataSource st))) as [Hcol|_];
      [|exact Hst].
    unfold cycleSortState. destruct (lookupSort col (sortState st)) as [[|]|];
      (split; [exact Hlen|split; [first [exact Hcol|exact I]|exact Hctx]]).
  - destruct (col <? _)%nat; [|assumption]. destruct Hst as (Hlen & Hsort & Hctx).
    unfold toggleColumnCollapse. destruct (existsb _ _); repeat split; assumption.
  - unfold goToPage. destruct (_ || _); [assumption|].
    apply closeModalIfOpen_consistent in Hst. destruct Hst as (Hlen & Hsort & Hctx).
    repeat split; assumption.
  - unfold handleRowsPerPageChange.
    apply closeModalIfOpen_consistent in Hst. destruct Hst as (Hlen & Hsort & Hctx).
    repeat split; assumption.
  - destruct (nth_error (modifiedDataSource st) i) as [lang|] eqn:Ei; [|assumption].
    unfold handleCellClick. pose proof Hst as (Hlen & Hsort & Hctx).
    destruct (isSome (currentEditContext st)); [exact Hst|].
    repeat split; [exact Hlen|exact Hsort|].
    simpl. intros c [= <-]. simpl. apply nth_error_Some. congruence.
  - now apply handleModalSave_consistent.
  - destruct Hst as (Hlen & Hsort & Hctx).
    repeat split; [exact Hlen|exact Hsort|discriminate].
  - unfold handleDiscardChanges. apply closeModalIfOpen_consistent.
    destruct Hst as (Hlen & Hsort & Hctx). unfold consistent, sortColumnExists in *.
    split; [reflexivity|split]; simpl.
    + destruct (sortState st) as [|[c0 d0] o]; [exact I|]. now rewrite <- Hlen.
    + intros c Hc. rewrite <- Hlen. now apply Hctx.
Qed.

(** The states of the page are consistent: the view is always produced,
    and a save always completes. *)
Lemma reachable_consistent browser loadedText (st : State) :
  reachable browser loadedText st -> consistent st.
Proof.
  induction 1 as [data|ev st _ IH].
  - split; [reflexivity|split; [exact I|discriminate]].
  - now apply handle_consistent.
Qed.

Lemma reachable_view browser loadedText (st : State) :
  reachable browser loadedText st -> exists v, renderTable browser st = Some v.
Proof.
  intros H. apply reachable_consistent in H. destruct H as (_ & H & _).
  now apply renderTable_defined.
Qed.

Lemma reachable_save browser loadedText editor (st : State) :
  reachable browser loadedText st ->
  exists st', handleModalSave browser editor st = Done st'.
Proof.
  intros H. apply reachable_consistent in H. destruct H as (_ & _ & H).
  unfold handleModalSave. destruct (currentEditContext st) as [c|]; [|eauto].
  specialize (H c eq_refl). apply nth_error_Some in H.
  destruct (valueToSave browser editor st c) as [v c']. cbn [setEditContext modifiedDataSource].
  destruct (nth_error (modifiedDataSource st) (langIndex c)); [eauto|congruence].
Qed.

(** ** DOM trees *)


Lemma elementsOf_Element t a cs :
  Dom.elementsOf (Dom.Element t a cs)
  = ([], Dom.Element t a cs) :: Dom.elementsFrom 0 cs.
Proof. reflexivity. Qed.




















(** Replacing the node at a path. *)


Lemma nth_updateNth_other {A} (f : A -> A) (l : list A) (i j : nat) :
  i <> j -> nth_error (JS.updateNth i f l) j = nth_error l j.
Proof.
  revert i j. induction l as [|x l IH]; intros [|i] [|j] H; simpl; auto; try congruence.
Qed.




(** Attributes *)




Lemma setAttribute_new (name value : string) (attrs : list (string * string)) :
  ~ In name (map fst attrs) ->
  Dom.setAttribute name value attrs = (attrs ++ [(name, value)])%list.
Proof.
  induction attrs as [|[n v] attrs IH]; simpl; intros H; [reflexivity|].
  destruct (String.eqb_spec name n) as [->|_]; [tauto|]. rewrite IH; tauto.
Qed.

(** The attributes of an element have different names, and then the copy
    made of them for the new element is the same list. *)
Lemma copyAttributes_unique (attributes : list (string * string)) :
  NoDup (map fst attributes) -> copyAttributes attributes = attributes.
Proof.
  unfold copyAttributes. change attributes with ([] ++ attributes)%list at 1 3.
  generalize (@nil (string * string)) as acc.
  induction attributes as [|[n v] attributes IH]; intros acc H; simpl.
  - now rewrite app_nil_r.
  - rewrite map_app in H. simpl in H.
    rewrite setAttribute_new by (apply NoDup_remove_2 in H; rewrite in_app_iff in H; tauto).
    change (acc ++ (n, v) :: attributes)%list with (acc ++ [(n, v)] ++ attributes)%list.
    rewrite app_assoc. apply IH. now rewrite map_app, map_app, <- app_assoc.
Qed.



(** ** The reconciler *)









Lemma trivial_not_preservable (s : Structure) :
  trivialStructure s -> hasPreservableStructure (Some s) = false.
Proof.
  intros [Hb Hi]. unfold hasPreservableStructure. rewrite Hi. simpl.
  rewrite orb_false_r. induction Hb as [|b bs -> _ IH]; simpl; auto.
Qed.

Lemma reapply_trivial (browser : Browser) (html : string) (s : Structure) :
  trivialStructure s -> reapplyHTMLAttributes browser html (Some s) = html.
Proof.
  intros H. pose proof (trivial_not_preservable s H) as Hp.
  unfold hasPreservableStructure in Hp. apply orb_false_iff in Hp. destruct Hp as [Hb Hi].
  unfold reapplyHTMLAttributes. rewrite Hb, Hi. simpl.
  destruct (negb (JS.truthy html)); reflexivity.
Qed.

Lemma set_not_empty {V} (o : JS.Obj V) (k : string) (v : V) : JS.set o k v <> [].
Proof.
  intros H. pose proof (get_set o k v k) as G. rewrite H, String.eqb_refl in G. discriminate.
Qed.

Lemma dataAttrs_fold_empty (attributes : list (string * string)) (acc : JS.Obj string) :
  fold_left (fun attrs attr =>
               if JS.startsWith "data-" (fst attr)
               then JS.set attrs (fst attr) (snd attr) else attrs) attributes acc = [] <->
  acc = [] /\ forall a, In a attributes -> JS.startsWith "data-" (fst a) = false.
Proof.
  revert acc. induction attributes as [|a attributes IH]; intros acc; simpl.
  - intuition.
  - rewrite IH. destruct (JS.startsWith "data-" (fst a)) eqn:E.
    + split.
      * intros [H _]. now apply set_not_empty in H.
      * intros [_ H]. specialize (H a (or_introl eq_refl)). congruence.
    + split.
      * intros [H1 H2]. split; [assumption|]. intros b [<-|Hb]; auto.
      * intros [H1 H2]. auto.
Qed.

(** Nothing is preserved of an element exactly when it has no [id], no
    [class] and no [data-*] attribute. *)
Lemma getPreservableAttrs_empty (e : Dom.Node) :
  getPreservableAttrs e = [] <->
  JS.get (Dom.attributesOf e) "id" = None /\
  JS.get (Dom.attributesOf e) "class" = None /\
  forall a, In a (Dom.attributesOf e) -> JS.startsWith "data-" (fst a) = false.
Proof.
  unfold getPreservableAttrs. rewrite dataAttrs_fold_empty.
  destruct (JS.get (Dom.attributesOf e) "id") as [i|];
    destruct (JS.get (Dom.attributesOf e) "class") as [c|]; split;
    try (intros [H _]; now apply set_not_empty in H);
    try (intros (H & _); discriminate);
    try (intros (_ & H & _); discriminate); tauto.
Qed.

Lemma topLevel_elementsFrom (cs : list Dom.Node) (e : Dom.Node) :
  In e cs -> Dom.isElement e = true ->
  forall i, exists p, In (p, e) (Dom.elementsFrom i cs).
Proof.
  induction cs as [|c cs IH]; intros Hin He i; [destruct Hin|].
  simpl. destruct Hin as [->|Hin].
  - exists [i]. apply in_or_app. left.
    destruct e as [t a children|d|d]; try discriminate.
    rewrite elementsOf_Element. now left.
  - destruct (IH Hin He (S i)) as (p & Hp). exists p. apply in_or_app. now right.
Qed.

Lemma flat_map_nil {A B} (f : A -> list B) (l : list A) :
  (forall x, In x l -> f x = []) -> flat_map f l = [].
Proof.
  induction l as [|x l IH]; intros H; simpl; [reflexivity|].
  rewrite (H x (or_introl eq_refl)), IH; [reflexivity|]. intros y Hy. apply H. now right.
Qed.

(** Markup whose elements are all plain has a trivial structure. *)
Lemma extract_plain (browser : Browser) (html : string) :
  (forall p e, In (p, e) (Dom.elementsIn (parseBody browser html)) -> plainElement e) ->
  trivialStructure (extractHTMLAttributes browser html).
Proof.
  intros Hplain. unfold extractHTMLAttributes.
  destruct (negb (JS.truthy html) || (JS.trim html =? "")); [split; [constructor|reflexivity]|].
  split; simpl.
  - apply Forall_flat_map, Forall_forall. intros e He. apply filter_In in He.
    destruct He as [Hin He].
    destruct (topLevel_elementsFrom _ _ Hin He 0) as (p & Hp).
    destruct (Hplain p e Hp) as (Ha & Hb & _).
    unfold extractBlock. destruct (hasTag blockTags e); [|constructor].
    rewrite Ha, (Hb eq_refl). simpl. repeat constructor.
  - apply flat_map_nil. intros [p e] Hp. destruct (Hplain p e Hp) as (Ha & _ & Hi).
    unfold extractInline. cbn [snd]. destruct (hasTag inlineTags e); [|reflexivity].
    rewrite Ha, (Hi eq_refl). reflexivity.
Qed.

(** C5. Reapply is a no-op for a trivial structure: when the structure
    extracted from a markup string has only placeholders as block entries
    and no inline entry, [reapplyHTMLAttributes] with it returns any second
    markup string as it is. *)
Theorem reapply_trivial_is_identity (browser : Browser) (html html' : string) :
  trivialStructure (extractHTMLAttributes browser html) ->
  reapplyHTMLAttributes browser html' (Some (extractHTMLAttributes browser html)) = html'.
Proof. apply reapply_trivial. Qed.

(** ** The properties on the sample data *)

(** Column stability on the sample data.  The view while searching for
    [hi]: one row, and the cell of [hr] shows the value of the working
    matrix, which the projection does not have. *)
Lemma column_stability_witness :
  let v := {| viewRows := [renderRow Sample.browser Sample.searching "greet"];
              totalRows := 1;
              totalPages := JS.Num 1 |} in
  renderTable Sample.browser Sample.searching = Some v /\
  In (renderRow Sample.browser Sample.searching "greet") (viewRows v) /\
  nth_error (rowCells (renderRow Sample.browser Sample.searching "greet")) 1
  = Some {| cellKey := "greet"; cellLangIndex := 1;
            cellCollapsed := false; cellValue := "bok" |}.
Proof.
  cbv zeta. split; [reflexivity|]. split; [now left|].
  exact (proj2 (proj2 (proj2 (column_stability Sample.browser Sample.searching) _ _
                         eq_refl (or_introl eq_refl)))
               1%nat Sample.hr eq_refl).
Defined.

(** C1 at a key that one language has and another inherits.  [en] has a
    key named [toString] and [hr] has not: the cell of [hr] in that row is
    not empty, it holds the text of the function that [hr] inherits from
    [Object.prototype]. *)
Lemma inherited_key_fills_cell :
  JS.get (Translations Inherited.hr) "toString" = None /\
  exists v row,
    renderTable Sample.browser Inherited.loaded = Some v /\
    nth_error (viewRows v) 0 = Some row /\
    rowKey row = "toString" /\
    option_map cellValue (nth_error (rowCells row) 1)
    = Some "function toString() { [native code] }" /\
    option_map cellValue (nth_error (rowCells row) 1) <> Some "" /\
    forall browser,
      option_map cellValue
        (nth_error (rowCells (renderRow browser Inherited.loaded "toString")) 1)
      = Some (functionText browser "toString").
Proof.
  split; [reflexivity|]. eexists _, _. split; [reflexivity|]. split; [reflexivity|].
  split; [reflexivity|]. split; [reflexivity|]. split; [discriminate|reflexivity].
Qed.

(** Sort correctness on the sample data: the first column sorted,
    ascending. *)
Lemma sort_correctness_witness :
  sortState Sample.sorted = [(0%nat, asc)] /\
  nth_error (modifiedDataSource Sample.sorted) 0 = Some Sample.en /\
  parseFragment Sample.browser "" = [] /\
  exists sorted,
    applySortingToKeys Sample.browser Sample.sorted ["greet"; "k1"; "k2"] = Some sorted /\
    Permutation ["greet"; "k1"; "k2"] sorted /\
    StronglySorted
      (fun a b => inOrder asc (sortText Sample.browser Sample.en a)
                              (sortText Sample.browser Sample.en b)) sorted /\
    (forall t,
        filter (fun k => sortText Sample.browser Sample.en k =? t) sorted
        = filter (fun k => sortText Sample.browser Sample.en k =? t) ["greet"; "k1"; "k2"]) /\
    (forall k v, JS.get (Translations Sample.en) k = Some v ->
                 sortText Sample.browser Sample.en k
                 = JS.toLowerCase (renderedText Sample.browser v)).
Proof.
  split; [reflexivity|]. split; [reflexivity|]. split; [reflexivity|].
  destruct (sort_correctness Sample.browser Sample.sorted 0 asc [] Sample.en
              ["greet"; "k1"; "k2"] eq_refl eq_refl eq_refl)
    as (sorted & H1 & H2 & H3 & H4 & H5 & _).
  exists sorted. auto.
Defined.

(** The order it gives: [apple], [banana] (the text of the bold
    [Banana]), [hi]. *)
Example sort_sample :
  applySortingToKeys Sample.browser Sample.sorted ["greet"; "k1"; "k2"]
  = Some ["k2"; "k1"; "greet"].
Proof. reflexivity. Qed.

(** C2 at a key that the sorted column inherits.  The column of [hr] is
    sorted, ascending; [hr] has [a] for the key [b] and nothing for the key
    [toString].  Compared as the empty string, [toString] would come
    first; the text compared is that of the inherited function, and it
    comes last. *)
Lemma inherited_key_sorts_as_function :
  sortState Inherited.sorted = [(1%nat, asc)] /\
  JS.get (Translations Inherited.hr) "toString" = None /\
  sortText Sample.browser Inherited.hr "b" = "a" /\
  JS.lt "" (sortText Sample.browser Inherited.hr "b") = true /\
  sortText Sample.browser Inherited.hr "toString" = "function tostring() { [native code] }" /\
  applySortingToKeys Sample.browser Inherited.sorted
    (getAllKeys (dataToRender Inherited.sorted))
  = Some ["b"; "toString"].
Proof. repeat split. Qed.

(** C8 on the sample data: three keys, on one page of 25 rows as on the
    second page of 2 rows. *)
Lemma total_rows_witness :
  let v := {| viewRows := map (renderRow Sample.browser Sample.loaded) ["greet"; "k1"; "k2"];
              totalRows := 3;
              totalPages := JS.Num 1 |} in
  renderTable Sample.browser Sample.loaded = Some v /\
  totalRows v = List.length (getAllKeys (dataToRender Sample.loaded)) /\
  exists v', renderTable Sample.browser
               (setPagination {| currentPage := 2; rowsPerPage := 2 |} Sample.loaded) = Some v' /\
             totalRows v' = 3%nat.
Proof.
  cbv zeta. split; [reflexivity|].
  pose proof (proj2 (total_rows_before_slicing Sample.browser Sample.loaded) _ eq_refl) as H.
  split; [exact (proj1 H)|].
  exact (proj2 (proj2 (proj2 H)) {| currentPage := 2; rowsPerPage := 2 |}).
Defined.

(** C9 on the sample data, which fill one page: page 2 is refused, and
    the edit that is open stays open. *)
Lemma out_of_range_witness :
  pageCount Sample.editing = JS.Num 1 /\ goToPage 2 Sample.editing = Sample.editing.
Proof.
  split; [reflexivity|].
  apply (out_of_range_page_is_noop Sample.editing 2).
  right. exists 1%Z. split; [reflexivity|lia].
Defined.

(** C7, as amended, on the sample data with the cell [greet] of [en]
    open. *)
Lemma competing_transitions_witness :
  (exists c, currentEditContext Sample.editing = Some c) /\
  currentEditContext (performSearch "hi" Sample.editing) = None /\
  modifiedDataSource (performSearch "hi" Sample.editing) = modifiedDataSource Sample.editing /\
  currentEditContext (handleDiscardChanges Sample.editing) = None.
Proof.
  split; [eexists; reflexivity|].
  pose proof (competing_transitions_cancel_edit Sample.editing _ eq_refl) as H.
  split; [exact (proj1 (proj1 H "hi"))|].
  split; [exact (proj2 (proj1 H "hi"))|].
  exact (proj1 (proj1 (proj2 (proj2 (proj2 H))))).
Defined.

(** C7 as stated fails for discard-all: the cell [greet] of [en] holds
    [hello] from an earlier save when it is opened again, and holds [hi]
    after the discard. *)
Lemma discard_resets_edited_cell :
  exists c,
    currentEditContext Sample.reopened = Some c /\
    currentEditContext (handleDiscardChanges Sample.reopened) = None /\
    cellOf c (modifiedDataSource Sample.reopened) = Some (Some "hello") /\
    cellOf c (modifiedDataSource (handleDiscardChanges Sample.reopened)) = Some (Some "hi") /\
    cellOf c (modifiedDataSource (handleDiscardChanges Sample.reopened))
    <> cellOf c (modifiedDataSource Sample.reopened).
Proof.
  eexists. split; [reflexivity|]. repeat split. discriminate.
Qed.

(** C4, as amended, on the sample data: [hello] typed over [hi], no
    formatting. *)
Lemma rich_save_witness :
  (exists c, currentEditContext Sample.editing = Some c) /\
  isCodeViewActive Sample.editing = false /\
  Forall plainOp (getContents Sample.retyped) /\
  nth_error (modifiedDataSource Sample.editing) 0 = Some Sample.en /\
  exists st',
    handleModalSave Sample.browser Sample.retyped Sample.editing = Done st' /\
    List.length (modifiedDataSource st') = 2%nat.
Proof.
  assert (Hp : Forall plainOp (getContents Sample.retyped)).
  { apply deltaHasFormatting_false. reflexivity. }
  split; [eexists; reflexivity|]. split; [reflexivity|]. split; [exact Hp|].
  split; [reflexivity|].
  destruct (rich_save_without_formatting Sample.browser Sample.retyped Sample.editing _
              Sample.en eq_refl eq_refl Hp eq_refl) as (st' & Hs & _).
  exists st'. split; [exact Hs|].
  injection Hs as <-. reflexivity.
Defined.

(** C4 as stated fails where the text has changed: the editor reports
    [hello] followed by the line feed that Quill appends, and the cell
    receives [hello]. *)
Lemma rich_save_not_verbatim :
  exists c,
    currentEditContext Sample.editing = Some c /\
    isCodeViewActive Sample.editing = false /\
    deltaHasFormatting (Some (getContents Sample.retyped)) = false /\
    getText Sample.retyped <> originalText c /\
    cellOf c (modifiedDataSource
                (outcomeState (handleModalSave Sample.browser Sample.retyped Sample.editing)))
    = Some (Some "hello") /\
    cellOf c (modifiedDataSource
                (outcomeState (handleModalSave Sample.browser Sample.retyped Sample.editing)))
    <> Some (Some (getText Sample.retyped)).
Proof.
  eexists. split; [reflexivity|]. repeat split; discriminate.
Qed.

(** C5 on a paragraph without attributes. *)
Lemma reapply_trivial_witness :
  trivialStructure (extractHTMLAttributes Sample.browser "<p>hi</p>") /\
  reapplyHTMLAttributes Sample.browser "<p>hello</p>"
    (Some (extractHTMLAttributes Sample.browser "<p>hi</p>")) = "<p>hello</p>".
Proof.
  assert (H : trivialStructure (extractHTMLAttributes Sample.browser "<p>hi</p>")).
  { split; [repeat constructor|reflexivity]. }
  split; [exact H|].
  exact (reapply_trivial_is_identity Sample.browser "<p>hi</p>" "<p>hello</p>" H).
Defined.

(** The structure of a [div] with an [id], reapplied to the paragraph
    that the editor returns. *)
Example reapply_div :
  reapplyHTMLAttributes Sample.browser "<p>hi</p>"
    (Some (extractHTMLAttributes Sample.browser Sample.divHi)) = Sample.divHi.
Proof. reflexivity. Qed.

(** Two spans with the same text: the entry goes to the first one, also
    when it is recorded twice. *)
Example inline_duplicates :
  restoreInlines [Sample.link; Sample.link] (Sample.parse Sample.twoSpans)
  = [Dom.Element "p" []
       [Dom.Element "a" [("id", "k")] [Dom.Text "x"]; Dom.Text " and ";
        Dom.Element "span" [] [Dom.Text "x"]]].
Proof. reflexivity. Qed.

(** Searching the sample data for [hi] keeps [greet] in [en] only, and
    both language entries. *)
Example search_sample :
  getSearchResults Sample.searching
  = [{| LanguageTwoLetter := "en"; Translations := [("greet", "hi")] |};
     {| LanguageTwoLetter := "hr"; Translations := [] |}].
Proof. reflexivity. Qed.


(** C3 at a key named [__proto__].  The language entry has the pairs
    [__proto__] and [greet], both with the value [hi]; both match the
    search for [hi], and the projection has [greet] only: the assignment
    of the pair [__proto__] to the fresh object goes to the setter of
    [Object.prototype], which drops a string.  The row shown without the
    search is gone with it. *)
Lemma proto_key_is_dropped :
  JS.get (Translations Inherited.proto) "__proto__" = Some "hi" /\
  RegExp.test (list_ascii_of_string "hi") "hi" = true /\
  getSearchResults Inherited.searching
  = [{| LanguageTwoLetter := "en"; Translations := [("greet", "hi")] |}] /\
  getAllKeys (modifiedDataSource Inherited.searching) = ["__proto__"; "greet"] /\
  getAllKeys (dataToRender Inherited.searching) = ["greet"].
Proof. repeat split. Qed.

(** C10 on the sample data: the cell is opened and saved untouched. *)
Lemma save_sets_unsaved_flag_witness :
  currentEditContext Sample.editing <> None /\
  handleModalSave Sample.browser Sample.untouched Sample.editing
  = Done (setModified [Sample.en; Sample.hr] true Sample.loaded) /\
  hasUnsavedChanges (setModified [Sample.en; Sample.hr] true Sample.loaded) = true.
Proof.
  assert (H : currentEditContext Sample.editing <> None) by discriminate.
  split; [exact H|]. split; [reflexivity|].
  exact (proj1 save_sets_unsaved_flag Sample.browser Sample.untouched Sample.editing _
               H eq_refl).
Defined.


(** * Further properties *)

(** ** The page list *)

Lemma countUp_empty (a b : Z) : (b < a)%Z -> countUp a b = [].
Proof.
  intros H. unfold countUp. replace (Z.to_nat (b - a + 1)) with 0%nat by lia. reflexivity.
Qed.

Lemma countUp_cons (a b : Z) : (a <= b)%Z -> countUp a b = a :: countUp (a + 1) b.
Proof.
  intros H. unfold countUp.
  replace (Z.to_nat (b - a + 1)) with (S (Z.to_nat (b - (a + 1) + 1))) by lia.
  cbn [seq map]. f_equal; [lia|].
  rewrite <- seq_shift, map_map. apply map_ext. intros k. lia.
Qed.

Lemma countUp_length (a b : Z) : List.length (countUp a b) = Z.to_nat (b - a + 1).
Proof. unfold countUp. now rewrite length_map, length_seq. Qed.

Lemma countUp_In (a b x : Z) : In x (countUp a b) <-> (a <= x <= b)%Z.
Proof.
  unfold countUp. rewrite in_map_iff. split.
  - intros (k & <- & Hk). apply in_seq in Hk. lia.
  - intros H. exists (Z.to_nat (x - a)). split; [lia|]. apply in_seq. lia.
Qed.

Lemma follows_countUp (n : nat) :
  forall a b r,
    b = (a + Z.of_nat n)%Z -> follows b r ->
    follows a (map PageNumber (countUp (a + 1) b) ++ r)%list.
Proof.
  induction n as [|n IH]; intros a b r Hb Hr.
  - rewrite countUp_empty by lia. replace a with b by lia. exact Hr.
  - rewrite countUp_cons by lia. cbn [map app]. constructor.
    apply IH; [lia|exact Hr].
Qed.

Lemma follows_window (a s e : Z) (r : list PageItem) :
  (a < s <= e)%Z -> follows e r ->
  follows a ((if (a + 1 <? s)%Z then [Ellipsis] else [])
             ++ map PageNumber (countUp s e) ++ r)%list.
Proof.
  intros H Hr. rewrite countUp_cons by lia. cbn [map app].
  assert (Hrest : follows s (map PageNumber (countUp (s + 1) e) ++ r)%list).
  { apply follows_countUp with (n := Z.to_nat (e - s)); [lia|exact Hr]. }
  destruct (Z.ltb_spec (a + 1) s) as [Hgap|Hnext]; cbn [app].
  - now constructor.
  - replace s with (a + 1)%Z in * by lia. now constructor.
Qed.

Lemma follows_last (e total : Z) :
  (e < total)%Z ->
  follows e ((if (e <? total - 1)%Z then [Ellipsis] else []) ++ [PageNumber total])%list.
Proof.
  intros H. destruct (Z.ltb_spec e (total - 1)); cbn [app].
  - constructor; [lia|constructor].
  - replace total with (e + 1)%Z by lia. repeat constructor.
Qed.

Lemma getPageNumbers_small (cur total : Z) :
  (1 <= total <= 7)%Z ->
  getPageNumbers cur total = map PageNumber (countUp 1 total).
Proof.
  intros H. unfold getPageNumbers. destruct (Z.leb_spec total 7); [reflexivity|lia].
Qed.

Lemma getPageNumbers_large (cur total : Z) :
  (7 < total)%Z -> (1 <= cur <= total)%Z ->
  exists windowStart windowEnd,
    getPageNumbers cur total
    = ([PageNumber 1]
       ++ (if (1 + 1 <? windowStart)%Z then [Ellipsis] else [])
       ++ map PageNumber (countUp windowStart windowEnd)
       ++ (if (windowEnd <? total - 1)%Z then [Ellipsis] else [])
       ++ [PageNumber total])%list /\
    ((cur <= 4 /\ windowStart = 2 /\ windowEnd = 7)
     \/ (4 < cur /\ total - 3 <= cur /\ windowStart = total - 6 /\ windowEnd = total - 1)
     \/ (4 < cur < total - 3 /\ windowStart = cur - 2 /\ windowEnd = cur + 2))%Z.
Proof.
  intros Ht Hc. unfold getPageNumbers.
  destruct (Z.leb_spec total 7) as [H7|H7]; [lia|]. cbv zeta.
  eexists _, _. split; [reflexivity|].
  change (2 + 2)%Z with 4%Z. change (2 * 2 + 3)%Z with 7%Z.
  destruct (Z.leb_spec cur 4), (Z.leb_spec (total - 2 - 1) cur); lia.
Qed.

(** The page list that [getPageNumbers] builds for a current page within
    the page count: it begins with page 1 and ends with the last page; the
    page buttons show increasing numbers, next to each other unless an
    ellipsis stands between them, and an ellipsis always stands for at
    least one page left out; the current page has a button; and there are
    nine items at most. *)
Theorem getPageNumbers_shape (cur total : Z) :
  (1 <= cur <= total)%Z ->
  exists rest,
    getPageNumbers cur total = PageNumber 1 :: rest /\
    follows 1 rest /\
    (exists front, getPageNumbers cur total = (front ++ [PageNumber total])%list) /\
    In (PageNumber cur) (getPageNumbers cur total) /\
    (List.length (getPageNumbers cur total) <= 9)%nat.
Proof.
  intros Hc. destruct (Z.leb_spec total 7) as [Hs|Hl].
  - rewrite getPageNumbers_small by lia.
    exists (map PageNumber (countUp (1 + 1) total)).
    split; [now rewrite countUp_cons by lia|]. split; [|split; [|split]].
    + rewrite <- (app_nil_r (map PageNumber _)).
      apply follows_countUp with (n := Z.to_nat (total - 1)); [lia|constructor].
    + exists (map PageNumber (countUp 1 (total - 1))).
      assert (Ht : (total = 1 \/ total = 2 \/ total = 3 \/ total = 4 \/ total = 5
                    \/ total = 6 \/ total = 7)%Z) by lia.
      repeat (destruct Ht as [->|Ht]; [reflexivity|]). now subst.
    + apply in_map, countUp_In. lia.
    + rewrite length_map, countUp_length. lia.
  - destruct (getPageNumbers_large cur total Hl Hc) as (ws & we & -> & Hw).
    eexists. split; [reflexivity|]. split; [|split; [|split]].
    + apply follows_window; [lia|]. apply follows_last. lia.
    + exists ([PageNumber 1]
              ++ (if (1 + 1 <? ws)%Z then [Ellipsis] else [])
              ++ map PageNumber (countUp ws we)
              ++ (if (we <? total - 1)%Z then [Ellipsis] else []))%list.
      now rewrite <- !app_assoc.
    + assert (Hin : (cur = 1 \/ cur = total \/ ws <= cur <= we)%Z) by lia.
      destruct Hin as [->|[->|Hin]].
      * now left.
      * rewrite !in_app_iff. do 4 right. now left.
      * rewrite !in_app_iff. right. right. left. now apply in_map, countUp_In.
    + rewrite !length_app, length_map, countUp_length.
      destruct (Z.ltb_spec (1 + 1) ws), (Z.ltb_spec we (total - 1));
        cbn [List.length]; lia.
Qed.

(** The page list for the third of twelve pages. *)
Lemma getPageNumbers_witness :
  (1 <= 3 <= 12)%Z /\
  getPageNumbers 3 12
  = [PageNumber 1; PageNumber 2; PageNumber 3; PageNumber 4; PageNumber 5;
     PageNumber 6; PageNumber 7; Ellipsis; PageNumber 12] /\
  exists rest, getPageNumbers 3 12 = PageNumber 1 :: rest /\ follows 1 rest.
Proof.
  assert (H : (1 <= 3 <= 12)%Z) by lia.
  split; [exact H|]. split; [reflexivity|].
  destruct (getPageNumbers_shape 3 12 H) as (rest & H1 & H2 & _).
  exists rest. split; assumption.
Defined.

(** ** Pages *)

Lemma firstn_firstn_skipn {A} (a b : nat) (l : list A) :
  (firstn a l ++ firstn b (skipn a l))%list = firstn (a + b) l.
Proof.
  revert l. induction a as [|a IH]; intros l; [reflexivity|].
  destruct l as [|x l]; simpl; [now rewrite firstn_nil|]. now rewrite IH.
Qed.

(** A slice with bounds that are not negative and in order. *)
Lemma slice_firstn_skipn {A} (l : list A) (start stop : Z) :
  (0 <= start <= stop)%Z ->
  JS.slice l start stop = firstn (Z.to_nat (stop - start)) (skipn (Z.to_nat start) l).
Proof.
  intros H. unfold JS.slice.
  destruct (Z.ltb_spec start 0), (Z.ltb_spec stop 0); try lia.
  destruct (Z.le_gt_cases start (Z.of_nat (List.length l))) as [Hs|Hs].
  - rewrite (Z.min_l start) by lia.
    destruct (Z.le_gt_cases stop (Z.of_nat (List.length l))) as [He|He].
    + rewrite (Z.min_l stop) by lia. f_equal. lia.
    + rewrite (Z.min_r stop) by lia.
      rewrite !firstn_all2; try reflexivity; rewrite length_skipn; lia.
  - rewrite (Z.min_r start), (Z.min_r stop) by lia.
    rewrite !skipn_all2 by lia. now rewrite !firstn_nil.
Qed.

Lemma slice_length {A} (l : list A) (start stop : Z) :
  (0 <= start <= stop)%Z ->
  Z.of_nat (List.length (JS.slice l start stop))
  = (Z.min stop (Z.of_nat (List.length l)) - Z.min start (Z.of_nat (List.length l)))%Z.
Proof.
  intros H. rewrite slice_firstn_skipn by assumption.
  rewrite length_firstn, length_skipn. lia.
Qed.

Lemma countUp_snoc (a b : Z) :
  (a <= b + 1)%Z -> countUp a (b + 1) = (countUp a b ++ [(b + 1)%Z])%list.
Proof.
  intros H. unfold countUp.
  replace (Z.to_nat (b + 1 - a + 1)) with (Z.to_nat (b - a + 1) + 1)%nat by lia.
  rewrite seq_app, map_app. cbn [seq map Nat.add]. do 2 f_equal. lia.
Qed.

(** The slices of the pages 1 to [k], one after the other, are the first
    [k * size] elements. *)
Lemma slices_firstn {A} (l : list A) (size : Z) (k : nat) :
  (0 < size)%Z ->
  concat (map (fun page => JS.slice l ((page - 1) * size) ((page - 1) * size + size))
              (countUp 1 (Z.of_nat k)))
  = firstn (Z.to_nat (Z.of_nat k * size)) l.
Proof.
  intros Hs. induction k as [|k IH]; [reflexivity|].
  replace (Z.of_nat (S k)) with (Z.of_nat k + 1)%Z by lia.
  rewrite countUp_snoc by lia. rewrite map_app, concat_app, IH. cbn [map concat].
  rewrite app_nil_r, slice_firstn_skipn by nia.
  replace (Z.of_nat k + 1 - 1)%Z with (Z.of_nat k) by lia.
  replace (Z.of_nat k * size + size - Z.of_nat k * size)%Z with size by lia.
  rewrite firstn_firstn_skipn. f_equal. nia.
Qed.

Lemma applySortingToKeys_perm browser (st : State) (keys : list string) :
  sortColumnExists st ->
  exists sorted, applySortingToKeys browser st keys = Some sorted /\ Permutation keys sorted.
Proof.
  unfold sortColumnExists, applySortingToKeys. intros H.
  destruct (sortState st) as [|[c d] others]; [eauto|].
  apply nth_error_Some in H. destruct (nth_error (modifiedDataSource st) c); [|congruence].
  eexists. split; [reflexivity|apply sort_perm].
Qed.

Lemma pageRowKeys_slice browser (st : State) (sorted : list string) (page : Z) :
  applySortingToKeys browser st (getAllKeys (dataToRender st)) = Some sorted ->
  pageRowKeys browser st page
  = JS.slice sorted ((page - 1) * rowsPerPage (pagination st))
             ((page - 1) * rowsPerPage (pagination st) + rowsPerPage (pagination st)).
Proof.
  intros Hs. unfold pageRowKeys, renderTable, renderTableBody.
  change (dataToRender (setCurrentPage page st)) with (dataToRender st).
  change (applySortingToKeys browser (setCurrentPage page st))
    with (applySortingToKeys browser st).
  destruct (dataToRender st) as [|l data] eqn:Ed.
  - cbn in Hs. assert (sorted = []) as ->.
    { revert Hs. unfold applySortingToKeys. destruct (sortState st) as [|[c d] o]; [congruence|].
      destruct (nth_error _ _); cbn; congruence. }
    unfold JS.slice. rewrite skipn_nil, firstn_nil. reflexivity.
  - rewrite Hs. cbn. rewrite map_map. cbn. now rewrite map_id.
Qed.

(** The pages share out the rows: with a positive page size, and a sort
    directive (if any) on a column that exists, the rows painted on the
    pages 1 to the last, one page after the other, are the keys of the
    projection in sorted order, each key once. *)
Theorem pages_partition_keys browser (st : State) :
  sortColumnExists st ->
  (0 < rowsPerPage (pagination st))%Z ->
  exists sorted n,
    applySortingToKeys browser st (getAllKeys (dataToRender st)) = Some sorted /\
    Permutation (getAllKeys (dataToRender st)) sorted /\
    NoDup sorted /\
    pageCount st = JS.Num n /\
    concat (map (pageRowKeys browser st) (countUp 1 n)) = sorted.
Proof.
  intros Hsort Hsize.
  destruct (applySortingToKeys_perm browser st (getAllKeys (dataToRender st)) Hsort)
    as (sorted & Hs & Hp).
  destruct (pageCount_ceiling st Hsize) as (n & Hn & Hb). cbv zeta in Hb.
  exists sorted, n. split; [exact Hs|]. split; [exact Hp|].
  split; [eapply Permutation_NoDup; [exact Hp|apply getAllKeys_NoDup]|].
  split; [exact Hn|].
  rewrite (map_ext _ _ (fun page => pageRowKeys_slice browser st sorted page Hs)).
  assert (Hn0 : (0 <= n)%Z) by nia.
  replace n with (Z.of_nat (Z.to_nat n)) by lia.
  rewrite slices_firstn by assumption.
  apply firstn_all2. rewrite <- (Permutation_length Hp). nia.
Qed.

(** The sample data on pages of two rows: [greet], [k1] and then [k2]. *)
Lemma pages_partition_witness :
  sortColumnExists (handleRowsPerPageChange 2 Sample.loaded) /\
  (0 < rowsPerPage (pagination (handleRowsPerPageChange 2 Sample.loaded)))%Z /\
  pageRowKeys Sample.browser (handleRowsPerPageChange 2 Sample.loaded) 1 = ["greet"; "k1"] /\
  pageRowKeys Sample.browser (handleRowsPerPageChange 2 Sample.loaded) 2 = ["k2"] /\
  exists sorted n,
    pageCount (handleRowsPerPageChange 2 Sample.loaded) = JS.Num n /\
    concat (map (pageRowKeys Sample.browser (handleRowsPerPageChange 2 Sample.loaded))
                (countUp 1 n)) = sorted.
Proof.
  assert (H1 : sortColumnExists (handleRowsPerPageChange 2 Sample.loaded)) by exact I.
  assert (H2 : (0 < rowsPerPage (pagination (handleRowsPerPageChange 2 Sample.loaded)))%Z)
    by reflexivity.
  split; [exact H1|]. split; [exact H2|]. split; [reflexivity|]. split; [reflexivity|].
  destruct (pages_partition_keys Sample.browser _ H1 H2) as (sorted & n & _ & _ & _ & Hn & Hc).
  exists sorted, n. split; assumption.
Defined.

(** ** The pagination line and buttons *)

Lemma setCurrentPage_same (st : State) : setCurrentPage (currentPage (pagination st)) st = st.
Proof. destruct st as [o m u q s c a [cp rp] e v]. reflexivity. Qed.

Lemma renderTable_sorted browser (st : State) (v : View) :
  renderTable browser st = Some v ->
  totalRows v = List.length (getAllKeys (dataToRender st)) /\
  exists sorted,
    applySortingToKeys browser st (getAllKeys (dataToRender st)) = Some sorted /\
    List.length sorted = totalRows v /\
    map rowKey (viewRows v) = pageRowKeys browser st (currentPage (pagination st)).
Proof.
  intros Hv. unfold pageRowKeys. rewrite setCurrentPage_same, Hv.
  revert Hv. unfold renderTable, renderTableBody.
  destruct (dataToRender st) as [|l data] eqn:Ed.
  - intros [= <-]. split; [reflexivity|]. exists []. split; [|split; reflexivity].
    unfold applySortingToKeys. cbn. destruct (sortState st) as [|[c d] o]; [reflexivity|].
    now destruct (nth_error _ _).
  - destruct (applySortingToKeys browser st (getAllKeys (l :: data))) as [sorted|] eqn:Es;
      [|discriminate].
    intros [= <-]. split; [reflexivity|]. exists sorted. split; [reflexivity|].
    split; [|reflexivity]. cbn [totalRows]. revert Es. unfold applySortingToKeys.
    destruct (sortState st) as [|[c d] o]; [now intros [= <-]|].
    destruct (nth_error _ _).
    + intros [= <-]. symmetry. apply Permutation_length, sort_perm.
    + destruct (getAllKeys (l :: data)) as [|k1 [|k2 ks]]; try discriminate; now intros [= <-].
Qed.

(** The line under the table agrees with the table: on a page within the
    page count (the page size being positive) it reads "Showing s-e of t"
    where [t] is the number of keys, [s] and [e] lie between 1 and [t], and
    the rows painted are [e - s + 1] in number. *)
Theorem paginationInfo_matches_rows browser (st : State) (v : View) (n : Z) :
  renderTable browser st = Some v ->
  (0 < rowsPerPage (pagination st))%Z ->
  pageCount st = JS.Num n ->
  (1 <= currentPage (pagination st) <= n)%Z ->
  exists s e,
    renderPaginationInfo st (totalRows v) = Showing s e (Z.of_nat (totalRows v)) /\
    (1 <= s <= e)%Z /\ (e <= Z.of_nat (totalRows v))%Z /\
    Z.of_nat (List.length (viewRows v)) = (e - s + 1)%Z.
Proof.
  intros Hv Hsize Hn Hp.
  destruct (renderTable_sorted browser st v Hv) as (Ht & sorted & Hs & Hl & Hk).
  destruct (pageCount_ceiling st Hsize) as (n' & Hn' & Hb). cbv zeta in Hb.
  rewrite Hn in Hn'. injection Hn' as <-. rewrite <- Ht in Hb.
  set (cp := currentPage (pagination st)) in *. set (size := rowsPerPage (pagination st)) in *.
  assert (Hrows : (0 < Z.of_nat (totalRows v))%Z) by nia.
  unfold renderPaginationInfo. destruct (Nat.eqb_spec (totalRows v) 0) as [E|_]; [lia|].
  eexists _, _. split; [reflexivity|]. fold cp size.
  assert (Hlen : Z.of_nat (List.length (viewRows v))
                 = (Z.min (cp * size) (Z.of_nat (totalRows v)) - (cp - 1) * size)%Z).
  { rewrite <- (length_map rowKey), Hk, (pageRowKeys_slice browser st sorted cp Hs).
    fold size. rewrite slice_length by nia. rewrite Hl. nia. }
  rewrite Hlen. nia.
Qed.

Lemma paginationInfo_witness :
  let v := {| viewRows := map (renderRow Sample.browser Sample.loaded) ["greet"; "k1"; "k2"];
              totalRows := 3;
              totalPages := JS.Num 1 |} in
  renderTable Sample.browser Sample.loaded = Some v /\
  (0 < rowsPerPage (pagination Sample.loaded))%Z /\
  pageCount Sample.loaded = JS.Num 1 /\
  (1 <= currentPage (pagination Sample.loaded) <= 1)%Z /\
  renderPaginationInfo Sample.loaded 3 = Showing 1 3 3 /\
  exists s e, renderPaginationInfo Sample.loaded (totalRows v) = Showing s e 3 /\
              Z.of_nat (List.length (viewRows v)) = (e - s + 1)%Z.
Proof.
  cbv zeta. assert (H : (1 <= currentPage (pagination Sample.loaded) <= 1)%Z) by (cbn; lia).
  split; [reflexivity|]. split; [reflexivity|]. split; [reflexivity|]. split; [exact H|].
  split; [reflexivity|].
  destruct (paginationInfo_matches_rows Sample.browser Sample.loaded _ 1
              eq_refl eq_refl eq_refl H) as (s & e & H1 & _ & _ & H2).
  exists s, e. split; assumption.
Defined.

(** The previous and next buttons are enabled exactly when their click
    goes somewhere: on a page within the page count, an enabled button
    moves to the page before or after (and closes the modal), and the click
    of a disabled one would be refused by [goToPage]. *)
Theorem buttons_agree_with_goToPage (st : State) (n : Z) :
  pageCount st = JS.Num n ->
  (1 <= currentPage (pagination st) <= n)%Z ->
  (prevDisabled st = false ->
   clickPrevious st = setCurrentPage (currentPage (pagination st) - 1) (closeModalIfOpen st)) /\
  (nextDisabled st (pageCount st) = false ->
   clickNext st = setCurrentPage (currentPage (pagination st) + 1) (closeModalIfOpen st)) /\
  (prevDisabled st = true -> clickPrevious st = st) /\
  (nextDisabled st (pageCount st) = true -> clickNext st = st).
Proof.
  intros Hn Hp. unfold prevDisabled, nextDisabled, clickPrevious, clickNext, goToPage.
  rewrite Hn. cbn [geNumber leOne JS.gt].
  set (cp := currentPage (pagination st)) in *.
  repeat split; intros H;
    repeat match goal with
           | |- context [(?a <? ?b)%Z] => destruct (Z.ltb_spec a b)
           | H : context [(?a <=? ?b)%Z] |- _ => destruct (Z.leb_spec a b)
           end; cbn in *; try reflexivity; try discriminate; lia.
Qed.

Lemma buttons_witness :
  let st := setCurrentPage 2 (handleRowsPerPageChange 1 Sample.loaded) in
  pageCount st = JS.Num 3 /\
  (1 <= currentPage (pagination st) <= 3)%Z /\
  prevDisabled st = false /\ nextDisabled st (pageCount st) = false /\
  currentPage (pagination (clickPrevious st)) = 1%Z /\
  currentPage (pagination (clickNext st)) = 3%Z.
Proof.
  cbv zeta.
  assert (H : (1 <= currentPage (pagination
                 (setCurrentPage 2 (handleRowsPerPageChange 1 Sample.loaded))) <= 3)%Z)
    by (cbn; lia).
  pose proof (buttons_agree_with_goToPage
                (setCurrentPage 2 (handleRowsPerPageChange 1 Sample.loaded)) 3 eq_refl H)
    as (H1 & H2 & _).
  split; [reflexivity|]. split; [exact H|]. split; [reflexivity|]. split; [reflexivity|].
  rewrite (H1 eq_refl), (H2 eq_refl). split; reflexivity.
Defined.

(** ** What every state of the page satisfies *)

Lemma writeValue_codes (i : nat) (k v : string) (d : DataSource) :
  map LanguageTwoLetter (writeValue i k v d) = map LanguageTwoLetter d.
Proof.
  unfold writeValue. revert i. induction d as [|lang d IH]; intros [|i]; simpl; auto.
  now rewrite IH.
Qed.

Lemma closeModalIfOpen_settled (st : State) : settled st -> settled (closeModalIfOpen st).
Proof.
  intros H. unfold closeModalIfOpen. destruct (isSome (currentEditContext st)); exact H.
Qed.

Lemma handle_settled browser loadedText (ev : Event) (st : State) :
  settled st -> settled (handle browser loadedText ev st).
Proof.
  intros Hst. destruct ev as [q|col|col|page|n|k i|editor| |]; cbn [handle].
  - apply closeModalIfOpen_settled in Hst. destruct Hst as (Hc & Hu & Hs & Ha & Hp).
    unfold performSearch. destruct (negb (JS.trim q =? "")) eqn:E;
      (split; [exact Hc|split; [exact Hu|split; [|split; [|cbn; lia]]]]); cbn;
      auto using Nat.le_0_l.
  - destruct (col <? _)%nat; [|exact Hst]. destruct Hst as (Hc & Hu & Hs & Ha & Hp).
    unfold cycleSortState. destruct (lookupSort col (sortState st)) as [[|]|];
      (split; [exact Hc|split; [exact Hu|split; [cbn; lia|split; [exact Ha|exact Hp]]]]).
  - destruct (col <? _)%nat; [|exact Hst]. unfold toggleColumnCollapse.
    destruct (existsb _ _); exact Hst.
  - unfold goToPage. destruct (Z.ltb_spec page 1); [exact Hst|].
    destruct (JS.gt page (pageCount st)); [exact Hst|]. cbn [orb].
    apply closeModalIfOpen_settled in Hst. destruct Hst as (Hc & Hu & Hs & Ha & Hp).
    repeat split; try assumption; cbn; lia.
  - unfold handleRowsPerPageChange.
    apply closeModalIfOpen_settled in Hst. destruct Hst as (Hc & Hu & Hs & Ha & Hp).
    repeat split; try assumption; cbn; lia.
  - destruct (nth_error (modifiedDataSource st) i); [|exact Hst].
    unfold handleCellClick. destruct (isSome (currentEditContext st)); exact Hst.
  - unfold handleModalSave. destruct (currentEditContext st) as [c|]; [|exact Hst].
    destruct (valueToSave browser editor st c) as [v c']. cbn [setEditContext modifiedDataSource].
    destruct (nth_error (modifiedDataSource st) (langIndex c)); cbn [outcomeState];
      [|exact Hst].
    destruct Hst as (Hc & Hu & Hs & Ha & Hp).
    split; [cbn; now rewrite writeValue_codes|].
    split; [cbn; discriminate|]. repeat split; assumption.
  - exact Hst.
  - unfold handleDiscardChanges. apply closeModalIfOpen_settled.
    destruct Hst as (Hc & Hu & Hs & Ha & Hp). repeat split; assumption.
Qed.

Lemma toggleCodeView_frame browser decode editor (st : State) :
  let st' := fst (toggleCodeView browser decode editor st) in
  originalDataSource st' = originalDataSource st /\
  modifiedDataSource st' = modifiedDataSource st /\
  hasUnsavedChanges st' = hasUnsavedChanges st /\
  searchQuery st' = searchQuery st /\
  sortState st' = sortState st /\
  collapsedColumns st' = collapsedColumns st /\
  isSearchActive st' = isSearchActive st /\
  pagination st' = pagination st /\
  isCodeViewActive st' = negb (isCodeViewActive st) /\
  option_map (fun c => (key c, langIndex c, originalValue c, originalText c))
             (currentEditContext st')
  = option_map (fun c => (key c, langIndex c, originalValue c, originalText c))
               (currentEditContext st).
Proof.
  cbn zeta. unfold toggleCodeView.
  destruct (isCodeViewActive st); cbn [negb fst];
    destruct (currentEditContext st) as [c|] eqn:E; cbn; rewrite ?E;
      try destruct (htmlContainsTags _); cbn; rewrite ?E; cbn; tauto.
Qed.

Lemma toggleCodeView_settled browser decode editor (st : State) :
  settled st -> settled (fst (toggleCodeView browser decode editor st)).
Proof.
  pose proof (toggleCodeView_frame browser decode editor st) as F. cbn zeta in F.
  destruct F as (F1 & F2 & F3 & F4 & F5 & F6 & F7 & F8 & _).
  unfold settled. now rewrite F1, F2, F3, F4, F5, F7, F8.
Qed.

Lemma toggleCodeView_consistent browser decode editor (st : State) :
  consistent st -> consistent (fst (toggleCodeView browser decode editor st)).
Proof.
  pose proof (toggleCodeView_frame browser decode editor st) as F. cbn zeta in F.
  destruct F as (F1 & F2 & _ & _ & F5 & _ & _ & _ & _ & F10).
  unfold consistent, sortColumnExists. rewrite F1, F2, F5.
  intros (Hlen & Hsort & Hctx). split; [exact Hlen|split; [exact Hsort|]].
  intros c' Hc'. rewrite Hc' in F10.
  destruct (currentEditContext st) as [c|]; [|discriminate].
  injection F10 as _ Hi _ _. rewrite Hi. now apply Hctx.
Qed.

Lemma visited_settled browser loadedText decode (st : State) :
  visited browser loadedText decode st -> settled st.
Proof.
  induction 1 as [data|ev st _ IH|editor st _ IH].
  - repeat split; cbn; lia.
  - now apply handle_settled.
  - now apply toggleCodeView_settled.
Qed.

Lemma visited_consistent browser loadedText decode (st : State) :
  visited browser loadedText decode st -> consistent st.
Proof.
  induction 1 as [data|ev st _ IH|editor st _ IH].
  - split; [reflexivity|split; [exact I|discriminate]].
  - now apply handle_consistent.
  - now apply toggleCodeView_consistent.
Qed.

(** In every state that the page goes through, the working matrix has the
    language entries of the original one, as many and with the same codes
    in the same order: the edits change translations only. *)
Theorem visited_same_languages browser loadedText decode (st : State) :
  visited browser loadedText decode st ->
  map LanguageTwoLetter (modifiedDataSource st)
  = map LanguageTwoLetter (originalDataSource st) /\
  List.length (modifiedDataSource st) = List.length (originalDataSource st).
Proof.
  intros H. apply visited_settled in H. destruct H as (Hc & _). split; [exact Hc|].
  now rewrite <- (length_map LanguageTwoLetter), Hc, length_map.
Qed.

(** In every state that the page goes through, a cleared unsaved-changes
    flag means that the working matrix is the original one. *)
Theorem visited_clean_is_original browser loadedText decode (st : State) :
  visited browser loadedText decode st ->
  hasUnsavedChanges st = false ->
  modifiedDataSource st = originalDataSource st.
Proof. intros H. apply visited_settled in H. now destruct H as (_ & Hu & _). Qed.

(** In every state that the page goes through there is one sort directive
    at most, and it is on a column that exists; the search is active
    exactly when the search term is not blank; and the page number is at
    least 1. *)
Theorem visited_view_state browser loadedText decode (st : State) :
  visited browser loadedText decode st ->
  (List.length (sortState st) <= 1)%nat /\
  sortColumnExists st /\
  isSearchActive st = negb (JS.trim (searchQuery st) =? "") /\
  (1 <= currentPage (pagination st))%Z.
Proof.
  intros H. pose proof (visited_consistent _ _ _ _ H) as (_ & Hs & _).
  apply visited_settled in H. destruct H as (_ & _ & H1 & H2 & H3). auto.
Qed.

(** In every state that the page goes through, the table is painted and a
    click on the save button completes: no handler stops on a column that
    does not exist. *)
Theorem visited_never_throws browser loadedText decode (st : State) :
  visited browser loadedText decode st ->
  (exists v, renderTable browser st = Some v) /\
  (forall editor, exists st', handleModalSave browser editor st = Done st').
Proof.
  intros H. apply visited_consistent in H. destruct H as (_ & Hs & Hc). split.
  - now apply renderTable_defined.
  - intros editor. unfold handleModalSave. destruct (currentEditContext st) as [c|]; [|eauto].
    specialize (Hc c eq_refl). apply nth_error_Some in Hc.
    destruct (valueToSave browser editor st c) as [v c'].
    cbn [setEditContext modifiedDataSource].
    destruct (nth_error (modifiedDataSource st) (langIndex c)); [eauto|congruence].
Qed.

(** The sample run (load, open the cell [greet] of [en], look at the code
    view, come back, type [hello], save) goes through states of the
    page. *)
Lemma sample_run_visited :
  visited Sample.browser Sample.loadedText (fun html => html) Sample.editing /\
  visited Sample.browser Sample.loadedText (fun html => html) Sample.saved.
Proof.
  pose proof (visited_event Sample.browser Sample.loadedText (fun html => html)
                (CellClick "greet" 0) _
                (visited_initial _ _ _ [Sample.en; Sample.hr])) as H0.
  pose proof (visited_codeView _ _ _ Sample.untouched _ H0) as H1.
  pose proof (visited_codeView _ _ _
                {| getContents := getContents Sample.untouched;
                   getText := getText Sample.untouched;
                   getSemanticHTML := getSemanticHTML Sample.untouched;
                   codeViewTextarea := "<p>hi</p>" |} _ H1) as H2.
  split; [exact H0|].
  exact (visited_event _ _ _ (SaveClick Sample.retyped) _ H2).
Qed.

Lemma visited_same_languages_witness :
  visited Sample.browser Sample.loadedText (fun html => html) Sample.saved /\
  modifiedDataSource Sample.saved <> originalDataSource Sample.saved /\
  map LanguageTwoLetter (modifiedDataSource Sample.saved) = ["en"; "hr"] /\
  map LanguageTwoLetter (modifiedDataSource Sample.saved)
  = map LanguageTwoLetter (originalDataSource Sample.saved).
Proof.
  split; [exact (proj2 sample_run_visited)|]. split; [discriminate|]. split; [reflexivity|].
  exact (proj1 (visited_same_languages _ _ _ _ (proj2 sample_run_visited))).
Defined.

Lemma visited_clean_witness :
  visited Sample.browser Sample.loadedText (fun html => html) Sample.editing /\
  hasUnsavedChanges Sample.editing = false /\
  modifiedDataSource Sample.editing = originalDataSource Sample.editing.
Proof.
  split; [exact (proj1 sample_run_visited)|]. split; [reflexivity|].
  exact (visited_clean_is_original _ _ _ _ (proj1 sample_run_visited) eq_refl).
Defined.

Lemma visited_view_state_witness :
  visited Sample.browser Sample.loadedText (fun html => html) Sample.saved /\
  (List.length (sortState Sample.saved) <= 1)%nat /\
  (1 <= currentPage (pagination Sample.saved))%Z.
Proof.
  split; [exact (proj2 sample_run_visited)|].
  pose proof (visited_view_state _ _ _ _ (proj2 sample_run_visited)) as (H1 & _ & _ & H3).
  split; assumption.
Defined.

Lemma visited_never_throws_witness :
  visited Sample.browser Sample.loadedText (fun html => html) Sample.editing /\
  (exists v, renderTable Sample.browser Sample.editing = Some v) /\
  exists st', handleModalSave Sample.browser Sample.retyped Sample.editing = Done st'.
Proof.
  split; [exact (proj1 sample_run_visited)|].
  pose proof (visited_never_throws _ _ _ _ (proj1 sample_run_visited)) as (H1 & H2).
  split; [exact H1|exact (H2 Sample.retyped)].
Defined.

(** ** Sorting, collapsing and searching *)

Lemma lookupSort_single (c : nat) (d : SortDirection) : lookupSort c [(c, d)] = Some d.
Proof. unfold lookupSort. cbn. now rewrite Nat.eqb_refl. Qed.

(** The clicks on the sort indicator of a column that is not sorted:
    ascending, then descending, then no sort again; a click changes the
    sort directive only, of which there is one at most afterwards. *)
Theorem cycleSortState_cycle (c : nat) (st : State) :
  ((List.length (sortState (cycleSortState c st)) <= 1)%nat /\
   setSortState (sortState st) (cycleSortState c st) = st) /\
  (lookupSort c (sortState st) = None ->
   sortState (cycleSortState c st) = [(c, asc)] /\
   sortState (cycleSortState c (cycleSortState c st)) = [(c, desc)] /\
   sortState (cycleSortState c (cycleSortState c (cycleSortState c st))) = []).
Proof.
  split.
  - unfold cycleSortState. destruct st as [o m u q s cc a p e v].
    destruct (lookupSort c _) as [[|]|]; cbn; split; (lia || reflexivity).
  - intros H.
    assert (H1 : cycleSortState c st = setSortState [(c, asc)] st).
    { unfold cycleSortState. now rewrite H. }
    assert (H2 : cycleSortState c (setSortState [(c, asc)] st) = setSortState [(c, desc)] st).
    { unfold cycleSortState. cbn [sortState setSortState]. now rewrite lookupSort_single. }
    assert (H3 : cycleSortState c (setSortState [(c, desc)] st) = setSortState [] st).
    { unfold cycleSortState. cbn [sortState setSortState]. now rewrite lookupSort_single. }
    rewrite H1, H2, H3. repeat split.
Qed.

Lemma cycleSortState_witness :
  lookupSort 0 (sortState Sample.loaded) = None /\
  sortState (cycleSortState 0 Sample.loaded) = [(0%nat, asc)] /\
  cycleSortState 0 (cycleSortState 0 (cycleSortState 0 Sample.loaded)) = Sample.loaded.
Proof.
  split; [reflexivity|].
  split; [exact (proj1 (proj2 (cycleSortState_cycle 0 Sample.loaded) eq_refl))|reflexivity].
Defined.

Lemma existsb_filter_other (c i : nat) (l : list nat) :
  i <> c ->
  existsb (Nat.eqb i) (filter (fun j => negb (Nat.eqb c j)) l) = existsb (Nat.eqb i) l.
Proof.
  intros H. induction l as [|j l IH]; [reflexivity|]. cbn.
  destruct (Nat.eqb_spec c j) as [<-|Hj]; cbn.
  - rewrite IH. destruct (Nat.eqb_spec i c); [contradiction|reflexivity].
  - now rewrite IH.
Qed.

Lemma existsb_filter_self (c : nat) (l : list nat) :
  existsb (Nat.eqb c) (filter (fun j => negb (Nat.eqb c j)) l) = false.
Proof.
  induction l as [|j l IH]; [reflexivity|]. cbn.
  destruct (Nat.eqb_spec c j) as [<-|Hj]; cbn; [exact IH|].
  rewrite IH. destruct (Nat.eqb_spec c j); [contradiction|reflexivity].
Qed.

Lemma existsb_snoc (i c : nat) (l : list nat) :
  existsb (Nat.eqb i) (l ++ [c])%list = existsb (Nat.eqb i) l || Nat.eqb i c.
Proof. rewrite existsb_app. cbn. now rewrite orb_false_r. Qed.

(** Is column [i] collapsed. *)
Lemma collapsed_after_toggle (c i : nat) (st : State) :
  existsb (Nat.eqb i) (collapsedColumns (toggleColumnCollapse c st))
  = if Nat.eqb i c then negb (existsb (Nat.eqb c) (collapsedColumns st))
    else existsb (Nat.eqb i) (collapsedColumns st).
Proof.
  unfold toggleColumnCollapse.
  destruct (existsb (Nat.eqb c) (collapsedColumns st)) eqn:E; cbn [collapsedColumns setCollapsed].
  - destruct (Nat.eqb_spec i c) as [->|Hi].
    + apply existsb_filter_self.
    + now apply existsb_filter_other.
  - rewrite existsb_snoc. destruct (Nat.eqb_spec i c) as [->|Hi].
    + now rewrite E.
    + now rewrite orb_false_r.
Qed.

(** The rows of a view without the collapsed flags: the key of each row
    with the values of its cells. *)
Lemma rows_without_flags_toggle browser (c : nat) (st : State) :
  option_map (fun v => (map (fun r => (rowKey r, map cellValue (rowCells r))) (viewRows v),
                        totalRows v, totalPages v))
             (renderTable browser (toggleColumnCollapse c st))
  = option_map (fun v => (map (fun r => (rowKey r, map cellValue (rowCells r))) (viewRows v),
                          totalRows v, totalPages v))
               (renderTable browser st).
Proof.
  assert (E : exists l, toggleColumnCollapse c st = setCollapsed l st).
  { unfold toggleColumnCollapse. destruct (existsb _ _); eauto. }
  destruct E as (l & ->).
  unfold renderTable, renderTableBody.
  change (dataToRender (setCollapsed l st)) with (dataToRender st).
  change (applySortingToKeys browser (setCollapsed l st)) with (applySortingToKeys browser st).
  destruct (dataToRender st) as [|lang data]; [reflexivity|].
  destruct (applySortingToKeys browser st (getAllKeys (lang :: data))); [|reflexivity].
  cbn. do 3 f_equal. rewrite !map_map. apply map_ext. intros k. cbn. f_equal.
  rewrite !map_map. apply map_ext. now intros [i la].
Qed.

(** Collapsing is visual only: a click on the collapse indicator of a
    column flips the collapsed flag of that column and of no other, a
    second click flips it back, and the view keeps its rows, the values of
    their cells and its row and page counts. *)
Theorem toggleColumnCollapse_visual browser (c : nat) (st : State) :
  (forall i,
      existsb (Nat.eqb i) (collapsedColumns (toggleColumnCollapse c st))
      = if Nat.eqb i c then negb (existsb (Nat.eqb c) (collapsedColumns st))
        else existsb (Nat.eqb i) (collapsedColumns st)) /\
  (forall i,
      existsb (Nat.eqb i)
              (collapsedColumns (toggleColumnCollapse c (toggleColumnCollapse c st)))
      = existsb (Nat.eqb i) (collapsedColumns st)) /\
  modifiedDataSource (toggleColumnCollapse c st) = modifiedDataSource st /\
  option_map (fun v => (map (fun r => (rowKey r, map cellValue (rowCells r))) (viewRows v),
                        totalRows v, totalPages v))
             (renderTable browser (toggleColumnCollapse c st))
  = option_map (fun v => (map (fun r => (rowKey r, map cellValue (rowCells r))) (viewRows v),
                          totalRows v, totalPages v))
               (renderTable browser st).
Proof.
  split; [intros i; apply collapsed_after_toggle|].
  split; [|split; [|apply rows_without_flags_toggle]].
  - intros i. rewrite !collapsed_after_toggle.
    destruct (Nat.eqb_spec i c) as [->|_]; [|reflexivity].
    rewrite Nat.eqb_refl. apply negb_involutive.
  - unfold toggleColumnCollapse. destruct (existsb _ _); reflexivity.
Qed.

Lemma In_keys_get {V} (o : JS.Obj V) (k : string) :
  In k (JS.keys o) <-> exists v, JS.get o k = Some v.
Proof.
  split; [|intros (v & H); eapply get_In_keys; eassumption].
  induction o as [|[k0 v0] o IH]; simpl; [tauto|].
  destruct (String.eqb_spec k k0) as [->|Hk]; [eauto|].
  intros [H|H]; [congruence|auto].
Qed.

Lemma filterTranslations_keys (regex : RegExp.t) (translations : JS.Obj string) (k : string) :
  In k (JS.keys (filterTranslations regex translations)) -> In k (JS.keys translations).
Proof.
  rewrite !In_keys_get. intros (v & H). apply filterTranslations_spec in H. exists v. tauto.
Qed.

Lemma getSearchResults_keys (st : State) (k : string) :
  In k (getAllKeys (getSearchResults st)) -> In k (getAllKeys (modifiedDataSource st)).
Proof.
  unfold getSearchResults, searchWithPattern. destruct (negb _); [auto|].
  destruct (RegExp.compile _) as [regex|]; [|auto].
  rewrite !getAllKeys_In. intros (lang & Hin & Hk).
  apply in_map_iff in Hin. destruct Hin as (lang0 & <- & Hin0).
  exists lang0. split; [assumption|]. eapply filterTranslations_keys. exact Hk.
Qed.

(** The search.  The projection never has a key that the working matrix
    has not, so a search never adds a row.  With a blank term the
    projection is the working matrix.  With any other term it has the
    language entries of the working matrix, as many and in the same order
    (an entry left with no pair stays in place), each with exactly the
    pairs in whose key or raw value the term occurs literally, letter case
    aside, except that a pair whose key is [__proto__] is never kept; and a
    key has a row exactly when it is not [__proto__] and, in some language,
    the term occurs in the key or in the value stored for it.  The pattern
    built from the escaped term always compiles; a pattern that does not
    compile gives the data as they are.  With the search inactive the table
    shows the working matrix. *)
Theorem search_rows (st : State) :
  incl (getAllKeys (dataToRender st)) (getAllKeys (modifiedDataSource st)) /\
  (List.length (getAllKeys (dataToRender st))
   <= List.length (getAllKeys (modifiedDataSource st)))%nat /\
  (JS.trim (searchQuery st) = "" -> getSearchResults st = modifiedDataSource st) /\
  (JS.trim (searchQuery st) <> "" ->
   List.length (getSearchResults st) = List.length (modifiedDataSource st) /\
   Forall2 (filteredBy (searchQuery st)) (modifiedDataSource st) (getSearchResults st) /\
   forall k,
     In k (getAllKeys (getSearchResults st)) <->
     (k <> "__proto__" /\
      exists lang v,
        In lang (modifiedDataSource st) /\
        JS.get (Translations lang) k = Some v /\
        (occursIn (searchQuery st) k \/ occursIn (searchQuery st) v))) /\
  ((exists regex, RegExp.compile (escapeRegExp (searchQuery st)) = Some regex) /\
   forall escapedQuery data,
     RegExp.compile escapedQuery = None -> searchWithPattern escapedQuery data = data) /\
  (isSearchActive st = false -> dataToRender st = modifiedDataSource st).
Proof.
  assert (Hincl : incl (getAllKeys (dataToRender st)) (getAllKeys (modifiedDataSource st))).
  { unfold dataToRender. destruct (isSearchActive st); [|apply incl_refl].
    intros k. apply getSearchResults_keys. }
  split; [exact Hincl|].
  split; [apply NoDup_incl_length; [apply getAllKeys_NoDup|exact Hincl]|].
  split; [exact (proj1 (getSearchResults_filtered st))|].
  split; [|split].
  - intros Hq. destruct (proj2 (getSearchResults_filtered st) Hq) as [Hl Hf].
    split; [exact Hl|]. split; [exact Hf|].
    intros k. unfold getSearchResults, searchWithPattern, JS.truthy.
    destruct (String.eqb_spec (JS.trim (searchQuery st)) "") as [E|_]; [contradiction|].
    cbn [negb]. rewrite escaped_compiles. rewrite getAllKeys_In. split.
    + intros (lang & Hin & Hk). apply in_map_iff in Hin. destruct Hin as (lang0 & <- & Hin0).
      cbn [Translations] in Hk. apply In_keys_get in Hk. destruct Hk as (v & Hv).
      apply filterTranslations_spec in Hv. rewrite !test_spec in Hv.
      split; [tauto|]. exists lang0, v. tauto.
    + intros (Hp & lang & v & Hin & Hv & Hocc).
      eexists. split; [apply in_map; exact Hin|]. cbn [Translations].
      apply In_keys_get. exists v. apply filterTranslations_spec. rewrite !test_spec. tauto.
  - split; [rewrite escaped_compiles; eauto|].
    intros escapedQuery data H. unfold searchWithPattern. now rewrite H.
  - intros H. unfold dataToRender. now rewrite H.
Qed.

(** The search on the sample data, for [hi]: both language entries stay,
    [en] with the pair in which [hi] occurs and [hr] with none; and a
    pattern that does not compile. *)
Lemma search_rows_witness :
  JS.trim (searchQuery Sample.searching) <> "" /\
  List.length (getSearchResults Sample.searching) = 2%nat /\
  Forall2 (filteredBy "hi") [Sample.en; Sample.hr] (getSearchResults Sample.searching) /\
  RegExp.compile "(" = None /\
  searchWithPattern "(" [Sample.en; Sample.hr] = [Sample.en; Sample.hr].
Proof.
  assert (H : JS.trim (searchQuery Sample.searching) <> "") by discriminate.
  pose proof (search_rows Sample.searching) as (_ & _ & _ & Hs & (_ & Hc) & _).
  destruct (Hs H) as (Hl & Hf & _).
  split; [exact H|]. split; [exact Hl|]. split; [exact Hf|]. split; [reflexivity|].
  exact (Hc "(" [Sample.en; Sample.hr] eq_refl).
Defined.

Lemma closeModalIfOpen_frame (st : State) :
  currentEditContext (closeModalIfOpen st) = None /\
  modifiedDataSource (closeModalIfOpen st) = modifiedDataSource st /\
  originalDataSource (closeModalIfOpen st) = originalDataSource st /\
  hasUnsavedChanges (closeModalIfOpen st) = hasUnsavedChanges st /\
  sortState (closeModalIfOpen st) = sortState st /\
  searchQuery (closeModalIfOpen st) = searchQuery st /\
  isSearchActive (closeModalIfOpen st) = isSearchActive st /\
  pagination (closeModalIfOpen st) = pagination st /\
  collapsedColumns (closeModalIfOpen st) = collapsedColumns st.
Proof.
  unfold closeModalIfOpen. destruct (currentEditContext st) eqn:E; cbn; [tauto|].
  rewrite E. tauto.
Qed.

(** A search followed by a click on the clear button.  Either step closes
    the editor without saving and goes to page 1, and neither touches the
    working matrix; after the clear the table shows the working matrix
    again, but a sort directive that the search removed is not brought back:
    a term that is not blank removes it, a blank one leaves it. *)
Theorem search_then_clear (query : string) (st : State) :
  let searched := performSearch query st in
  let cleared := handleClearSearch searched in
  (currentEditContext searched = None /\
   currentPage (pagination searched) = 1%Z /\
   rowsPerPage (pagination searched) = rowsPerPage (pagination st) /\
   modifiedDataSource searched = modifiedDataSource st /\
   hasUnsavedChanges searched = hasUnsavedChanges st /\
   sortState searched = (if JS.trim query =? "" then sortState st else [])) /\
  (dataToRender cleared = modifiedDataSource st /\
   currentPage (pagination cleared) = 1%Z /\
   sortState cleared = sortState searched /\
   searchQuery cleared = "" /\
   isSearchActive cleared = false).
Proof.
  cbn zeta. unfold handleClearSearch, performSearch.
  pose proof (closeModalIfOpen_frame st) as (H1 & H2 & H3 & H4 & H5 & H6 & H7 & H8 & H9).
  change (JS.trim "" =? "") with true. cbn [negb].
  destruct (JS.trim query =? ""); cbn [negb].
  - split; [cbn; rewrite ?H8; auto 10|].
    match goal with |- context [closeModalIfOpen ?s] =>
      pose proof (closeModalIfOpen_frame s) as (G1 & G2 & G3 & G4 & G5 & G6 & G7 & G8 & G9)
    end.
    unfold dataToRender. cbn. rewrite G2, G5. cbn. auto.
  - split; [cbn; rewrite ?H8; auto 10|].
    match goal with |- context [closeModalIfOpen ?s] =>
      pose proof (closeModalIfOpen_frame s) as (G1 & G2 & G3 & G4 & G5 & G6 & G7 & G8 & G9)
    end.
    unfold dataToRender. cbn. rewrite G2, G5. cbn. auto.
Qed.

Section SortedFacts.

Context {A : Type} (comparefn : A -> A -> Z).
Variable le : A -> A -> Prop.
Hypothesis compare_le : forall x y, (comparefn x y <=? 0)%Z = true <-> le x y.

(** The sort leaves a list that is in order as it is. *)
Lemma sort_of_sorted (l : list A) : StronglySorted le l -> JS.sort comparefn l = l.
Proof.
  induction 1 as [|x l Hs IH Hx]; [reflexivity|].
  cbn [JS.sort]. rewrite IH. destruct l as [|y l]; [reflexivity|].
  cbn [JS.insert]. inversion Hx as [|? ? Hxy _]; subst.
  apply compare_le in Hxy. now rewrite Hxy.
Qed.

End SortedFacts.

(** Sorting again changes nothing: the keys that [applySortingToKeys]
    returns are returned as they are when they are sorted once more under
    the same state, so painting the table again keeps the rows where they
    are. *)
Theorem sort_again_is_identity browser (st : State) (keys sorted : list string) :
  applySortingToKeys browser st keys = Some sorted ->
  applySortingToKeys browser st sorted = Some sorted.
Proof.
  unfold applySortingToKeys. destruct (sortState st) as [|[columnIndex sortDirection] _];
    [auto|].
  destruct (nth_error (modifiedDataSource st) columnIndex) as [lang|].
  - intros [= <-]. f_equal.
    apply sort_of_sorted
      with (le := fun a b =>
                    inOrder sortDirection (sortText browser lang a) (sortText browser lang b)).
    + intros x y. apply compareKeys_le.
    + apply sort_sorted.
      * intros x y. apply compareKeys_le.
      * intros x y. apply inOrder_total.
      * intros x y z. apply inOrder_trans.
  - destruct keys as [|k1 [|k2 keys]]; intros [= <-]; reflexivity.
Qed.

Lemma sort_again_witness :
  applySortingToKeys Sample.browser Sample.sorted ["greet"; "k1"; "k2"]
  = Some ["k2"; "k1"; "greet"] /\
  applySortingToKeys Sample.browser Sample.sorted ["k2"; "k1"; "greet"]
  = Some ["k2"; "k1"; "greet"].
Proof.
  split; [reflexivity|].
  exact (sort_again_is_identity Sample.browser Sample.sorted
           ["greet"; "k1"; "k2"] ["k2"; "k1"; "greet"] eq_refl).
Defined.

(** Discarding.  Whatever was saved or is being edited, the working matrix
    is the loaded one afterwards, the unsaved flag is down and no editor is
    open; the search, the sort directive, the page and the collapsed
    columns stay as they were, and a second discard changes nothing. *)
Theorem discard_restores_original (st : State) :
  let st' := handleDiscardChanges st in
  modifiedDataSource st' = originalDataSource st /\
  originalDataSource st' = originalDataSource st /\
  hasUnsavedChanges st' = false /\
  currentEditContext st' = None /\
  (searchQuery st' = searchQuery st /\ isSearchActive st' = isSearchActive st /\
   sortState st' = sortState st /\ pagination st' = pagination st /\
   collapsedColumns st' = collapsedColumns st) /\
  handleDiscardChanges st' = st'.
Proof.
  cbn zeta. unfold handleDiscardChanges.
  match goal with |- context [closeModalIfOpen ?s] =>
    pose proof (closeModalIfOpen_frame s) as (G1 & G2 & G3 & G4 & G5 & G6 & G7 & G8 & G9);
    set (st1 := closeModalIfOpen s) in *
  end.
  cbn in G2, G3, G4, G5, G6, G7, G8, G9.
  repeat split; try assumption.
  rewrite G3. unfold closeModalIfOpen at 1. cbn. rewrite G1. cbn.
  destruct st1 as [o m u q s cc a p e v]. unfold setModified. cbn in *. congruence.
Qed.

(** ** Saving, case by case *)

Lemma writeValue_other (i : nat) (k v : string) (d : DataSource) (j : nat) (k' : string) :
  (j, k') <> (i, k) ->
  option_map (fun lang => JS.get (Translations lang) k') (nth_error (writeValue i k v d) j)
  = option_map (fun lang => JS.get (Translations lang) k') (nth_error d j).
Proof.
  intros H. unfold writeValue. destruct (Nat.eq_dec i j) as [->|Hij].
  - rewrite nth_updateNth. destruct (nth_error d j) as [lang|]; [|reflexivity].
    cbn. rewrite get_set. destruct (String.eqb_spec k' k) as [->|_]; [congruence|reflexivity].
  - now rewrite nth_updateNth_other.
Qed.

Section SaveCases.

Variable browser : Browser.

(** A save writes one cell.  With an edit open on a column that exists,
    the save completes; the cell of the edit takes the value to save, every
    other cell of the working matrix keeps its value, and the language
    codes, the original matrix, the search, the sort directive, the page
    and the collapsed columns are as before; the editor is closed, in the
    design view. *)
Theorem save_changes_one_cell (editor : Editor) (st : State) (c : EditContext)
    (lang : LanguageEntry) :
  currentEditContext st = Some c ->
  nth_error (modifiedDataSource st) (langIndex c) = Some lang ->
  exists st',
    handleModalSave browser editor st = Done st' /\
    cellOf c (modifiedDataSource st') = Some (Some (fst (valueToSave browser editor st c))) /\
    (forall j k',
        (j, k') <> (langIndex c, key c) ->
        option_map (fun l => JS.get (Translations l) k') (nth_error (modifiedDataSource st') j)
        = option_map (fun l => JS.get (Translations l) k') (nth_error (modifiedDataSource st) j)) /\
    map LanguageTwoLetter (modifiedDataSource st')
    = map LanguageTwoLetter (modifiedDataSource st) /\
    originalDataSource st' = originalDataSource st /\
    (searchQuery st' = searchQuery st /\ isSearchActive st' = isSearchActive st /\
     sortState st' = sortState st /\ pagination st' = pagination st /\
     collapsedColumns st' = collapsedColumns st) /\
    currentEditContext st' = None /\
    isCodeViewActive st' = false.
Proof.
  intros Hc Hl. eexists. split; [exact (handleModalSave_done browser editor st c lang Hc Hl)|].
  cbn. split; [now apply cellOf_writeValue with (lang := lang)|].
  split; [intros j k' H; now apply writeValue_other|].
  split; [apply writeValue_codes|]. tauto.
Qed.

(** A save from the code view.  When the textarea holds what it held when
    the code view opened (or the original value, if nothing was recorded
    then), the cell keeps the original value; otherwise the cell takes the
    content of the textarea as it is, with or without tags.  What Quill
    holds plays no part. *)
Theorem code_view_save (editor : Editor) (st : State) (c : EditContext)
    (lang : LanguageEntry) :
  currentEditContext st = Some c ->
  isCodeViewActive st = true ->
  nth_error (modifiedDataSource st) (langIndex c) = Some lang ->
  exists st',
    handleModalSave browser editor st = Done st' /\
    (codeViewTextarea editor = JS.orElse (codeViewInitialHTML c) (originalValue c) ->
     cellOf c (modifiedDataSource st') = Some (Some (originalValue c))) /\
    (codeViewTextarea editor <> JS.orElse (codeViewInitialHTML c) (originalValue c) ->
     cellOf c (modifiedDataSource st') = Some (Some (codeViewTextarea editor))) /\
    (forall editor',
        codeViewTextarea editor' = codeViewTextarea editor ->
        handleModalSave browser editor' st = Done st').
Proof.
  intros Hc Hv Hl. eexists. split; [exact (handleModalSave_done browser editor st c lang Hc Hl)|].
  assert (Hval : forall e,
             valueToSave browser e st c
             = if codeViewTextarea e =? JS.orElse (codeViewInitialHTML c) (originalValue c)
               then (originalValue c, c)
               else if negb (htmlContainsTags (codeViewTextarea e))
                    then (codeViewTextarea e, c)
                    else (codeViewTextarea e,
                          setOriginalAttributes
                            (extractHTMLAttributes browser (codeViewTextarea e)) c)).
  { intros e. unfold valueToSave. now rewrite Hv. }
  split; [|split].
  - intros E. cbn. rewrite Hval. apply String.eqb_eq in E. rewrite E. cbn.
    now apply cellOf_writeValue with (lang := lang).
  - intros E. cbn. rewrite Hval. apply String.eqb_neq in E. rewrite E.
    destruct (negb _); cbn; now apply cellOf_writeValue with (lang := lang).
  - intros editor' E. rewrite (handleModalSave_done browser editor' st c lang Hc Hl).
    now rewrite !Hval, E.
Qed.

(** A save from the design view with formatting in the delta.  The cell
    takes the semantic HTML of Quill, passed through the reconciler when
    the structure recorded at open has something to preserve; the text of
    the editor is not compared with the text captured at open, so an edit
    that only formats is saved as markup. *)
Theorem formatted_save (editor : Editor) (st : State) (c : EditContext)
    (lang : LanguageEntry) :
  currentEditContext st = Some c ->
  isCodeViewActive st = false ->
  deltaHasFormatting (Some (getContents editor)) = true ->
  nth_error (modifiedDataSource st) (langIndex c) = Some lang ->
  exists st',
    handleModalSave browser editor st = Done st' /\
    (hasPreservableStructure (Some (originalAttributes c)) = false ->
     cellOf c (modifiedDataSource st') = Some (Some (getSemanticHTML editor))) /\
    (hasPreservableStructure (Some (originalAttributes c)) = true ->
     cellOf c (modifiedDataSource st')
     = Some (Some (reapplyHTMLAttributes browser (getSemanticHTML editor)
                     (Some (originalAttributes c))))).
Proof.
  intros Hc Hv Hf Hl. eexists.
  split; [exact (handleModalSave_done browser editor st c lang Hc Hl)|].
  assert (Hval : fst (valueToSave browser editor st c)
                 = if hasPreservableStructure (Some (originalAttributes c))
                   then reapplyHTMLAttributes browser (getSemanticHTML editor)
                          (Some (originalAttributes c))
                   else getSemanticHTML editor).
  { unfold valueToSave. rewrite Hv, Hf. now destruct (hasPreservableStructure _). }
  cbn [modifiedDataSource closeEditModal setCodeViewActive setEditContext setModified].
  rewrite Hval. split; intros ->; now apply cellOf_writeValue with (lang := lang).
Qed.

Variable decodeHTMLEntities : string -> string.

(** Looking at the code view and saving.  From the design view, a click
    on the code-view button followed by a save with the textarea as the
    click left it keeps the original value in the cell, whatever markup the
    textarea shows; the one exception is a textarea left empty, which
    empties the cell. *)
Theorem code_view_round_trip (editor editor' : Editor) (st st1 : State) (c : EditContext)
    (lang : LanguageEntry) (shown : string) :
  currentEditContext st = Some c ->
  isCodeViewActive st = false ->
  nth_error (modifiedDataSource st) (langIndex c) = Some lang ->
  toggleCodeView browser decodeHTMLEntities editor st = (st1, shown) ->
  codeViewTextarea editor' = shown ->
  exists st2,
    handleModalSave browser editor' st1 = Done st2 /\
    cellOf c (modifiedDataSource st2)
    = Some (Some (if shown =? "" then "" else originalValue c)) /\
    hasUnsavedChanges st2 = true.
Proof.
  intros Hc Hv Hl Ht He. unfold toggleCodeView in Ht. rewrite Hv, Hc in Ht. cbn [negb] in Ht.
  injection Ht as <- Hshown. rewrite Hshown in *.
  set (c1 := setCodeViewInitialHTML (Some shown) c).
  assert (Hc1 : currentEditContext
                  (setCodeViewActive true (setEditContext (Some c1) st)) = Some c1)
    by reflexivity.
  eexists. split; [exact (handleModalSave_done browser editor' _ c1 lang Hc1 Hl)|].
  split; [|reflexivity].
  cbn [modifiedDataSource closeEditModal setCodeViewActive setEditContext setModified].
  assert (Hval : fst (valueToSave browser editor'
                        (setCodeViewActive true (setEditContext (Some c1) st)) c1)
                 = if shown =? "" then "" else originalValue c).
  { unfold valueToSave. cbn [isCodeViewActive setCodeViewActive]. rewrite He.
    cbn [codeViewInitialHTML originalValue c1 setCodeViewInitialHTML JS.orElse].
    unfold JS.truthy. destruct (String.eqb_spec shown "") as [->|Hne]; cbn [negb].
    - destruct (String.eqb_spec "" (originalValue c)) as [<-|_]; reflexivity.
    - now rewrite String.eqb_refl. }
  rewrite Hval. exact (cellOf_writeValue c1 _ _ lang Hl).
Qed.

End SaveCases.

(** The formatting test of the delta.  A delta has formatting exactly when
    one of its ops inserts something other than text, or has an attribute
    whose name is not [id], [class] or a [data-*] name; a delta without
    ops has none. *)
Theorem deltaHasFormatting_spec (ops : list Op) :
  deltaHasFormatting None = false /\
  (deltaHasFormatting (Some ops) = true <->
   exists op,
     In op ops /\
     ((exists embed, insert op = InsertEmbed embed) \/
      (exists a name,
          attributes op = Some a /\ In name (JS.keys a) /\
          name <> "id" /\ name <> "class" /\ JS.startsWith "data-" name = false))).
Proof.
  split; [reflexivity|]. cbn [deltaHasFormatting]. rewrite existsb_exists.
  assert (Hop : forall op,
             opHasFormatting op = true <->
             ((exists embed, insert op = InsertEmbed embed) \/
              (exists a name,
                  attributes op = Some a /\ In name (JS.keys a) /\
                  name <> "id" /\ name <> "class" /\ JS.startsWith "data-" name = false))).
  { intros op. split.
    - intros H. destruct (opHasFormatting op) eqn:E; [|discriminate].
      destruct (insert op) as [text|embed] eqn:Ei; [|eauto].
      right. destruct (attributes op) as [a|] eqn:Ea.
      + destruct (filter isFormattingAttr (JS.keys a)) as [|name l] eqn:Ef.
        * exfalso. assert (Hp : plainOp op).
          { split; [eauto|]. intros a' name Ha' Hin.
            assert (a' = a) by congruence. subst a'. apply isFormattingAttr_false.
            destruct (isFormattingAttr name) eqn:En; [|reflexivity].
            assert (Hf : In name (filter isFormattingAttr (JS.keys a)))
              by (apply filter_In; auto).
            rewrite Ef in Hf. destruct Hf. }
          apply opHasFormatting_false in Hp. congruence.
        * assert (Hf : In name (filter isFormattingAttr (JS.keys a)))
            by (rewrite Ef; now left).
          apply filter_In in Hf. destruct Hf as [Hin Hn].
          exists a, name. split; [reflexivity|]. split; [assumption|].
          assert (Hnot : ~ (name = "id" \/ name = "class"
                            \/ JS.startsWith "data-" name = true)).
          { intros Hx. apply isFormattingAttr_false in Hx. congruence. }
          destruct (JS.startsWith "data-" name); tauto.
      + exfalso. assert (Hp : plainOp op) by (split; [eauto|intros; congruence]).
        apply opHasFormatting_false in Hp. congruence.
    - intros H. destruct (opHasFormatting op) eqn:E; [reflexivity|]. exfalso.
      apply opHasFormatting_false in E. destruct E as [(text & Ht) Ha].
      destruct H as [(embed & He)|(a & name & Hatt & Hin & H1 & H2 & H3)]; [congruence|].
      destruct (Ha a name Hatt Hin) as [?|[?|?]]; congruence. }
  split.
  - intros (op & Hin & H). exists op. split; [assumption|now apply Hop].
  - intros (op & Hin & H). exists op. split; [assumption|now apply Hop].
Qed.

(** ** The tag test of the code view *)

Lemma containsChar_skipWhile (c : ascii) (p : ascii -> bool) (s : string) :
  containsChar c (skipWhile p s) = true -> containsChar c s = true.
Proof.
  induction s as [|d s IH]; [auto|]. cbn [skipWhile].
  destruct (p d); [|auto]. intros H. cbn. rewrite (IH H). apply orb_true_r.
Qed.

Lemma tagTail_closing (s : string) : tagTail s = true -> containsChar ">" s = true.
Proof.
  unfold tagTail. intros H. apply containsChar_skipWhile with
    (p := fun c => isAsciiLetter c || JS.isDigit c).
  destruct (skipWhile _ s) as [|c r]; [discriminate|]. cbn [containsChar].
  destruct (Ascii.eqb_spec c ">") as [->|Hc]; [reflexivity|].
  rewrite (proj2 (Ascii.eqb_neq _ _) (not_eq_sym Hc)). cbn [orb].
  destruct (c =? "/")%char.
  - destruct r as [|d r]; [discriminate|]. cbn. apply Ascii.eqb_eq in H. subst d.
    reflexivity.
  - apply andb_true_iff in H. tauto.
Qed.

Lemma tagSomewhere_closing (s : string) :
  tagSomewhere s = true -> containsChar ">" s = true.
Proof.
  induction s as [|c s IH]; [discriminate|]. cbn [tagSomewhere containsChar].
  intros H. apply orb_true_iff in H. destruct H as [H|H].
  - apply andb_true_iff in H. destruct H as [_ H].
    destruct s as [|l s]; [discriminate|]. apply andb_true_iff in H. destruct H as [_ H].
    apply tagTail_closing in H. cbn [containsChar]. rewrite H. now rewrite !orb_true_r.
  - rewrite (IH H). apply orb_true_r.
Qed.

Lemma skipWhile_app (p : ascii -> bool) (name : string) (c : ascii) (rest : string) :
  forallb p (list_ascii_of_string name) = true ->
  p c = false ->
  skipWhile p (name ++ String c rest) = String c rest.
Proof.
  intros Hn Hc. induction name as [|d name IH]; cbn in *.
  - now rewrite Hc.
  - apply andb_true_iff in Hn. destruct Hn as [Hd Hn]. rewrite Hd. auto.
Qed.

Lemma tagSomewhere_app (pre s : string) :
  tagSomewhere s = true -> tagSomewhere (pre ++ s) = true.
Proof.
  intros H. induction pre as [|c pre IH]; [exact H|].
  cbn [append tagSomewhere]. rewrite IH. apply orb_true_r.
Qed.

(** The tag test.  A string has tags when an opening bracket is followed
    by a name (a letter, then letters and digits) and the closing bracket;
    it has none when it has no closing bracket, or when no opening bracket
    is followed by a letter, as in a comparison or in a closing tag alone. *)
Theorem htmlContainsTags_spec (str : string) :
  (forall pre l name post,
      str = pre ++ "<" ++ String l name ++ ">" ++ post ->
      isAsciiLetter l = true ->
      forallb (fun c => isAsciiLetter c || JS.isDigit c) (list_ascii_of_string name) = true ->
      htmlContainsTags str = true) /\
  (containsChar ">" str = false -> htmlContainsTags str = false) /\
  ((forall pre c post, str = pre ++ "<" ++ String c post -> isAsciiLetter c = false) ->
   htmlContainsTags str = false).
Proof.
  split; [|split].
  - intros pre l name post -> Hl Hn. unfold htmlContainsTags.
    apply andb_true_iff. split; [destruct pre; reflexivity|].
    apply tagSomewhere_app. cbn [append tagSomewhere]. rewrite Hl. cbn [andb].
    unfold tagTail.
    rewrite (skipWhile_app (fun c => isAsciiLetter c || JS.isDigit c) name ">" post Hn eq_refl).
    reflexivity.
  - intros H. unfold htmlContainsTags. destruct (tagSomewhere str) eqn:E.
    + apply tagSomewhere_closing in E. congruence.
    + apply andb_false_r.
  - intros H. unfold htmlContainsTags.
    assert (E : tagSomewhere str = false); [|rewrite E; apply andb_false_r].
    induction str as [|c str IH]; [reflexivity|]. cbn [tagSomewhere].
    rewrite IH.
    + rewrite orb_false_r. destruct (Ascii.eqb_spec c "<") as [->|_]; [|reflexivity].
      destruct str as [|l str]; [reflexivity|]. cbn [andb].
      now rewrite (H "" l str eq_refl).
    + intros pre d post ->. apply (H (String c pre) d post). reflexivity.
Qed.

(** ** What the reconciler records *)

Lemma hasTag_isElement (tags : list string) (e : Dom.Node) :
  hasTag tags e = true -> Dom.isElement e = true.
Proof. unfold hasTag. intros H. apply andb_true_iff in H. tauto. Qed.

Lemma hasTag_In (tags : list string) (e : Dom.Node) :
  hasTag tags e = true -> In (Dom.tagNameLower e) tags.
Proof.
  unfold hasTag. intros H. apply andb_true_iff in H. destruct H as [_ H].
  apply existsb_exists in H. destruct H as (t & Hin & E). apply String.eqb_eq in E.
  now subst.
Qed.

Lemma isEmptyObj_false {V} (o : JS.Obj V) : isEmptyObj o = false <-> o <> [].
Proof. destruct o; cbn; split; congruence. Qed.

Lemma recorded_not_default (a : JS.Obj string) (tagName default : string) :
  negb (isEmptyObj a) || negb (tagName =? default) = true ->
  a <> [] \/ tagName <> default.
Proof.
  intros H. apply orb_true_iff in H. destruct H as [H|H]; apply negb_true_iff in H.
  - left. now apply isEmptyObj_false.
  - right. now apply String.eqb_neq.
Qed.

Lemma recorded_default (a : JS.Obj string) (tagName default : string) :
  negb (isEmptyObj a) || negb (tagName =? default) = false <->
  a = [] /\ tagName = default.
Proof.
  rewrite orb_false_iff, !negb_false_iff, String.eqb_eq. destruct a; cbn; intuition congruence.
Qed.

Lemma extractBlock_length (l : list Dom.Node) :
  List.length (flat_map extractBlock (filter Dom.isElement l))
  = List.length (filter (hasTag blockTags) l).
Proof.
  induction l as [|e l IH]; [reflexivity|]. cbn [filter].
  destruct (hasTag blockTags e) eqn:Ht.
  - rewrite (hasTag_isElement _ _ Ht). cbn [flat_map]. unfold extractBlock at 1. rewrite Ht.
    destruct (_ || _); cbn; now rewrite IH.
  - destruct (Dom.isElement e); [|exact IH]. cbn [flat_map]. unfold extractBlock at 1.
    rewrite Ht. exact IH.
Qed.

Lemma extractInline_length (body : list Dom.Node) (l : list (Dom.Path * Dom.Node)) :
  (List.length (flat_map (extractInline body) l)
   <= List.length
        (filter (fun e => existsb (String.eqb (Dom.tagNameLower (snd e))) inlineTags) l))%nat.
Proof.
  induction l as [|e l IH]; [reflexivity|]. cbn [flat_map filter]. rewrite length_app.
  unfold extractInline at 1. unfold hasTag.
  destruct (existsb (String.eqb (Dom.tagNameLower (snd e))) inlineTags).
  - destruct (Dom.isElement (snd e)); cbn [andb]; [destruct (_ || _)|];
      cbn [List.length]; lia.
  - rewrite andb_false_r. cbn [List.length]. lia.
Qed.

(** The entries of a recorded structure.  Blank markup records nothing.
    Otherwise there is one block entry (possibly the placeholder) for each
    child of the body whose tag is a block tag, and children with another
    tag have none; a block entry that is not the placeholder has a block tag
    and either some attribute or a tag other than [p]; an inline entry has
    an inline tag and either some attribute or a tag other than [span],
    and there are no more inline entries than elements with an inline
    tag. *)
Theorem extract_entries (browser : Browser) (html : string) :
  (JS.trim html = "" -> extractHTMLAttributes browser html = emptyStructure) /\
  (JS.trim html <> "" ->
   List.length (blockElements (extractHTMLAttributes browser html))
   = List.length (filter (hasTag blockTags) (parseBody browser html))) /\
  Forall (fun b => forall d,
              b = Some d ->
              In (originalTag d) blockTags /\
              (attrs d <> [] \/ originalTag d <> "p") /\
              parentTextContent d = None)
         (blockElements (extractHTMLAttributes browser html)) /\
  Forall (fun d => In (originalTag d) inlineTags /\
                   (attrs d <> [] \/ originalTag d <> "span") /\
                   parentTextContent d <> None)
         (inlineElements (extractHTMLAttributes browser html)) /\
  (List.length (inlineElements (extractHTMLAttributes browser html))
   <= List.length (Dom.querySelectorAll inlineTags (parseBody browser html)))%nat.
Proof.
  unfold extractHTMLAttributes. split; [|split; [|split; [|split]]].
  - intros E. rewrite E. cbn. now rewrite orb_true_r.
  - intros E. apply String.eqb_neq in E. rewrite E.
    assert (Ht : JS.truthy html = true).
    { unfold JS.truthy. destruct html; [|reflexivity]. discriminate. }
    rewrite Ht. cbn [negb orb blockElements]. apply extractBlock_length.
  - destruct (_ || _); [constructor|]. cbn [blockElements].
    apply Forall_flat_map, Forall_forall. intros e _. unfold extractBlock.
    destruct (hasTag blockTags e) eqn:Ht; [|constructor].
    destruct (_ || _) eqn:Hr; (constructor; [|constructor]); [|discriminate].
    intros d [= <-]. cbn [originalTag attrs parentTextContent].
    split; [now apply hasTag_In|].
    split; [now apply recorded_not_default|reflexivity].
  - destruct (_ || _); [constructor|]. cbn [inlineElements].
    apply Forall_flat_map, Forall_forall. intros e _. unfold extractInline.
    destruct (hasTag inlineTags (snd e)) eqn:Ht; [|constructor].
    destruct (_ || _) eqn:Hr; [|constructor]. constructor; [|constructor].
    cbn [originalTag attrs parentTextContent].
    split; [now apply hasTag_In|]. split; [now apply recorded_not_default|discriminate].
  - destruct (_ || _); [cbn; lia|]. cbn [inlineElements]. apply extractInline_length.
Qed.

Lemma existsb_flat_map_false {A B} (f : B -> bool) (g : A -> list B) (l : list A) :
  existsb f (flat_map g l) = false <-> forall x, In x l -> existsb f (g x) = false.
Proof.
  induction l as [|x l IH]; cbn.
  - split; [intros _ x []|reflexivity].
  - rewrite existsb_app, orb_false_iff, IH. split.
    + intros [H1 H2] y [<-|Hy]; auto.
    + intros H. split; [apply H; now left|]. intros y Hy. apply H. now right.
Qed.

Lemma flat_map_nil_iff {A B} (g : A -> list B) (l : list A) :
  flat_map g l = [] <-> forall x, In x l -> g x = [].
Proof.
  induction l as [|x l IH]; cbn.
  - split; [intros _ x []|reflexivity].
  - split.
    + intros H. apply app_eq_nil in H. destruct H as [H1 H2].
      intros y [<-|Hy]; [assumption|]. now apply IH.
    + intros H. rewrite (H x (or_introl eq_refl)). apply IH. intros y Hy. apply H. now right.
Qed.

Lemma extractBlock_placeholder (e : Dom.Node) :
  existsb isSome (extractBlock e) = false <->
  (hasTag blockTags e = true -> getPreservableAttrs e = [] /\ Dom.tagNameLower e = "p").
Proof.
  unfold extractBlock. destruct (hasTag blockTags e); [|cbn; intuition discriminate].
  destruct (_ || _) eqn:Hr; cbn.
  - split; [discriminate|]. intros H. apply recorded_default in H; [congruence|reflexivity].
  - apply recorded_default in Hr. tauto.
Qed.

Lemma extractInline_nothing (body : list Dom.Node) (e : Dom.Path * Dom.Node) :
  extractInline body e = [] <->
  (hasTag inlineTags (snd e) = true ->
   getPreservableAttrs (snd e) = [] /\ Dom.tagNameLower (snd e) = "span").
Proof.
  unfold extractInline. destruct (hasTag inlineTags (snd e)); [|intuition discriminate].
  destruct (_ || _) eqn:Hr.
  - split; [discriminate|]. intros H. apply recorded_default in H; [congruence|reflexivity].
  - apply recorded_default in Hr. tauto.
Qed.

(** When a recorded structure has nothing to preserve: the markup is
    blank, or every child of the body with a block tag is a [p] without
    [id], [class] and [data-*] attributes and every element with an inline
    tag, at any depth, is a [span] without them.  Block elements below the
    top level play no part. *)
Theorem extract_nothing_to_preserve (browser : Browser) (html : string) :
  hasPreservableStructure (Some (extractHTMLAttributes browser html)) = false <->
  (JS.trim html = "" \/
   ((forall e,
        In e (parseBody browser html) -> hasTag blockTags e = true ->
        getPreservableAttrs e = [] /\ Dom.tagNameLower e = "p") /\
    (forall p e,
        In (p, e) (Dom.elementsIn (parseBody browser html)) -> hasTag inlineTags e = true ->
        getPreservableAttrs e = [] /\ Dom.tagNameLower e = "span"))).
Proof.
  unfold extractHTMLAttributes.
  destruct (String.eqb_spec (JS.trim html) "") as [E|E].
  - rewrite orb_true_r. cbn. tauto.
  - assert (Ht : JS.truthy html = true).
    { unfold JS.truthy. destruct html; [|reflexivity]. now elim E. }
    rewrite Ht. cbn [negb orb hasPreservableStructure blockElements inlineElements].
    rewrite orb_false_iff, negb_false_iff, Nat.eqb_eq, length_zero_iff_nil.
    rewrite existsb_flat_map_false, flat_map_nil_iff. split.
    + intros [Hb Hi]. right. split.
      * intros e Hin He. apply extractBlock_placeholder; [|exact He].
        apply Hb. apply filter_In. split; [assumption|now apply hasTag_isElement in He].
      * intros p e Hin He.
        exact (proj1 (extractInline_nothing (parseBody browser html) (p, e))
                 (Hi (p, e) Hin) He).
    + intros [Hb|[Hb Hi]]; [contradiction|]. split.
      * intros e Hin. apply filter_In in Hin. apply extractBlock_placeholder.
        apply Hb. tauto.
      * intros [p e] Hin. apply extractInline_nothing. cbn [snd]. now apply (Hi p).
Qed.

Lemma dataAttrs_fold_get (attributes : list (string * string)) (acc : JS.Obj string)
    (k : string) :
  NoDup (map fst attributes) ->
  JS.get (fold_left (fun attrs attr =>
                       if JS.startsWith "data-" (fst attr)
                       then JS.set attrs (fst attr) (snd attr) else attrs)
                    attributes acc) k
  = match (if JS.startsWith "data-" k then JS.get attributes k else None) with
    | Some v => Some v
    | None => JS.get acc k
    end.
Proof.
  revert acc. induction attributes as [|[n x] attributes IH]; intros acc Hnd.
  - cbn. now destruct (JS.startsWith "data-" k).
  - inversion Hnd as [|? ? Hn Hnd']; subst. cbn [fold_left fst snd]. rewrite (IH _ Hnd').
    cbn [JS.get]. destruct (String.eqb_spec k n) as [->|Hk].
    + assert (Hg : JS.get attributes n = None).
      { destruct (JS.get attributes n) eqn:G; [|reflexivity].
        apply get_In_keys in G. contradiction. }
      rewrite Hg. destruct (JS.startsWith "data-" n).
      * now rewrite get_set, String.eqb_refl.
      * reflexivity.
    + destruct (JS.startsWith "data-" n); [|reflexivity].
      rewrite get_set. apply String.eqb_neq in Hk. now rewrite Hk.
Qed.

(** What is preserved of an element (whose attribute names are distinct,
    as they are in a parsed tree): its [id], its [class] and its [data-*]
    attributes, each with its value, and nothing else. *)
Theorem getPreservableAttrs_spec (e : Dom.Node) (k v : string) :
  NoDup (map fst (Dom.attributesOf e)) ->
  (JS.get (getPreservableAttrs e) k = Some v <->
   JS.get (Dom.attributesOf e) k = Some v /\
   (k = "id" \/ k = "class" \/ JS.startsWith "data-" k = true)).
Proof.
  intros Hnd. unfold getPreservableAttrs. rewrite (dataAttrs_fold_get _ _ _ Hnd).
  set (a := Dom.attributesOf e).
  assert (Hbase : JS.get
                    match JS.get a "class" with
                    | Some v0 =>
                        JS.set match JS.get a "id" with
                               | Some v1 => JS.set [] "id" v1
                               | None => []
                               end "class" v0
                    | None => match JS.get a "id" with
                              | Some v1 => JS.set [] "id" v1
                              | None => []
                              end
                    end k
                  = if k =? "class" then JS.get a "class"
                    else if k =? "id" then JS.get a "id" else None).
  { destruct (JS.get a "class") as [c|]; destruct (JS.get a "id") as [i|];
      rewrite ?get_set; cbn [JS.get];
        destruct (String.eqb_spec k "class") as [->|]; try reflexivity;
          destruct (String.eqb_spec k "id") as [->|]; reflexivity. }
  rewrite Hbase. clear Hbase.
  destruct (JS.startsWith "data-" k) eqn:Es.
  - assert (k <> "class") by (intros ->; discriminate).
    assert (k <> "id") by (intros ->; discriminate).
    destruct (String.eqb_spec k "class"); [contradiction|].
    destruct (String.eqb_spec k "id"); [contradiction|].
    destruct (JS.get a k); intuition congruence.
  - destruct (String.eqb_spec k "class") as [->|]; [intuition congruence|].
    destruct (String.eqb_spec k "id") as [->|]; intuition congruence.
Qed.

(** ** What the reconciler changes *)

Lemma skeleton_restoreElement (original : Descriptor) (n : Dom.Node) :
  skeleton (restoreElement original n) = skeleton n.
Proof.
  destruct n as [t a cs|d|d]; try reflexivity.
  unfold restoreElement. destruct (negb _); reflexivity.
Qed.

Lemma isElement_restoreElement (original : Descriptor) (n : Dom.Node) :
  Dom.isElement (restoreElement original n) = Dom.isElement n.
Proof.
  destruct n as [t a cs|d|d]; try reflexivity.
  unfold restoreElement. destruct (negb _); reflexivity.
Qed.



Lemma skeleton_restoreBlocks (blockElements : list (option Descriptor))
    (body : list Dom.Node) :
  map skeleton (restoreBlocks blockElements body) = map skeleton body.
Proof.
  revert blockElements. induction body as [|n body IH]; intros bs; [reflexivity|].
  cbn [restoreBlocks]. destruct (Dom.isElement n).
  - destruct bs as [|[original|] bs]; [reflexivity| |]; cbn [map]; rewrite IH;
      [now rewrite skeleton_restoreElement|reflexivity].
  - cbn [map]. now rewrite IH.
Qed.








Lemma restoreBlocks_elements (blockElements : list (option Descriptor))
    (body : list Dom.Node) (skipped : nat) :
  forall i e,
    nth_error (filter Dom.isElement body) i = Some e ->
    nth_error (filter Dom.isElement (restoreBlocks (skipn skipped blockElements) body)) i
    = Some match blockEntry blockElements (skipped + i) with
           | Some original => restoreElement original e
           | None => e
           end.
Proof.
  revert skipped. induction body as [|n body IH]; intros skipped i e H.
  - destruct i; discriminate.
  - cbn [restoreBlocks filter] in *. destruct (Dom.isElement n) eqn:En.
    + destruct (skipn skipped blockElements) as [|b bs] eqn:Es.
      * assert (Hnone : blockEntry blockElements (skipped + i) = None).
        { unfold blockEntry.
          assert (Hlen : (List.length blockElements <= skipped)%nat).
          { pose proof (length_skipn skipped blockElements) as L. rewrite Es in L.
            cbn in L. lia. }
          rewrite (proj2 (nth_error_None _ _)); [reflexivity|lia]. }
        rewrite Hnone. cbn [filter]. now rewrite En.
      * assert (Hb : nth_error blockElements skipped = Some b).
        { rewrite <- (Nat.add_0_r skipped), <- nth_error_skipn, Es. reflexivity. }
        assert (Hbs : bs = skipn (S skipped) blockElements).
        { change (S skipped) with (1 + skipped)%nat. rewrite <- skipn_skipn, Es.
          reflexivity. }
        destruct i as [|i].
        -- cbn in H. injection H as ->. rewrite Nat.add_0_r. unfold blockEntry. rewrite Hb.
           destruct b as [original|]; cbn [filter]; rewrite ?isElement_restoreElement, En;
             reflexivity.
        -- cbn [nth_error] in H. rewrite Hbs.
           replace (skipped + S i)%nat with (S skipped + i)%nat by lia.
           rewrite <- (IH (S skipped) i e H).
           destruct b as [original|]; cbn [filter]; rewrite ?isElement_restoreElement, En;
             reflexivity.
    + cbn [filter]. rewrite En. now apply IH.
Qed.

(** The block loop goes by position.  The [i]-th element child of the
    body, whatever its tag, is restored from the [i]-th block entry; it is
    left as it is when that entry is the placeholder or when there are
    fewer entries; the text and comment nodes between the elements are not
    counted and stay. *)
Theorem restoreBlocks_positional (blockElements : list (option Descriptor))
    (body : list Dom.Node) :
  (forall i e,
      nth_error (filter Dom.isElement body) i = Some e ->
      nth_error (filter Dom.isElement (restoreBlocks blockElements body)) i
      = Some match blockEntry blockElements i with
             | Some original => restoreElement original e
             | None => e
             end) /\
  filter (fun n => negb (Dom.isElement n)) (restoreBlocks blockElements body)
  = filter (fun n => negb (Dom.isElement n)) body /\
  List.length (restoreBlocks blockElements body) = List.length body.
Proof.
  split; [|split].
  - intros i e H. exact (restoreBlocks_elements blockElements body 0 i e H).
  - revert blockElements. induction body as [|n body IH]; intros bs; [reflexivity|].
    cbn [restoreBlocks]. destruct (Dom.isElement n) eqn:En.
    + destruct bs as [|[original|] bs]; [reflexivity| |]; cbn [filter];
        rewrite ?isElement_restoreElement, En; cbn [negb]; apply IH.
    + cbn [filter]. rewrite En. cbn [negb]. now rewrite IH.
  - now rewrite <- (length_map skeleton), skeleton_restoreBlocks, length_map.
Qed.

(** *** Inline entries with the same text *)
















(** ** Opening and cancelling *)

(** Opening a cell and cancelling comes back to the state before the
    click, also when the code view was looked at in between: nothing of
    the edit is kept. *)
Theorem open_then_cancel browser loadedText decode (k : string) (i : nat) (value : string)
    (editor : Editor) (st : State) :
  currentEditContext st = None ->
  isCodeViewActive st = false ->
  handleModalCancel (handleCellClick browser loadedText k i value st) = st /\
  handleModalCancel
    (fst (toggleCodeView browser decode editor
            (handleCellClick browser loadedText k i value st))) = st.
Proof.
  intros Hc Hv. unfold handleCellClick. rewrite Hc. cbn [isSome].
  destruct st as [o m u q s cc a p e v]. cbn in Hc, Hv. subst e v. split; reflexivity.
Qed.

(** ** The further properties on the sample data *)

Lemma open_then_cancel_witness :
  handleModalCancel Sample.editing = Sample.loaded /\
  handleModalCancel Edits.codeView = Sample.loaded.
Proof.
  exact (open_then_cancel Sample.browser Sample.loadedText Edits.decode "greet" 0 "hi"
           Sample.untouched Sample.loaded eq_refl eq_refl).
Defined.

Lemma save_changes_one_cell_witness :
  exists st',
    handleModalSave Sample.browser Sample.retyped Sample.editing = Done st' /\
    cellOf Edits.context (modifiedDataSource st') = Some (Some "hello") /\
    option_map (fun l => JS.get (Translations l) "greet") (nth_error (modifiedDataSource st') 1)
    = Some (Some "bok").
Proof.
  destruct (save_changes_one_cell Sample.browser Sample.retyped Sample.editing
              Edits.context Sample.en eq_refl eq_refl) as (st' & H1 & H2 & H3 & _).
  exists st'. split; [exact H1|]. split; [exact H2|].
  apply (H3 1%nat "greet"). discriminate.
Defined.

Lemma code_view_save_witness :
  exists st',
    handleModalSave Sample.browser Edits.rewritten Edits.codeView = Done st' /\
    cellOf Edits.contextInCodeView (modifiedDataSource st') = Some (Some "<i>hi</i>").
Proof.
  destruct (code_view_save Sample.browser Edits.rewritten Edits.codeView
              Edits.contextInCodeView Sample.en eq_refl eq_refl eq_refl)
    as (st' & H1 & _ & H3 & _).
  exists st'. split; [exact H1|]. apply H3. cbv. discriminate.
Defined.

Lemma formatted_save_witness :
  exists st',
    handleModalSave Sample.browser Edits.bold Sample.editing = Done st' /\
    cellOf Edits.context (modifiedDataSource st') = Some (Some "<p><strong>hi</strong></p>").
Proof.
  destruct (formatted_save Sample.browser Edits.bold Sample.editing Edits.context Sample.en
              eq_refl eq_refl eq_refl eq_refl) as (st' & H1 & H2 & _).
  exists st'. split; [exact H1|exact (H2 eq_refl)].
Defined.

Lemma code_view_round_trip_witness :
  exists st2,
    handleModalSave Sample.browser Edits.unchanged Edits.codeView = Done st2 /\
    cellOf Edits.context (modifiedDataSource st2) = Some (Some "hi") /\
    hasUnsavedChanges st2 = true.
Proof.
  exact (code_view_round_trip Sample.browser Edits.decode Sample.untouched Edits.unchanged
           Sample.editing Edits.codeView Edits.context Sample.en "<p>hi</p>"
           eq_refl eq_refl eq_refl eq_refl eq_refl).
Defined.

Lemma getPreservableAttrs_witness :
  NoDup (map fst (Dom.attributesOf Edits.tagged)) /\
  JS.get (getPreservableAttrs Edits.tagged) "data-k" = Some "v" /\
  JS.get (getPreservableAttrs Edits.tagged) "title" = None.
Proof.
  assert (Hnd : NoDup (map fst (Dom.attributesOf Edits.tagged))).
  { cbn.
    repeat (constructor;
            [cbn; intros H; repeat (destruct H as [H|H]; [discriminate|]); exact H|]).
    constructor. }
  split; [exact Hnd|]. split; [|reflexivity].
  apply (proj2 (getPreservableAttrs_spec Edits.tagged "data-k" "v" Hnd)).
  split; [reflexivity|]. right. right. reflexivity.
Defined.


(** ** The page buttons, checked *)

Lemma active_countUp (cur : Z) (n : nat) :
  forall a b,
    Z.to_nat (b - a + 1) = n ->
    List.length (filter isActive (map (pageControl cur) (map PageNumber (countUp a b))))
    = if ((a <=? cur) && (cur <=? b))%Z then 1%nat else 0%nat.
Proof.
  induction n as [|n IH]; intros a b Hn.
  - rewrite countUp_empty by lia. cbn.
    destruct (Z.leb_spec a cur), (Z.leb_spec cur b); try reflexivity. lia.
  - rewrite countUp_cons by lia. cbn [map filter pageControl isActive].
    pose proof (IH (a + 1)%Z b ltac:(lia)) as IHn.
    destruct (Z.eqb_spec a cur) as [Heq|Hne]; cbn [List.length]; rewrite IHn;
      destruct (Z.leb_spec a cur), (Z.leb_spec (a + 1) cur), (Z.leb_spec cur b);
      cbn; try reflexivity; lia.
Qed.

Lemma active_app (l1 l2 : list PageControl) :
  List.length (filter isActive (l1 ++ l2))
  = (List.length (filter isActive l1) + List.length (filter isActive l2))%nat.
Proof. now rewrite filter_app, length_app. Qed.

Lemma active_ellipsis (cur : Z) (b : bool) :
  List.length (filter isActive (map (pageControl cur) (if b then [Ellipsis] else []))) = 0%nat.
Proof. now destruct b. Qed.

Lemma active_page (cur page : Z) :
  List.length (filter isActive (map (pageControl cur) [PageNumber page]))
  = if (page =? cur)%Z then 1%nat else 0%nat.
Proof. cbn. now destruct (page =? cur)%Z. Qed.

Lemma In_ellipsis_page (b : bool) (x : Z) :
  ~ In (PageNumber x) (if b then [Ellipsis] else []).
Proof. destruct b; cbn; [intros [H|[]]; discriminate|tauto]. Qed.

Lemma getPageNumbers_bounds (cur total x : Z) :
  (1 <= cur <= total)%Z ->
  In (PageNumber x) (getPageNumbers cur total) -> (1 <= x <= total)%Z.
Proof.
  intros Hc. destruct (Z.leb_spec total 7) as [Hs|Hl].
  - rewrite getPageNumbers_small by lia. rewrite in_map_iff.
    intros (y & [= ->] & Hy). now apply countUp_In in Hy.
  - destruct (getPageNumbers_large cur total Hl Hc) as (ws & we & -> & Hw).
    rewrite !in_app_iff. intros [H|[H|[H|[H|H]]]].
    + destruct H as [[= <-]|[]]. lia.
    + now apply In_ellipsis_page in H.
    + apply in_map_iff in H. destruct H as (y & [= ->] & Hy). apply countUp_In in Hy. lia.
    + now apply In_ellipsis_page in H.
    + destruct H as [[= <-]|[]]. lia.
Qed.

(** The page buttons.  On a page within the page count, every page button
    shows a page that exists, its click is let through by [goToPage] and
    goes to that page (closing the editor), and a button is marked active
    exactly when it shows the current page; with two pages or more exactly
    one button is active, and with one page or none there are no
    buttons. *)
Theorem page_buttons_lead_somewhere (st : State) (n : Z) :
  pageCount st = JS.Num n ->
  (1 <= currentPage (pagination st) <= n)%Z ->
  (forall page active,
      In (PageButton page active) (renderPaginationControls st n) ->
      (1 <= page <= n)%Z /\
      goToPage page st = setCurrentPage page (closeModalIfOpen st) /\
      (active = true <-> page = currentPage (pagination st))) /\
  (1 < n -> List.length (filter isActive (renderPaginationControls st n)) = 1%nat)%Z /\
  (n <= 1 -> renderPaginationControls st n = [])%Z.
Proof.
  intros Hn Hc. set (cur := currentPage (pagination st)) in *.
  unfold renderPaginationControls. fold cur. split; [|split].
  - intros page active Hin. destruct (Z.leb_spec n 1); [destruct Hin|].
    apply in_map_iff in Hin. destruct Hin as ([x|] & Hx & Hin); [|discriminate].
    cbn in Hx. injection Hx as -> <-.
    pose proof (getPageNumbers_bounds cur n page Hc Hin) as Hb.
    split; [exact Hb|]. split; [|apply Z.eqb_eq].
    unfold goToPage. rewrite Hn. cbn [JS.gt].
    destruct (Z.ltb_spec page 1); [lia|]. destruct (Z.ltb_spec n page); [lia|]. reflexivity.
  - intros H1. destruct (Z.leb_spec n 1); [lia|].
    destruct (Z.leb_spec n 7) as [Hs|Hl].
    + rewrite getPageNumbers_small by lia.
      rewrite (active_countUp cur _ 1 n eq_refl).
      destruct (Z.leb_spec 1 cur), (Z.leb_spec cur n); cbn; try reflexivity; lia.
    + destruct (getPageNumbers_large cur n Hl Hc) as (ws & we & -> & Hw).
      rewrite !map_app, !active_app, !active_ellipsis, !active_page.
      rewrite (active_countUp cur _ ws we eq_refl).
      destruct (Z.eqb_spec 1 cur), (Z.eqb_spec n cur), (Z.leb_spec ws cur),
        (Z.leb_spec cur we); cbn; try reflexivity; lia.
  - intros H1. destruct (Z.leb_spec n 1); [reflexivity|lia].
Qed.

Lemma page_buttons_witness :
  let st := setPagination {| currentPage := 2; rowsPerPage := 1 |} Sample.loaded in
  pageCount st = JS.Num 3 /\
  renderPaginationControls st 3
  = [PageButton 1 false; PageButton 2 true; PageButton 3 false] /\
  goToPage 3 st = setCurrentPage 3 st.
Proof.
  cbv zeta. split; [reflexivity|]. split; [reflexivity|].
  exact (proj1 (proj2 (proj1 (page_buttons_lead_somewhere
                                (setPagination {| currentPage := 2; rowsPerPage := 1 |}
                                               Sample.loaded)
                                3 eq_refl ltac:(cbn; lia))
                             3%Z false (or_intror (or_intror (or_introl eq_refl)))))).
Defined.
